(** * openbook-v2 crank configurator: market factory, registrar and
      order-book filler

    A shallow embedding of [configure/openbook-v2/create_markets.ts] and of
    the [OpenbookConfigurator] class, and the properties of the provisioning
    protocol proved over it.

    Layout: JavaScript numbers, web3.js values, the instructions of the
    program, the monad of ledger interactions, the three repository
    functions and their semantics, a mock ledger; then the theorems. *)

From Stdlib Require Import ZArith List String Ascii Strings.Byte Bool Lia.
From Stdlib Require Import Floats.SpecFloat DecimalString.
Import ListNotations.
Local Open Scope Z_scope.

(** ** JavaScript numbers

    A [number] is an IEEE 754 binary64 value; arithmetic is the correctly
    rounded arithmetic of [SpecFloat] at precision 53.  Loop counters and
    array indices, which stay far inside the safe-integer range where that
    arithmetic is exact, are written as [Z] and [nat]. *)
Module JS.

Definition number := spec_float.
Definition prec : Z := 53.
Definition emax : Z := 1024.

Definition valid (x : number) : bool := valid_binary prec emax x.
Definition of_Z (z : Z) : number := binary_normalize prec emax z 0 false.
Definition mul : number -> number -> number := SFmul prec emax.
Definition add : number -> number -> number := SFadd prec emax.
Definition ltb : number -> number -> bool := SFltb.
Definition leb : number -> number -> bool := SFleb.

(** The same value, bit for bit. *)
Definition same (a b : number) : bool :=
  match a, b with
  | S754_zero s, S754_zero s' => Bool.eqb s s'
  | S754_infinity s, S754_infinity s' => Bool.eqb s s'
  | S754_nan, S754_nan => true
  | S754_finite s m e, S754_finite s' m' e' =>
      Bool.eqb s s' && Pos.eqb m m' && Z.eqb e e'
  | _, _ => false
  end.

(** The integer part, rounding towards minus infinity, of a finite value
    [m * 2^e]; [Z.shiftl] by a negative amount is the flooring shift. *)
Definition Zfloor (x : number) : Z :=
  match x with
  | S754_finite s m e => Z.shiftl (cond_Zopp s (Zpos m)) e
  | _ => 0
  end.

(** [Math.floor]: zeros, infinities and NaN are returned as they are. *)
Definition Math_floor (x : number) : number :=
  match x with
  | S754_finite _ _ _ => of_Z (Zfloor x)
  | _ => x
  end.

(** What [Math.random()] may return: a binary64 with positive sign,
    greater than or equal to 0 and less than 1. *)
Definition unit_interval (r : number) : bool :=
  valid r && leb (S754_zero false) r && ltb r (of_Z 1)
  && match r with S754_zero s => negb s | _ => true end.

(** *** Decimal text *)

Definition digits_of_Z (z : Z) : string :=
  NilZero.string_of_uint (N.to_uint (Z.to_N z)).

Fixpoint zeros (n : nat) : string :=
  match n with
  | O => EmptyString
  | S n' => String "0" (zeros n')
  end.

Definition pad_left (width : nat) (s : string) : string :=
  (zeros (width - String.length s) ++ s)%string.

(** [|x| * 10^f] rounded to the nearest integer, the larger one on a tie
    (step 10.a of Number.prototype.toFixed). *)
Definition scaled_round (m : positive) (e : Z) (f : nat) : Z :=
  let a := Zpos m * 10 ^ Z.of_nat f in
  if 0 <=? e then Z.shiftl a e
  else (a + 2 ^ (- e - 1)) / 2 ^ (- e).

(** [|x| >= 10^21] for the finite value [m * 2^e]. *)
Definition at_least_1e21 (m : positive) (e : Z) : bool :=
  if 0 <=? e then 10 ^ 21 <=? Z.shiftl (Zpos m) e
  else 10 ^ 21 * 2 ^ (- e) <=? Zpos m.

Section ToFixed.
(** [Number::toString], used by [toFixed] only from 10^21 upwards, is
    left to the engine. *)
Variable Number_toString : number -> string.

Definition fixed_text (n : Z) (f : nat) : string :=
  let p := 10 ^ Z.of_nat f in
  match f with
  | O => digits_of_Z n
  | _ => digits_of_Z (n / p) ++ "." ++ pad_left f (digits_of_Z (n mod p))
  end%string.

(** [x.toFixed(f)]. *)
Definition toFixed (x : number) (f : nat) : string :=
  match x with
  | S754_nan => "NaN"
  | S754_infinity s => if s then "-Infinity" else "Infinity"
  | S754_zero _ => fixed_text 0 f
  | S754_finite s m e =>
      if at_least_1e21 m e then Number_toString x
      else ((if s then "-" else "") ++ fixed_text (scaled_round m e f) f)%string
  end.
End ToFixed.

(** *** [parseFloat]

    The longest prefix of the trimmed text that is a StrDecimalLiteral:
    an optional sign, then [Infinity], or digits with an optional
    fraction and an optional exponent.  The decimal value is rounded
    once, to nearest even. *)

Definition is_digit (c : ascii) : bool :=
  let n := nat_of_ascii c in (48 <=? n)%nat && (n <=? 57)%nat.

Definition digit_val (c : ascii) : Z := Z.of_nat (nat_of_ascii c) - 48.

Definition is_space (c : ascii) : bool :=
  let n := nat_of_ascii c in
  (n =? 32)%nat || ((9 <=? n)%nat && (n <=? 13)%nat).

Fixpoint trim_start (s : string) : string :=
  match s with
  | String c s' => if is_space c then trim_start s' else s
  | EmptyString => s
  end.

(** Leading digits: their value continuing from [acc], how many there
    are, and the rest of the text. *)
Fixpoint take_digits (s : string) (acc : Z) (count : nat) : Z * nat * string :=
  match s with
  | String c s' =>
      if is_digit c then take_digits s' (acc * 10 + digit_val c) (S count)
      else (acc, count, s)
  | EmptyString => (acc, count, s)
  end.

(** The exponent part [e[+-]digits], 0 when the text does not start
    with a complete one. *)
Definition take_exponent (s : string) : Z :=
  match s with
  | String c s' =>
      if (nat_of_ascii c =? 101)%nat || (nat_of_ascii c =? 69)%nat then
        let '(neg, s'') :=
          match s' with
          | String "-" t => (true, t)
          | String "+" t => (false, t)
          | _ => (false, s')
          end in
        let '(v, n, _) := take_digits s'' 0 O in
        match n with O => 0 | _ => if neg then - v else v end
      else 0
  | EmptyString => 0
  end.

(** The binary64 nearest to [m * 10^e], with sign [s]. *)
Definition decimal_value (s : bool) (m : Z) (e : Z) : number :=
  match m with
  | Zpos p =>
      if 0 <=? e then binary_normalize prec emax (cond_Zopp s (m * 10 ^ e)) 0 s
      else SFdiv prec emax (S754_finite s p 0)
                 (S754_finite false (Z.to_pos (10 ^ (- e))) 0)
  | _ => S754_zero s
  end.

Definition starts_with (p s : string) : bool :=
  String.eqb (substring 0 (String.length p) s) p.

Definition parseFloat (text : string) : number :=
  let t := trim_start text in
  let '(neg, t) :=
    match t with
    | String "-" t' => (true, t')
    | String "+" t' => (false, t')
    | _ => (false, t)
    end in
  if starts_with "Infinity" t then S754_infinity neg
  else
    let '(ip, ni, t1) := take_digits t 0 O in
    let '(m, nf, t2) :=
      match t1 with
      | String "." t' =>
          let '(m, nf, t2) := take_digits t' ip O in
          match ni, nf with
          | O, O => (ip, O, t1)
          | _, _ => (m, nf, t2)
          end
      | _ => (ip, O, t1)
      end in
    match ni, nf with
    | O, O => S754_nan
    | _, _ => decimal_value neg m (take_exponent t2 - Z.of_nat nf)
    end.

End JS.

(** ** web3.js values *)

Definition Buffer := list byte.

(** [Buffer.from(text)]: the bytes of the text. *)
Definition Buffer_from (text : string) : Buffer := list_byte_of_string text.

(** A [PublicKey] is an object: [pk_obj] is its identity, which is what
    [===] compares, and [toBytes] its 32-byte address, which is what the
    ledger sees. *)
Record PublicKey := { pk_obj : nat; toBytes : Buffer }.

Definition toBuffer : PublicKey -> Buffer := toBytes.

(** [a === b] on two objects. *)
Definition strict_equal (a b : PublicKey) : bool := Nat.eqb (pk_obj a) (pk_obj b).

Fixpoint Buffer_eqb (a b : Buffer) : bool :=
  match a, b with
  | [], [] => true
  | x :: a', y :: b' => Byte.eqb x y && Buffer_eqb a' b'
  | _, _ => false
  end.

(** [a.equals(b)]: the same address. *)
Definition equals (a b : PublicKey) : bool := Buffer_eqb (toBytes a) (toBytes b).

Definition PublicKey_eqb (a b : PublicKey) : bool :=
  strict_equal a b && equals a b.

Record Keypair := { publicKey : PublicKey; secretKey : Buffer }.

(** [Array.from(bytes)]: the bytes as an array of numbers. *)
Definition Array_from (bytes : Buffer) : list Z :=
  map (fun b => Z.of_N (Byte.to_N b)) bytes.

(** [new BN(n)] of an integer in the safe range is that integer. *)
Definition BN (n : Z) : Z := n.

(** The safe range: bn.js asserts that a number handed to [new BN] is
    below 2^53 in magnitude. *)
Definition BN_accepts (n : Z) : bool := Z.abs n <? 2 ^ 53.

Definition byte_of_Z (z : Z) : byte :=
  match Byte.of_N (Z.to_N (z mod 256)) with
  | Some b => b
  | None => x00
  end.

Fixpoint le_bytes (length : nat) (n : Z) : Buffer :=
  match length with
  | O => []
  | S length' => byte_of_Z n :: le_bytes length' (n / 256)
  end.

(** [bn.toBuffer("le", length)]: the magnitude in [length] little-endian
    bytes; bn.js asserts that it fits. *)
Definition BN_toBuffer_le (bn : Z) (length : nat) : option Buffer :=
  if Z.abs bn <? 256 ^ Z.of_nat length
  then Some (le_bytes length (Z.abs bn)) else None.

(** [array[i]] *)
Definition at_index {A} (array : list A) (i : Z) : option A :=
  if i <? 0 then None else nth_error array (Z.to_nat i).

Definition U64_MAX_BN : Z := 2 ^ 64 - 1.

Variant AccountInfo := Build_AccountInfo (lamports : Z) (data : Buffer).

(** [TestProvider] of [../anchor_utils]: the connection is the ledger the
    interactions below run against; [keypair] is the payer's. *)
Record TestProvider := { keypair : Keypair }.

Variant MintUtils := Build_MintUtils.

Record Program := { programId : PublicKey; provider : TestProvider }.

(** ** The data model of the repository *)

Module Market.
Record t := {
  name : string;
  admin : list Z;
  market_pk : PublicKey;
  oracle_a : PublicKey;
  oracle_b : PublicKey;
  asks : PublicKey;
  bids : PublicKey;
  event_heap : PublicKey;
  base_vault : PublicKey;
  quote_vault : PublicKey;
  base_mint : PublicKey;
  quote_mint : PublicKey;
  market_index : Z;
  price : JS.number }.
End Market.

Module OpenOrders.
Record t := { market : PublicKey; open_orders : PublicKey }.
End OpenOrders.

(** [User] of [../general/create_users], with the two fields the
    configurator reads. *)
Module TokenAccountData.
Record t := { mint : PublicKey; token_account : PublicKey }.
End TokenAccountData.

Module User.
Record t := {
  token_data : list TokenAccountData.t;
  open_orders : list OpenOrders.t }.
End User.

(** ** Instructions of the program, as the code builds them *)

Module StubOracleCreate.
Record accounts := {
  payer : PublicKey; oracle : PublicKey; mint : PublicKey;
  systemProgram : PublicKey }.
End StubOracleCreate.

Module StubOracleSet.
Record accounts := { owner : PublicKey; oracle : PublicKey }.
End StubOracleSet.

Record OracleConfigParams := { confFilter : Z; maxStalenessSlots : Z }.

Module CreateMarket.
Record accounts := {
  market : PublicKey;
  marketAuthority : PublicKey;
  bids : PublicKey;
  asks : PublicKey;
  eventHeap : PublicKey;
  payer : PublicKey;
  marketBaseVault : PublicKey;
  marketQuoteVault : PublicKey;
  baseMint : PublicKey;
  quoteMint : PublicKey;
  systemProgram : PublicKey;
  tokenProgram : PublicKey;
  associatedTokenProgram : PublicKey;
  oracleA : PublicKey;
  oracleB : PublicKey;
  collectFeeAdmin : PublicKey;
  openOrdersAdmin : option PublicKey;
  closeMarketAdmin : option PublicKey;
  consumeEventsAdmin : option PublicKey;
  eventAuthority : PublicKey;
  program : PublicKey }.
End CreateMarket.

Module CreateOpenOrdersIndexer.
Record accounts := {
  openOrdersIndexer : PublicKey; owner : PublicKey; payer : PublicKey;
  systemProgram : PublicKey }.
End CreateOpenOrdersIndexer.

Module CreateOpenOrdersAccount.
Record accounts := {
  openOrdersIndexer : PublicKey;
  openOrdersAccount : PublicKey;
  market : PublicKey;
  owner : PublicKey;
  delegateAccount : option PublicKey;
  payer : PublicKey;
  systemProgram : PublicKey }.
End CreateOpenOrdersAccount.

(** The tagged objects [{ bid: {} }], [{ limit: {} }], [{ decrementTake: {} }]
    and their siblings in the program's interface. *)
Module Side.
Variant t := bid | ask.
End Side.

Module PlaceOrderType.
Variant t := limit | immediateOrCancel | postOnly | market | postOnlySlide.
End PlaceOrderType.

Module SelfTradeBehavior.
Variant t := decrementTake | cancelProvide | abortTransaction.
End SelfTradeBehavior.

Module PlaceOrder.
Record args := {
  side : Side.t;
  priceLots : Z;
  maxBaseLots : Z;
  maxQuoteLotsIncludingFees : Z;
  clientOrderId : Z;
  orderType : PlaceOrderType.t;
  expiryTimestamp : Z;
  selfTradeBehavior : SelfTradeBehavior.t;
  limit : Z }.

(** [userTokenAccount] is [None] where the code passes [undefined]. *)
Record accounts := {
  asks : PublicKey;
  marketVault : PublicKey;
  bids : PublicKey;
  eventHeap : PublicKey;
  market : PublicKey;
  openOrdersAccount : PublicKey;
  oracleA : PublicKey;
  oracleB : PublicKey;
  signer : PublicKey;
  userTokenAccount : option PublicKey;
  tokenProgram : PublicKey;
  openOrdersAdmin : option PublicKey }.
End PlaceOrder.

(** [program.methods]: one constructor per instruction builder. *)
Module Methods.
Variant t :=
  | stubOracleCreate (price : JS.number) (accs : StubOracleCreate.accounts)
  | stubOracleSet (price : JS.number) (accs : StubOracleSet.accounts)
  | createMarket (name : string) (oracleConfig : OracleConfigParams)
      (quoteLotSize baseLotSize makerFee takerFee timeExpiry : Z)
      (accs : CreateMarket.accounts)
  | createOpenOrdersIndexer (accs : CreateOpenOrdersIndexer.accounts)
  | createOpenOrdersAccount (name : string)
      (accs : CreateOpenOrdersAccount.accounts)
  | placeOrder (args : PlaceOrder.args) (accs : PlaceOrder.accounts).
End Methods.

Variant PreInstruction := setComputeUnitLimit (units : Z).

(** What one [.rpc()] submits: the instruction built by the [methods] of a
    program handle, the instructions put before it, and the signers. *)
Record Transaction := {
  methods_of : Program;
  preInstructions : list PreInstruction;
  instruction : Methods.t;
  signers : list Keypair }.

(** ** Interactions

    A computation is the tree of its interactions with the outside: the
    awaited calls to the ledger, and the two synchronous sources of
    randomness.  [Throw] is a raised exception. *)

Variant Exn :=
| TypeError
| AssertionError
| SendTransactionError (tx : Transaction)
| AllocationError.

Inductive Prog (A : Type) : Type :=
| Ret (a : A)
| Throw (e : Exn)
| GetAccountInfo (address : PublicKey) (k : option AccountInfo -> Prog A)
| Rpc (tx : Transaction) (k : Prog A)
| CreateAccount (payer : Keypair) (size : Z) (owner : PublicKey)
    (k : PublicKey -> Prog A)
| KeypairGenerate (k : Keypair -> Prog A)
| MathRandom (k : JS.number -> Prog A).

Arguments Ret {A} a.
Arguments Throw {A} e.
Arguments GetAccountInfo {A} address k.
Arguments Rpc {A} tx k.
Arguments CreateAccount {A} payer size owner k.
Arguments KeypairGenerate {A} k.
Arguments MathRandom {A} k.

Fixpoint bind {A B} (p : Prog A) (f : A -> Prog B) : Prog B :=
  match p with
  | Ret a => f a
  | Throw e => Throw e
  | GetAccountInfo address k => GetAccountInfo address (fun r => bind (k r) f)
  | Rpc tx k => Rpc tx (bind k f)
  | CreateAccount payer size owner k =>
      CreateAccount payer size owner (fun r => bind (k r) f)
  | KeypairGenerate k => KeypairGenerate (fun r => bind (k r) f)
  | MathRandom k => MathRandom (fun r => bind (k r) f)
  end.

Declare Scope prog_scope.
Delimit Scope prog_scope with prog.
Notation "x <- p ;; q" := (bind p (fun x => q))
  (at level 61, p at next level, right associativity) : prog_scope.
Notation "p ;; q" := (bind p (fun _ => q))
  (at level 61, right associativity) : prog_scope.
Local Open Scope prog_scope.

(** [await connection.getAccountInfo(address)] *)
Definition getAccountInfo (address : PublicKey) : Prog (option AccountInfo) :=
  GetAccountInfo address Ret.

(** [await program.methods. ... .rpc()] *)
Definition rpc (tx : Transaction) : Prog unit := Rpc tx (Ret tt).

(** Modelled from the spec: [createAccount] of [../general/solana_utils],
    the Account Provisioner, allocates a new storage account of [size]
    bytes owned by [owner], paid for by [payer], and returns its address;
    it fails when the ledger rejects the allocation. *)
Definition createAccount (payer : Keypair) (size : Z) (owner : PublicKey)
  : Prog PublicKey :=
  CreateAccount payer size owner Ret.

(** [Keypair.generate()] *)
Definition Keypair_generate : Prog Keypair := KeypairGenerate Ret.

(** [Math.random()] *)
Definition Math_random : Prog JS.number := MathRandom Ret.

(** A value that may be [undefined], dereferenced. *)
Definition defined {A} (v : option A) : Prog A :=
  match v with
  | Some a => Ret a
  | None => Throw TypeError
  end.

(** [for (let i = start; ...; ++i) body], for [count] iterations. *)
Fixpoint for_loop (count : nat) (i : Z) (body : Z -> Prog unit) : Prog unit :=
  match count with
  | O => Ret tt
  | S count' => body i ;; for_loop count' (i + 1) body
  end.

(** ** The libraries the code calls

    The pure functions and constants of web3.js, spl-token and anchor, and
    the program's interface description (IDL), none of which the
    repository defines. *)

Record IdlAccountDef := { idl_name : string }.

Class Web3 := {
  findProgramAddressSync : list Buffer -> PublicKey -> PublicKey * Z;
  getAssociatedTokenAddressSync : PublicKey -> PublicKey -> bool -> PublicKey;
  SystemProgram_programId : PublicKey;
  TOKEN_PROGRAM_ID : PublicKey;
  ASSOCIATED_TOKEN_PROGRAM_ID : PublicKey;
  IDL_accounts : list IdlAccountDef;
  BorshAccountsCoder_size : IdlAccountDef -> Z;
  Number_toString : JS.number -> string }.

(** ** create_markets.ts *)

Section CreateMarkets.
Context {web3 : Web3}.

Definition getRandomInt (max : JS.number) : Prog JS.number :=
  r <- Math_random ;;
  Ret (JS.add (JS.Math_floor (JS.mul r max)) (JS.of_Z 100)).

(** [coder.size] of a missing account description raises. *)
Definition getAccountSize (name : string) : Prog Z :=
  let idlAccount :=
    hd_error
      (filter (fun idlAccount => String.eqb (idl_name idlAccount) name)
              IDL_accounts) in
  idlAccount <- defined idlAccount ;;
  Ret (BorshAccountsCoder_size idlAccount).

(** Line 72: the synthetic reference price. *)
Definition reference_price : Prog JS.number :=
  n <- getRandomInt (JS.of_Z 1000) ;;
  Ret (JS.parseFloat (JS.toFixed Number_toString n 2)).

Definition createMarket
    (program : Program) (anchorProvider : TestProvider)
    (mintUtils : MintUtils) (adminKp : Keypair)
    (openbookProgramId baseMint quoteMint : PublicKey) (index : Z)
  : Prog Market.t :=
  let adminKp := keypair anchorProvider in
  let '(oracleAId, _tmp1) :=
    findProgramAddressSync
      [Buffer_from "StubOracle"; toBytes (publicKey adminKp); toBytes baseMint]
      openbookProgramId in
  let '(oracleBId, _tmp3) :=
    findProgramAddressSync
      [Buffer_from "StubOracle"; toBytes (publicKey adminKp); toBytes quoteMint]
      openbookProgramId in
  price <- reference_price ;;
  infoA <- getAccountInfo oracleAId ;;
  match infoA with
  | None =>
      rpc {| methods_of := program;
             preInstructions := [];
             instruction := Methods.stubOracleCreate (JS.of_Z 1)
               {| StubOracleCreate.payer := publicKey adminKp;
                  StubOracleCreate.oracle := oracleAId;
                  StubOracleCreate.mint := baseMint;
                  StubOracleCreate.systemProgram := SystemProgram_programId |};
             signers := [adminKp] |}
  | Some _ => Ret tt
  end ;;
  infoB <- getAccountInfo oracleBId ;;
  match infoB with
  | None =>
      rpc {| methods_of := program;
             preInstructions := [];
             instruction := Methods.stubOracleCreate (JS.of_Z 1)
               {| StubOracleCreate.payer := publicKey adminKp;
                  StubOracleCreate.oracle := oracleBId;
                  StubOracleCreate.mint := quoteMint;
                  StubOracleCreate.systemProgram := SystemProgram_programId |};
             signers := [adminKp] |}
  | Some _ => Ret tt
  end ;;
  rpc {| methods_of := program;
         preInstructions := [];
         instruction := Methods.stubOracleSet price
           {| StubOracleSet.owner := publicKey adminKp;
              StubOracleSet.oracle := oracleAId |};
         signers := [adminKp] |} ;;
  rpc {| methods_of := program;
         preInstructions := [];
         instruction := Methods.stubOracleSet price
           {| StubOracleSet.owner := publicKey adminKp;
              StubOracleSet.oracle := oracleBId |};
         signers := [adminKp] |} ;;
  size <- getAccountSize "bookSide" ;;
  asks <- createAccount (keypair anchorProvider) size openbookProgramId ;;
  size <- getAccountSize "bookSide" ;;
  bids <- createAccount (keypair anchorProvider) size openbookProgramId ;;
  size <- getAccountSize "eventHeap" ;;
  eventHeap <- createAccount (keypair anchorProvider) size openbookProgramId ;;
  marketPk <- Keypair_generate ;;
  let '(marketAuthority, _tmp2) :=
    findProgramAddressSync
      [Buffer_from "Market"; toBuffer (publicKey marketPk)]
      openbookProgramId in
  let baseVault := getAssociatedTokenAddressSync baseMint marketAuthority true in
  let quoteVault := getAssociatedTokenAddressSync quoteMint marketAuthority true in
  let name :=
    ("index " ++ NilZero.string_of_int (Z.to_int index) ++ " wrt 0")%string in
  let '(eventAuthority, tmp3) :=
    findProgramAddressSync [Buffer_from "__event_authority"] openbookProgramId in
  rpc {| methods_of := program;
         preInstructions := [setComputeUnitLimit 10000000];
         instruction :=
           Methods.createMarket name
             {| confFilter := 0; maxStalenessSlots := 100 |}
             (BN 1) (BN 1) (BN 0) (BN 0) (BN 0)
             {| CreateMarket.market := publicKey marketPk;
                CreateMarket.marketAuthority := marketAuthority;
                CreateMarket.bids := bids;
                CreateMarket.asks := asks;
                CreateMarket.eventHeap := eventHeap;
                CreateMarket.payer := publicKey adminKp;
                CreateMarket.marketBaseVault := baseVault;
                CreateMarket.marketQuoteVault := quoteVault;
                CreateMarket.baseMint := baseMint;
                CreateMarket.quoteMint := quoteMint;
                CreateMarket.systemProgram := SystemProgram_programId;
                CreateMarket.tokenProgram := TOKEN_PROGRAM_ID;
                CreateMarket.associatedTokenProgram := ASSOCIATED_TOKEN_PROGRAM_ID;
                CreateMarket.oracleA := oracleAId;
                CreateMarket.oracleB := oracleBId;
                CreateMarket.collectFeeAdmin := publicKey adminKp;
                CreateMarket.openOrdersAdmin := None;
                CreateMarket.closeMarketAdmin := None;
                CreateMarket.consumeEventsAdmin := None;
                CreateMarket.eventAuthority := eventAuthority;
                CreateMarket.program := openbookProgramId |};
         signers := [adminKp; marketPk] |} ;;
  Ret {| Market.admin := Array_from (secretKey adminKp);
         Market.name := name;
         Market.bids := bids;
         Market.asks := asks;
         Market.event_heap := eventHeap;
         Market.base_mint := baseMint;
         Market.base_vault := baseVault;
         Market.market_index := index;
         Market.market_pk := publicKey marketPk;
         Market.oracle_a := oracleAId;
         Market.oracle_b := oracleBId;
         Market.quote_mint := quoteMint;
         Market.quote_vault := quoteVault;
         Market.price := price |}.

End CreateMarkets.

(** ** The OpenbookConfigurator class *)

Record OpenbookConfigurator := {
  anchorProvider : TestProvider;
  mintUtils : MintUtils;
  openbookProgramId : PublicKey;
  program : Program }.

(** The constructor; the connection it receives is the ledger. *)
Definition new_OpenbookConfigurator
    (authority : Keypair) (mintUtils : MintUtils) (openbookProgramId : PublicKey)
  : OpenbookConfigurator :=
  let anchorProvider := {| keypair := authority |} in
  {| anchorProvider := anchorProvider;
     mintUtils := mintUtils;
     openbookProgramId := openbookProgramId;
     program := {| programId := openbookProgramId; provider := anchorProvider |} |}.

Section Configurator.
Context {web3 : Web3}.
Variable this : OpenbookConfigurator.

(** [array.map((x, index) => f(x, index))], from [index] on. *)
Fixpoint map_index {A B} (f : A -> Z -> B) (index : Z) (array : list A) : list B :=
  match array with
  | [] => []
  | x :: rest => f x index :: map_index f (index + 1) rest
  end.

(** The synchronous part of [configureOpenbookV2]: it returns the
    promises of the [createMarket] calls, which [Promise.all] then
    awaits together (see [run_configureOpenbookV2]). *)
Definition configureOpenbookV2 (mints : list PublicKey)
  : Prog (list (Prog Market.t)) :=
  let quoteMint := hd_error mints in
  admin <- Keypair_generate ;;
  Ret (map_index
         (fun mint index =>
            quoteMint <- defined quoteMint ;;
            createMarket this.(program) this.(anchorProvider) this.(mintUtils)
              admin this.(openbookProgramId) mint quoteMint index)
         0 (tl mints)).

(** The loop of [configureMarketForUser], from iteration [i] on. *)
Fixpoint configureMarketForUser_loop
    (user : Keypair) (openOrdersIndexer : PublicKey)
    (i : Z) (markets : list Market.t) (openOrdersAccs : list OpenOrders.t)
  : Prog (list OpenOrders.t) :=
  match markets with
  | [] => Ret openOrdersAccs
  | market :: rest =>
      let accountIndex := BN (i + 1) in
      index_bytes <- match BN_toBuffer_le accountIndex 4 with
                     | Some b => Ret b
                     | None => Throw AssertionError
                     end ;;
      let '(openOrders, _tmp) :=
        findProgramAddressSync
          [Buffer_from "OpenOrders"; toBuffer (publicKey user); index_bytes]
          this.(openbookProgramId) in
      rpc {| methods_of := this.(program);
             preInstructions := [];
             instruction :=
               Methods.createOpenOrdersAccount "test simulator"
                 {| CreateOpenOrdersAccount.openOrdersIndexer := openOrdersIndexer;
                    CreateOpenOrdersAccount.openOrdersAccount := openOrders;
                    CreateOpenOrdersAccount.market := Market.market_pk market;
                    CreateOpenOrdersAccount.owner := publicKey user;
                    CreateOpenOrdersAccount.delegateAccount := None;
                    CreateOpenOrdersAccount.payer :=
                      publicKey (keypair this.(anchorProvider));
                    CreateOpenOrdersAccount.systemProgram := SystemProgram_programId |};
             signers := [user] |} ;;
      configureMarketForUser_loop user openOrdersIndexer (i + 1) rest
        (openOrdersAccs ++
           [{| OpenOrders.market := Market.market_pk market;
               OpenOrders.open_orders := openOrders |}])
  end.

Definition configureMarketForUser (user : Keypair) (markets : list Market.t)
  : Prog (list OpenOrders.t) :=
  let '(openOrdersIndexer, _tmp1) :=
    findProgramAddressSync
      [Buffer_from "OpenOrdersIndexer"; toBuffer (publicKey user)]
      this.(openbookProgramId) in
  rpc {| methods_of := this.(program);
         preInstructions := [];
         instruction :=
           Methods.createOpenOrdersIndexer
             {| CreateOpenOrdersIndexer.openOrdersIndexer := openOrdersIndexer;
                CreateOpenOrdersIndexer.owner := publicKey user;
                CreateOpenOrdersIndexer.payer :=
                  publicKey (keypair this.(anchorProvider));
                CreateOpenOrdersIndexer.systemProgram := SystemProgram_programId |};
         signers := [user] |} ;;
  configureMarketForUser_loop user openOrdersIndexer 0 markets [].

(** One iteration of the first loop of [fillOrderBook]. *)
Definition place_bid
    (user : User.t) (userKp : Keypair) (marketData : Market.t) (i : Z)
  : Prog unit :=
  let side := Side.bid in
  let placeOrder := PlaceOrderType.limit in
  let selfTradeBehavior := SelfTradeBehavior.decrementTake in
  let args :=
    {| PlaceOrder.side := side;
       PlaceOrder.priceLots := BN (1000 - 1 - i);
       PlaceOrder.maxBaseLots := BN 10;
       PlaceOrder.maxQuoteLotsIncludingFees := BN 1000000;
       PlaceOrder.clientOrderId := BN i;
       PlaceOrder.orderType := placeOrder;
       PlaceOrder.expiryTimestamp := U64_MAX_BN;
       PlaceOrder.selfTradeBehavior := selfTradeBehavior;
       PlaceOrder.limit := 255 |} in
  openOrders <-
    defined (at_index (User.open_orders user) (Market.market_index marketData)) ;;
  tokenData <- defined (at_index (User.token_data user) 0) ;;
  rpc {| methods_of := this.(program);
         preInstructions := [];
         instruction :=
           Methods.placeOrder args
             {| PlaceOrder.asks := Market.asks marketData;
                PlaceOrder.marketVault := Market.quote_vault marketData;
                PlaceOrder.bids := Market.bids marketData;
                PlaceOrder.eventHeap := Market.event_heap marketData;
                PlaceOrder.market := Market.market_pk marketData;
                PlaceOrder.openOrdersAccount := OpenOrders.open_orders openOrders;
                PlaceOrder.oracleA := Market.oracle_a marketData;
                PlaceOrder.oracleB := Market.oracle_b marketData;
                PlaceOrder.signer := publicKey userKp;
                PlaceOrder.userTokenAccount :=
                  Some (TokenAccountData.token_account tokenData);
                PlaceOrder.tokenProgram := TOKEN_PROGRAM_ID;
                PlaceOrder.openOrdersAdmin := None |};
         signers := [userKp] |}.

(** One iteration of the second loop. *)
Definition place_ask
    (user : User.t) (userKp : Keypair) (marketData : Market.t)
    (nbOrders : Z) (i : Z)
  : Prog unit :=
  let side := Side.ask in
  let placeOrder := PlaceOrderType.limit in
  let selfTradeBehavior := SelfTradeBehavior.decrementTake in
  let args :=
    {| PlaceOrder.side := side;
       PlaceOrder.priceLots := BN (1000 + 1 + i);
       PlaceOrder.maxBaseLots := BN 10000;
       PlaceOrder.maxQuoteLotsIncludingFees := BN 1000000;
       PlaceOrder.clientOrderId := BN (i + nbOrders + 1);
       PlaceOrder.orderType := placeOrder;
       PlaceOrder.expiryTimestamp := U64_MAX_BN;
       PlaceOrder.selfTradeBehavior := selfTradeBehavior;
       PlaceOrder.limit := 255 |} in
  openOrders <-
    defined (at_index (User.open_orders user) (Market.market_index marketData)) ;;
  rpc {| methods_of := this.(program);
         preInstructions := [];
         instruction :=
           Methods.placeOrder args
             {| PlaceOrder.asks := Market.asks marketData;
                PlaceOrder.marketVault := Market.base_vault marketData;
                PlaceOrder.bids := Market.bids marketData;
                PlaceOrder.eventHeap := Market.event_heap marketData;
                PlaceOrder.market := Market.market_pk marketData;
                PlaceOrder.openOrdersAccount := OpenOrders.open_orders openOrders;
                PlaceOrder.oracleA := Market.oracle_a marketData;
                PlaceOrder.oracleB := Market.oracle_b marketData;
                PlaceOrder.signer := publicKey userKp;
                PlaceOrder.userTokenAccount :=
                  option_map TokenAccountData.token_account
                    (hd_error
                       (filter
                          (fun x => strict_equal (TokenAccountData.mint x)
                                      (Market.base_mint marketData))
                          (User.token_data user)));
                PlaceOrder.tokenProgram := TOKEN_PROGRAM_ID;
                PlaceOrder.openOrdersAdmin := None |};
         signers := [userKp] |}.

Definition fillOrderBook
    (user : User.t) (userKp : Keypair) (marketData : Market.t) (nbOrders : Z)
  : Prog unit :=
  for_loop (Z.to_nat nbOrders) 0 (place_bid user userKp marketData) ;;
  for_loop (Z.to_nat nbOrders) 0 (place_ask user userKp marketData nbOrders).

End Configurator.

(** ** The outside world

    The ledger answers the awaited calls: it may reject a transaction or
    an allocation.  The entropy source answers [Keypair.generate()] and
    [Math.random()]. *)

Class Env := {
  Ledger : Type;
  Entropy : Type;
  ledger_getAccountInfo : Ledger -> PublicKey -> option AccountInfo;
  ledger_send : Ledger -> Transaction -> option Ledger;
  ledger_createAccount :
    Ledger -> Keypair -> Z -> PublicKey -> option (PublicKey * Ledger);
  entropy_keypair : Entropy -> Keypair * Entropy;
  entropy_random : Entropy -> JS.number * Entropy }.

Variant Outcome (A : Type) :=
| Fulfilled (a : A)
| Rejected (e : Exn).
Arguments Fulfilled {A} a.
Arguments Rejected {A} e.

Section Semantics.
Context {env : Env}.

Record World := { ledger : Ledger; entropy : Entropy }.

(** A run: its result, the world it leaves, and the transactions it
    submitted, in order, the rejected one included. *)
Record Run (R : Type) := {
  result : R;
  final : World;
  submitted : list Transaction }.
Arguments result {R} r.
Arguments final {R} r.
Arguments submitted {R} r.

(** *** One computation, each call awaited in turn *)
Fixpoint run {A} (p : Prog A) (w : World) : Run (Outcome A) :=
  match p with
  | Ret a => {| result := Fulfilled a; final := w; submitted := [] |}
  | Throw e => {| result := Rejected e; final := w; submitted := [] |}
  | GetAccountInfo address k =>
      run (k (ledger_getAccountInfo (ledger w) address)) w
  | Rpc tx k =>
      match ledger_send (ledger w) tx with
      | Some l =>
          let r := run k {| ledger := l; entropy := entropy w |} in
          {| result := result r; final := final r;
             submitted := tx :: submitted r |}
      | None =>
          {| result := Rejected (SendTransactionError tx); final := w;
             submitted := [tx] |}
      end
  | CreateAccount payer size owner k =>
      match ledger_createAccount (ledger w) payer size owner with
      | Some (address, l) =>
          run (k address) {| ledger := l; entropy := entropy w |}
      | None =>
          {| result := Rejected AllocationError; final := w; submitted := [] |}
      end
  | KeypairGenerate k =>
      let '(kp, e) := entropy_keypair (entropy w) in
      run (k kp) {| ledger := ledger w; entropy := e |}
  | MathRandom k =>
      let '(r, e) := entropy_random (entropy w) in
      run (k r) {| ledger := ledger w; entropy := e |}
  end.

(** *** Promises awaited together

      A promise runs without interruption up to its next awaited call
      ([settle]); which suspended promise is resumed next is the
      schedule's choice. *)
Fixpoint settle {A} (p : Prog A) (e : Entropy) : Prog A * Entropy :=
  match p with
  | KeypairGenerate k =>
      let '(kp, e') := entropy_keypair e in settle (k kp) e'
  | MathRandom k =>
      let '(r, e') := entropy_random e in settle (k r) e'
  | _ => (p, e)
  end.

(** Calling the async functions one after the other: each runs up to
    its first awaited call. *)
Fixpoint spawn {A} (ps : list (Prog A)) (e : Entropy)
  : list (Prog A) * Entropy :=
  match ps with
  | [] => ([], e)
  | p :: rest =>
      let '(p', e') := settle p e in
      let '(rest', e'') := spawn rest e' in
      (p' :: rest', e'')
  end.

(** The awaited call of a suspended promise completes. *)
Definition resume {A} (p : Prog A) (w : World)
  : Prog A * World * list Transaction :=
  match p with
  | GetAccountInfo address k =>
      let '(p', e) :=
        settle (k (ledger_getAccountInfo (ledger w) address)) (entropy w) in
      (p', {| ledger := ledger w; entropy := e |}, [])
  | Rpc tx k =>
      match ledger_send (ledger w) tx with
      | Some l =>
          let '(p', e) := settle k (entropy w) in
          (p', {| ledger := l; entropy := e |}, [tx])
      | None => (Throw (SendTransactionError tx), w, [tx])
      end
  | CreateAccount payer size owner k =>
      match ledger_createAccount (ledger w) payer size owner with
      | Some (address, l) =>
          let '(p', e) := settle (k address) (entropy w) in
          (p', {| ledger := l; entropy := e |}, [])
      | None => (Throw AllocationError, w, [])
      end
  | _ =>
      let '(p', e) := settle p (entropy w) in
      (p', {| ledger := ledger w; entropy := e |}, [])
  end.

Fixpoint first_rejected {A} (ps : list (Prog A)) : option Exn :=
  match ps with
  | [] => None
  | Throw e :: _ => Some e
  | _ :: rest => first_rejected rest
  end.

Fixpoint all_fulfilled {A} (ps : list (Prog A)) : option (list A) :=
  match ps with
  | [] => Some []
  | Ret a :: rest => option_map (cons a) (all_fulfilled rest)
  | _ :: _ => None
  end.

Fixpoint replace_nth {A} (i : nat) (x : A) (l : list A) : list A :=
  match l, i with
  | [], _ => []
  | _ :: rest, O => x :: rest
  | y :: rest, S i' => y :: replace_nth i' x rest
  end.

(** [await Promise.all(ps)]: rejected as soon as one promise is,
    fulfilled with all the values, in the order of [ps], once every
    promise is; [None] when the schedule ends before that.  The run
    records what has been submitted up to that moment; what the promises
    submit afterwards is followed by [run_promises] below. *)
Fixpoint Promise_all {A} (schedule : list nat) (ps : list (Prog A)) (w : World)
  : Run (option (Outcome (list A))) :=
  match first_rejected ps with
  | Some e => {| result := Some (Rejected e); final := w; submitted := [] |}
  | None =>
      match all_fulfilled ps with
      | Some values =>
          {| result := Some (Fulfilled values); final := w; submitted := [] |}
      | None =>
          match schedule with
          | [] => {| result := None; final := w; submitted := [] |}
          | i :: schedule' =>
              match nth_error ps i with
              | None => Promise_all schedule' ps w
              | Some p =>
                  let '(p', w', txs) := resume p w in
                  let r := Promise_all schedule' (replace_nth i p' ps) w' in
                  {| result := result r; final := final r;
                     submitted := txs ++ submitted r |}
              end
          end
      end
  end.

(** A rejection cancels nothing: the promises handed to [Promise.all] go
    on after it has settled.  [run_promises] resumes them in the order of
    [schedule] to the end of the schedule, whatever has been fulfilled or
    rejected on the way (a settled promise stays as it is), and records
    all they submit. *)
Fixpoint run_promises {A} (schedule : list nat) (ps : list (Prog A)) (w : World)
  : Run (list (Prog A)) :=
  match schedule with
  | [] => {| result := ps; final := w; submitted := [] |}
  | i :: schedule' =>
      match nth_error ps i with
      | None => run_promises schedule' ps w
      | Some p =>
          let '(p', w', txs) := resume p w in
          let r := run_promises schedule' (replace_nth i p' ps) w' in
          {| result := result r; final := final r;
             submitted := txs ++ submitted r |}
      end
  end.

Context {web3 : Web3}.

(** [await configurator.configureOpenbookV2(mints)] under a schedule. *)
Definition run_configureOpenbookV2
    (schedule : list nat) (this : OpenbookConfigurator)
    (mints : list PublicKey) (w : World)
  : Run (option (Outcome (list Market.t))) :=
  let r := run (configureOpenbookV2 this mints) w in
  match result r with
  | Fulfilled promises =>
      let '(ps, e) := spawn promises (entropy (final r)) in
      Promise_all schedule ps {| ledger := ledger (final r); entropy := e |}
  | Rejected e =>
      {| result := Some (Rejected e); final := final r;
         submitted := submitted r |}
  end.

(** The [createMarket] calls that [configurator.configureOpenbookV2(mints)]
    starts, followed under a schedule past the moment the awaited
    [Promise.all] settles. *)
Definition run_configureOpenbookV2_calls
    (schedule : list nat) (this : OpenbookConfigurator)
    (mints : list PublicKey) (w : World)
  : Run (list (Prog Market.t)) :=
  let r := run (configureOpenbookV2 this mints) w in
  match result r with
  | Fulfilled promises =>
      let '(ps, e) := spawn promises (entropy (final r)) in
      run_promises schedule ps {| ledger := ledger (final r); entropy := e |}
  | Rejected e =>
      {| result := []; final := final r; submitted := submitted r |}
  end.

End Semantics.

Arguments result {env R} r.
Arguments final {env R} r.
Arguments submitted {env R} r.

(** ** Reading a run *)

(** Every value a computation can return satisfies [P]. *)
Fixpoint returns_only {A} (P : A -> Prop) (p : Prog A) : Prop :=
  match p with
  | Ret a => P a
  | Throw _ => True
  | GetAccountInfo _ k => forall r, returns_only P (k r)
  | Rpc _ k => returns_only P k
  | CreateAccount _ _ _ k => forall r, returns_only P (k r)
  | KeypairGenerate k => forall r, returns_only P (k r)
  | MathRandom k => forall r, returns_only P (k r)
  end.

(** Every transaction a computation can submit satisfies [Q]. *)
Fixpoint submits_only {A} (Q : Transaction -> Prop) (p : Prog A) : Prop :=
  match p with
  | Ret _ => True
  | Throw _ => True
  | GetAccountInfo _ k => forall r, submits_only Q (k r)
  | Rpc tx k => Q tx /\ submits_only Q k
  | CreateAccount _ _ _ k => forall r, submits_only Q (k r)
  | KeypairGenerate k => forall r, submits_only Q (k r)
  | MathRandom k => forall r, submits_only Q (k r)
  end.

(** A computation raises nothing by itself and makes at most [n]
    interactions. *)
Fixpoint within {A} (n : nat) (p : Prog A) {struct p} : Prop :=
  match p with
  | Ret _ => True
  | Throw _ => False
  | GetAccountInfo _ k =>
      match n with O => False | S n' => forall r, within n' (k r) end
  | Rpc _ k =>
      match n with O => False | S n' => within n' k end
  | CreateAccount _ _ _ k =>
      match n with O => False | S n' => forall r, within n' (k r) end
  | KeypairGenerate k =>
      match n with O => False | S n' => forall r, within n' (k r) end
  | MathRandom k =>
      match n with O => False | S n' => forall r, within n' (k r) end
  end.

(** Every run that returns [a], having submitted [txs], satisfies
    [P txs a]. *)
Fixpoint yields {A} (P : list Transaction -> A -> Prop) (p : Prog A) : Prop :=
  match p with
  | Ret a => P [] a
  | Throw _ => True
  | GetAccountInfo _ k => forall r, yields P (k r)
  | Rpc tx k => yields (fun txs => P (tx :: txs)) k
  | CreateAccount _ _ _ k => forall r, yields P (k r)
  | KeypairGenerate k => forall r, yields P (k r)
  | MathRandom k => forall r, yields P (k r)
  end.

(** A ledger that accepts every transaction and every allocation. *)
Class Cooperative (env : Env) : Prop := {
  accepts_send : forall l tx, ledger_send l tx <> None;
  accepts_createAccount :
    forall l payer size owner, ledger_createAccount l payer size owner <> None }.

(** An interface description that declares the two account types whose
    sizes [createMarket] asks for. *)
Definition declares {web3 : Web3} (name : string) : Prop :=
  exists size, getAccountSize name = Ret size.

Class Declared (web3 : Web3) : Prop := {
  declares_bookSide : declares "bookSide";
  declares_eventHeap : declares "eventHeap" }.

(** A ledger on which accounts stay: creating an oracle leaves an account
    at its address, and no accepted call removes an account. *)
Class Persistent (env : Env) : Prop := {
  oracle_created :
    forall l tx l' price accs,
      ledger_send l tx = Some l' ->
      instruction tx = Methods.stubOracleCreate price accs ->
      ledger_getAccountInfo l' (StubOracleCreate.oracle accs) <> None;
  send_keeps :
    forall l tx l' a,
      ledger_send l tx = Some l' ->
      ledger_getAccountInfo l a <> None -> ledger_getAccountInfo l' a <> None;
  createAccount_keeps :
    forall l payer size owner address l' a,
      ledger_createAccount l payer size owner = Some (address, l') ->
      ledger_getAccountInfo l a <> None -> ledger_getAccountInfo l' a <> None }.

(** A ledger on which an indexer is initialised once: creating it leaves
    an account at its address, accounts stay, and creating it again is
    rejected. *)
Class InitialisesOnce (env : Env) : Prop := {
  indexer_created :
    forall l tx l' accs,
      ledger_send l tx = Some l' ->
      instruction tx = Methods.createOpenOrdersIndexer accs ->
      ledger_getAccountInfo l'
        (CreateOpenOrdersIndexer.openOrdersIndexer accs) <> None;
  indexer_kept :
    forall l tx l' a,
      ledger_send l tx = Some l' ->
      ledger_getAccountInfo l a <> None -> ledger_getAccountInfo l' a <> None;
  indexer_rejected :
    forall l tx accs,
      instruction tx = Methods.createOpenOrdersIndexer accs ->
      ledger_getAccountInfo l
        (CreateOpenOrdersIndexer.openOrdersIndexer accs) <> None ->
      ledger_send l tx = None }.

(** A ledger on which an oracle is initialised once, as the program does
    it: the creation of an oracle is accepted when its address holds no
    account and rejected when it holds one; it leaves an account at that
    address and the other addresses as they were. *)
Class OracleInitialisedOnce (env : Env) : Prop := {
  oracle_accepted :
    forall l tx price accs,
      instruction tx = Methods.stubOracleCreate price accs ->
      ledger_getAccountInfo l (StubOracleCreate.oracle accs) = None ->
      ledger_send l tx <> None;
  oracle_rejected :
    forall l tx price accs,
      instruction tx = Methods.stubOracleCreate price accs ->
      ledger_getAccountInfo l (StubOracleCreate.oracle accs) <> None ->
      ledger_send l tx = None;
  oracle_initialised :
    forall l tx l' price accs,
      ledger_send l tx = Some l' ->
      instruction tx = Methods.stubOracleCreate price accs ->
      ledger_getAccountInfo l' (StubOracleCreate.oracle accs) <> None;
  oracle_only :
    forall l tx l' price accs a,
      ledger_send l tx = Some l' ->
      instruction tx = Methods.stubOracleCreate price accs ->
      equals (StubOracleCreate.oracle accs) a = false ->
      ledger_getAccountInfo l a = None ->
      ledger_getAccountInfo l' a = None }.

(** The instructions that touch an oracle. *)
Definition creates_oracle (a : PublicKey) (tx : Transaction) : bool :=
  match instruction tx with
  | Methods.stubOracleCreate _ accs => PublicKey_eqb (StubOracleCreate.oracle accs) a
  | _ => false
  end.

Definition sets_oracle (a : PublicKey) (tx : Transaction) : bool :=
  match instruction tx with
  | Methods.stubOracleSet _ accs => PublicKey_eqb (StubOracleSet.oracle accs) a
  | _ => false
  end.

Definition is_oracle_instruction (tx : Transaction) : bool :=
  match instruction tx with
  | Methods.stubOracleCreate _ _ | Methods.stubOracleSet _ _ => true
  | _ => false
  end.

Definition count (f : Transaction -> bool) (txs : list Transaction) : nat :=
  List.length (filter f txs).

(** The instruction that creates a market. *)
Definition is_create_market (tx : Transaction) : bool :=
  match instruction tx with
  | Methods.createMarket _ _ _ _ _ _ _ _ => true
  | _ => false
  end.

(** The promises [ps] can be resumed in an order that ends in the
    rejection of a creation of the oracle at [B], after submissions that
    satisfy [P]. *)
Definition loses_race {env : Env} (B : PublicKey) (P : list Transaction -> Prop)
    {A} (ps : list (Prog A)) (w : World) : Prop :=
  exists schedule tx,
    result (Promise_all schedule ps w) = Some (Rejected (SendTransactionError tx)) /\
    creates_oracle B tx = true /\
    P (submitted (Promise_all schedule ps w)).

(** The little-endian value of a buffer. *)
Fixpoint le_value (b : Buffer) : Z :=
  match b with
  | [] => 0
  | x :: b' => Z.of_N (Byte.to_N x) + 256 * le_value b'
  end.

(** ** A mock ledger

    Addresses are short byte strings; derivation concatenates the seeds.
    The ledger is the list of the addresses that hold an account, with a
    counter for allocations.  The [strict] ledger rejects the creation of
    an account that exists, as the program does; the lenient one accepts
    everything. *)
Module Mock.

Definition address (obj : nat) (bytes : list Z) : PublicKey :=
  {| pk_obj := obj; toBytes := map byte_of_Z bytes |}.

Definition keypair_of (obj : nat) (n : Z) : Keypair :=
  {| publicKey := address obj [75; n]; secretKey := map byte_of_Z [83; n; n] |}.

#[global] Instance web3 : Web3 := {|
  findProgramAddressSync := fun seeds programId =>
    ({| pk_obj := 0; toBytes := List.concat seeds ++ toBytes programId |}, 255);
  getAssociatedTokenAddressSync := fun mint owner _ =>
    {| pk_obj := 0; toBytes := toBytes mint ++ toBytes owner |};
  SystemProgram_programId := address 1 [1];
  TOKEN_PROGRAM_ID := address 2 [2];
  ASSOCIATED_TOKEN_PROGRAM_ID := address 3 [3];
  IDL_accounts :=
    [ {| idl_name := "market" |}; {| idl_name := "bookSide" |};
      {| idl_name := "eventHeap" |} ];
  BorshAccountsCoder_size := fun d =>
    if String.eqb (idl_name d) "bookSide" then 90952 else 91288;
  Number_toString := fun _ => EmptyString |}.

Record ledger_state := { existing : list Buffer; allocated : nat }.

Definition exists_at (l : ledger_state) (a : PublicKey) : bool :=
  existsb (Buffer_eqb (toBytes a)) (existing l).

Definition create (strict : bool) (l : ledger_state) (a : PublicKey)
  : option ledger_state :=
  if exists_at l a then (if strict then None else Some l)
  else Some {| existing := toBytes a :: existing l; allocated := allocated l |}.

Definition send (strict : bool) (l : ledger_state) (tx : Transaction)
  : option ledger_state :=
  match instruction tx with
  | Methods.stubOracleCreate _ accs =>
      create strict l (StubOracleCreate.oracle accs)
  | Methods.createMarket _ _ _ _ _ _ _ accs =>
      create strict l (CreateMarket.market accs)
  | Methods.createOpenOrdersIndexer accs =>
      create strict l (CreateOpenOrdersIndexer.openOrdersIndexer accs)
  | Methods.createOpenOrdersAccount _ accs =>
      create strict l (CreateOpenOrdersAccount.openOrdersAccount accs)
  | _ => Some l
  end.

Definition world (strict : bool) : Env := {|
  Ledger := ledger_state;
  Entropy := nat;
  ledger_getAccountInfo := fun l a =>
    if exists_at l a then Some (Build_AccountInfo 1 []) else None;
  ledger_send := send strict;
  ledger_createAccount := fun l payer size owner =>
    let a := address (100 + allocated l) [65; Z.of_nat (allocated l)] in
    Some (a, {| existing := toBytes a :: existing l;
                allocated := S (allocated l) |});
  entropy_keypair := fun n => (keypair_of (200 + n) (Z.of_nat n), S n);
  entropy_random := fun n =>
    (S754_finite false (2 ^ 52 + Pos.of_nat n) (-53), S n) |}.

Definition lenient : Env := world false.
Definition strict : Env := world true.

Definition start {env : Env} (l : Ledger) (e : Entropy) : World :=
  {| ledger := l; entropy := e |}.

Definition fresh : ledger_state := {| existing := []; allocated := 0 |}.

(** The worlds the examples start in: nothing on the ledger yet. *)
Definition initial : @World lenient := @start lenient fresh 0%nat.
Definition initial_strict : @World strict := @start strict fresh 0%nat.

Definition authority : Keypair := keypair_of 10 10.
Definition openbook : PublicKey := address 11 [80].
Definition configurator : OpenbookConfigurator :=
  new_OpenbookConfigurator authority Build_MintUtils openbook.

Definition usdc : PublicKey := address 20 [20].
Definition sol : PublicKey := address 21 [21].
Definition eth : PublicKey := address 22 [22].

Definition alice : Keypair := keypair_of 30 30.
Definition other_admin : Keypair := keypair_of 31 31.

(** A market on [sol] against [usdc], and a user whose second token
  account is for the mint at the address of [sol], held as another
  object, as it is after the user was read back from a file. *)
Definition sol_market : Market.t :=
  {| Market.name := "index 0 wrt 0";
     Market.admin := Array_from (secretKey authority);
     Market.market_pk := address 40 [40];
     Market.oracle_a := address 41 [41];
     Market.oracle_b := address 42 [42];
     Market.asks := address 43 [43];
     Market.bids := address 44 [44];
     Market.event_heap := address 45 [45];
     Market.base_vault := address 46 [46];
     Market.quote_vault := address 47 [47];
     Market.base_mint := sol;
     Market.quote_mint := usdc;
     Market.market_index := 0;
     Market.price := JS.of_Z 600 |}.

Definition handle : OpenOrders.t :=
  {| OpenOrders.market := address 40 [40];
     OpenOrders.open_orders := address 60 [60] |}.

Definition other_handle : OpenOrders.t :=
  {| OpenOrders.market := address 48 [48];
     OpenOrders.open_orders := address 60 [60] |}.

Definition bob : User.t :=
  {| User.token_data :=
       [ {| TokenAccountData.mint := usdc;
            TokenAccountData.token_account := address 50 [50] |};
         {| TokenAccountData.mint := sol;
            TokenAccountData.token_account := address 51 [51] |} ];
     User.open_orders := [handle] |}.

(** The same user with a handle filed under another market. *)
Definition bob_misfiled : User.t :=
  {| User.token_data := User.token_data bob;
     User.open_orders := [other_handle] |}.

Definition bob_reloaded : User.t :=
  {| User.token_data :=
       [ {| TokenAccountData.mint := usdc;
            TokenAccountData.token_account := address 50 [50] |};
         {| TokenAccountData.mint := address 99 [21];
            TokenAccountData.token_account := address 51 [51] |} ];
     User.open_orders := [handle] |}.


(** The libraries with an interface description that lacks the event
    heap. *)
Definition web3_without_eventHeap : Web3 := {|
  findProgramAddressSync := @findProgramAddressSync web3;
  getAssociatedTokenAddressSync := @getAssociatedTokenAddressSync web3;
  SystemProgram_programId := @SystemProgram_programId web3;
  TOKEN_PROGRAM_ID := @TOKEN_PROGRAM_ID web3;
  ASSOCIATED_TOKEN_PROGRAM_ID := @ASSOCIATED_TOKEN_PROGRAM_ID web3;
  IDL_accounts := [ {| idl_name := "market" |}; {| idl_name := "bookSide" |} ];
  BorshAccountsCoder_size := @BorshAccountsCoder_size web3;
  Number_toString := @Number_toString web3 |}.

(** A user who was never registered. *)
Definition carol : User.t :=
  {| User.token_data := User.token_data bob; User.open_orders := [] |}.

(** Two concurrent [createMarket] calls resumed in turn, and one after
    the other. *)
Definition in_turn : list nat := flat_map (fun _ => [0%nat; 1%nat]) (seq 0 12).
Definition one_by_one : list nat := repeat 0%nat 12 ++ repeat 1%nat 12.

End Mock.

(** ** Vocabulary of the market factory *)

(** The keypair [Keypair.generate()] hands to a [createMarket] that starts
    in world [w]: the draw that follows the one of [Math.random()]. *)
Definition market_identity {env : Env} (w : World) : Keypair :=
  fst (entropy_keypair (snd (entropy_random (entropy w)))).

(** [tx] is the create-market transaction of the market whose identity is
    [identity]. *)
Definition creates_market_as (identity : Keypair) (tx : Transaction) : Prop :=
  exists name config quoteLot baseLot maker taker expiry accs,
    instruction tx =
      Methods.createMarket name config quoteLot baseLot maker taker expiry accs /\
    CreateMarket.market accs = publicKey identity.

(** The oracle address of an (admin, mint) pair. *)
Definition oracle_address {web3 : Web3} (admin : Keypair) (mint programId : PublicKey)
  : PublicKey :=
  fst (findProgramAddressSync
         [Buffer_from "StubOracle"; toBytes (publicKey admin); toBytes mint]
         programId).

(** The oracle account an oracle instruction names. *)
Definition oracle_of (tx : Transaction) : option PublicKey :=
  match instruction tx with
  | Methods.stubOracleCreate _ accs => Some (StubOracleCreate.oracle accs)
  | Methods.stubOracleSet _ accs => Some (StubOracleSet.oracle accs)
  | _ => None
  end.

(** The market authority of a market: the address derived from the seeds
    ("Market", market address). *)
Definition market_authority {web3 : Web3} (market_pk programId : PublicKey)
  : PublicKey :=
  fst (findProgramAddressSync [Buffer_from "Market"; toBuffer market_pk] programId).

Definition event_authority {web3 : Web3} (programId : PublicKey) : PublicKey :=
  fst (findProgramAddressSync [Buffer_from "__event_authority"] programId).

(** The accounts of a create-market instruction are those the descriptor
    [m] records. *)
Definition describes (m : Market.t) (accs : CreateMarket.accounts) : Prop :=
  CreateMarket.market accs = Market.market_pk m /\
  CreateMarket.bids accs = Market.bids m /\
  CreateMarket.asks accs = Market.asks m /\
  CreateMarket.eventHeap accs = Market.event_heap m /\
  CreateMarket.marketBaseVault accs = Market.base_vault m /\
  CreateMarket.marketQuoteVault accs = Market.quote_vault m /\
  CreateMarket.baseMint accs = Market.base_mint m /\
  CreateMarket.quoteMint accs = Market.quote_mint m /\
  CreateMarket.oracleA accs = Market.oracle_a m /\
  CreateMarket.oracleB accs = Market.oracle_b m.

(** ** Vocabulary of the registrar and of the filler *)

(** The indexer address of a user. *)
Definition indexer_address {web3 : Web3} (user : Keypair) (programId : PublicKey)
  : PublicKey :=
  fst (findProgramAddressSync
         [Buffer_from "OpenOrdersIndexer"; toBuffer (publicKey user)] programId).

(** The address of the user's order-tracking account number [accountIndex]:
    the index enters the seeds as 4 little-endian bytes. *)
Definition open_orders_address {web3 : Web3}
    (user : Keypair) (accountIndex : Z) (programId : PublicKey) : PublicKey :=
  fst (findProgramAddressSync
         [Buffer_from "OpenOrders"; toBuffer (publicKey user);
          le_bytes 4 accountIndex]
         programId).

(** The order a transaction places, if it places one. *)
Definition order_of (tx : Transaction) : option PlaceOrder.args :=
  match instruction tx with
  | Methods.placeOrder args _ => Some args
  | _ => None
  end.

(** The integers [start], [start + 1], ..., [count] of them. *)
Definition Zrange (start : Z) (count : nat) : list Z :=
  map (fun k => start + Z.of_nat k) (seq 0 count).

Arguments le_bytes : simpl never.
Arguments le_value : simpl never.
Arguments JS.of_Z : simpl never.
Arguments JS.parseFloat : simpl never.
Arguments JS.toFixed : simpl never.
Arguments JS.add : simpl never.
Arguments JS.mul : simpl never.
Arguments JS.Math_floor : simpl never.

(** * Properties *)

(** ** Equality tests *)

Lemma Buffer_eqb_eq (a b : Buffer) : Buffer_eqb a b = true <-> a = b.
Proof.
  revert b; induction a as [|x a IH]; intros [|y b]; simpl;
    try (split; [discriminate | discriminate]); try tauto.
  rewrite andb_true_iff, IH.
  split.
  - intros [H ->]; apply Byte.byte_dec_bl in H; subst; reflexivity.
  - intros H; inversion H; subst; split; [apply Byte.byte_dec_lb|]; reflexivity.
Qed.

Lemma PublicKey_eqb_eq (a b : PublicKey) : PublicKey_eqb a b = true <-> a = b.
Proof.
  unfold PublicKey_eqb, strict_equal, equals.
  rewrite andb_true_iff, Nat.eqb_eq, Buffer_eqb_eq.
  destruct a, b; simpl; split;
    [intros [-> ->]; reflexivity | intros H; inversion H; auto].
Qed.

Lemma PublicKey_eqb_refl (a : PublicKey) : PublicKey_eqb a a = true.
Proof. apply PublicKey_eqb_eq; reflexivity. Qed.

Lemma PublicKey_eqb_neq (a b : PublicKey) : a <> b -> PublicKey_eqb a b = false.
Proof.
  intros H; destruct (PublicKey_eqb a b) eqn:E; [|reflexivity].
  apply PublicKey_eqb_eq in E; contradiction.
Qed.

(** ** Runs of composed computations *)

Section RunLemmas.
Context {env : Env}.

Lemma run_bind {A B} (p : Prog A) (f : A -> Prog B) (w : World) :
    run (bind p f) w =
    match result (run p w) with
    | Fulfilled a =>
        let r := run (f a) (final (run p w)) in
        {| result := result r; final := final r;
           submitted := submitted (run p w) ++ submitted r |}
    | Rejected e =>
        {| result := Rejected e; final := final (run p w);
           submitted := submitted (run p w) |}
    end.
  Proof.
    revert w; induction p as [a|e|address k IH|tx k IH|payer size owner k IH|k IH|k IH];
      intros w; simpl.
    - destruct (run (f a) w); reflexivity.
    - reflexivity.
    - apply IH.
    - destruct (ledger_send (ledger w) tx) as [l|]; simpl; [|reflexivity].
      rewrite IH. destruct (result (run k _)); reflexivity.
    - destruct (ledger_createAccount (ledger w) payer size owner) as [[a l]|];
        simpl; [apply IH | reflexivity].
    - destruct (entropy_keypair (entropy w)) as [kp e]; apply IH.
    - destruct (entropy_random (entropy w)) as [r e]; apply IH.
  Qed.

Lemma run_returns_only {A} (P : A -> Prop) (p : Prog A) (w : World) (a : A) :
    returns_only P p -> result (run p w) = Fulfilled a -> P a.
  Proof.
    revert w; induction p as [b|e|address k IH|tx k IH|payer size owner k IH|k IH|k IH];
      intros w; simpl; intros HP Hr.
    - inversion Hr; subst; exact HP.
    - discriminate.
    - eapply IH; eauto.
    - destruct (ledger_send (ledger w) tx) as [l|]; simpl in Hr;
        [eapply IH; eauto | discriminate].
    - destruct (ledger_createAccount (ledger w) payer size owner) as [[b l]|];
        simpl in Hr; [eapply IH; eauto | discriminate].
    - destruct (entropy_keypair (entropy w)) as [kp e]; eapply IH; eauto.
    - destruct (entropy_random (entropy w)) as [r e]; eapply IH; eauto.
  Qed.

Lemma run_submits_only {A} (Q : Transaction -> Prop) (p : Prog A) (w : World) :
    submits_only Q p -> Forall Q (submitted (run p w)).
  Proof.
    revert w; induction p as [b|e|address k IH|tx k IH|payer size owner k IH|k IH|k IH];
      intros w; simpl; intros HQ.
    - constructor.
    - constructor.
    - apply IH, HQ.
    - destruct HQ as [Htx Hk].
      destruct (ledger_send (ledger w) tx) as [l|]; simpl.
      + constructor; [exact Htx | apply IH, Hk].
      + constructor; [exact Htx | constructor].
    - destruct (ledger_createAccount (ledger w) payer size owner) as [[b l]|];
        simpl; [apply IH, HQ | constructor].
    - destruct (entropy_keypair (entropy w)) as [kp e]; apply IH, HQ.
    - destruct (entropy_random (entropy w)) as [r e]; apply IH, HQ.
  Qed.

Lemma run_within {A} (n : nat) (p : Prog A) (w : World) :
    Cooperative env -> within n p -> exists a, result (run p w) = Fulfilled a.
  Proof.
    intros Hc.
    revert n w; induction p as [b|e|address k IH|tx k IH|payer size owner k IH|k IH|k IH];
      intros n w; simpl; intros Hn.
    - eauto.
    - contradiction.
    - destruct n; [contradiction | eapply IH, Hn].
    - destruct n; [contradiction|].
      destruct (ledger_send (ledger w) tx) as [l|] eqn:E;
        [simpl; eapply IH, Hn | exfalso; eapply accepts_send, E].
    - destruct n; [contradiction|].
      destruct (ledger_createAccount (ledger w) payer size owner) as [[b l]|] eqn:E;
        [simpl; eapply IH, Hn | exfalso; eapply accepts_createAccount, E].
    - destruct n; [contradiction|].
      destruct (entropy_keypair (entropy w)) as [kp e]; eapply IH, Hn.
    - destruct n; [contradiction|].
      destruct (entropy_random (entropy w)) as [r e]; eapply IH, Hn.
  Qed.

End RunLemmas.

(** ** Composition of the readings *)

Lemma returns_only_bind {A B} (P : B -> Prop) (p : Prog A) (f : A -> Prog B) :
  returns_only (fun a => returns_only P (f a)) p -> returns_only P (bind p f).
Proof. induction p; simpl; auto. Qed.

Lemma submits_only_bind {A B} (Q : Transaction -> Prop) (p : Prog A) (f : A -> Prog B) :
  submits_only Q p -> (forall a, submits_only Q (f a)) -> submits_only Q (bind p f).
Proof. induction p; simpl; intuition auto. Qed.

Lemma within_S {A} (n : nat) (p : Prog A) : within n p -> within (S n) p.
Proof.
  revert n; induction p; intros n; simpl; auto; destruct n; try contradiction; auto.
Qed.

Lemma within_le {A} (n m : nat) (p : Prog A) : (n <= m)%nat -> within n p -> within m p.
Proof. induction 1; auto using within_S. Qed.

Lemma within_bind {A B} (n m : nat) (p : Prog A) (f : A -> Prog B) :
  within n p -> (forall a, within m (f a)) -> within (n + m) (bind p f).
Proof.
  intros Hp Hf; revert n Hp; induction p; intros n Hp; simpl in *;
    try contradiction; try (destruct n; [contradiction|]; simpl; auto).
  apply within_le with m; [lia | apply Hf].
Qed.

(** ** Counting submitted instructions *)

Lemma Some_not_None {T} (o : option T) (x : T) : o = Some x -> o <> None.
Proof. congruence. Qed.

Lemma count_app (f : Transaction -> bool) (l1 l2 : list Transaction) :
  count f (l1 ++ l2) = (count f l1 + count f l2)%nat.
Proof. unfold count; rewrite filter_app, length_app; reflexivity. Qed.

Lemma count_cons (f : Transaction -> bool) (x : Transaction) (l : list Transaction) :
  count f (x :: l) = ((if f x then 1 else 0) + count f l)%nat.
Proof. unfold count; simpl; destruct (f x); reflexivity. Qed.

Lemma count_no_oracle (a : PublicKey) (rest : list Transaction) :
  Forall (fun tx => is_oracle_instruction tx = false) rest ->
  count (creates_oracle a) rest = 0%nat /\ count (sets_oracle a) rest = 0%nat.
Proof.
  induction 1 as [|tx rest Htx _ [IH1 IH2]]; [split; reflexivity|].
  rewrite !count_cons, IH1, IH2.
  unfold is_oracle_instruction, creates_oracle, sets_oracle in *.
  destruct (instruction tx); try discriminate; split; reflexivity.
Qed.

Lemma creates_oracle_inv (a : PublicKey) (c : Transaction) :
  creates_oracle a c = true ->
  (exists price accs, instruction c = Methods.stubOracleCreate price accs /\
                      StubOracleCreate.oracle accs = a) /\
  forall x, sets_oracle x c = false /\ creates_oracle x c = PublicKey_eqb a x.
Proof.
  unfold creates_oracle, sets_oracle.
  destruct (instruction c); try discriminate.
  intros H; apply PublicKey_eqb_eq in H; subst; split; eauto.
Qed.

Lemma sets_oracle_inv (a : PublicKey) (c : Transaction) :
  sets_oracle a c = true ->
  forall x, creates_oracle x c = false /\ sets_oracle x c = PublicKey_eqb a x.
Proof.
  unfold creates_oracle, sets_oracle.
  destruct (instruction c); try discriminate.
  intros H; apply PublicKey_eqb_eq in H; subst; eauto.
Qed.

(** ** The market factory *)

Section SizeLookup.
Context {web3 : Web3}.

Lemma getAccountSize_cases (name : string) :
  (exists size, getAccountSize name = Ret size) \/ getAccountSize name = Throw TypeError.
Proof. unfold getAccountSize; destruct (hd_error _); simpl; eauto. Qed.

End SizeLookup.

Ltac open_createMarket :=
  unfold createMarket, reference_price, getRandomInt, oracle_address;
  repeat match goal with
  | |- context [findProgramAddressSync ?s ?p] =>
      let E := fresh "Epda" in destruct (findProgramAddressSync s p) as [? ?] eqn:E
  | |- context [getAccountSize ?n] =>
      let E := fresh "Esize" in
      destruct (getAccountSize_cases n) as [[? E]|E]; rewrite E
  end.

Ltac split_matches :=
  repeat match goal with
  | |- context [match ?x with _ => _ end] => destruct x; simpl; intros
  end.

Ltac run_next Hc :=
  match goal with
  | H : entropy_random ?e = _ |- context [entropy_random ?e] => rewrite H
  | H : entropy_keypair ?e = _ |- context [entropy_keypair ?e] => rewrite H
  | H : ledger_getAccountInfo ?l ?a = _ |- context [ledger_getAccountInfo ?l ?a] =>
      rewrite H
  | H : findProgramAddressSync ?s ?p = _ |- context [findProgramAddressSync ?s ?p] =>
      rewrite H
  | |- context [entropy_random ?e] =>
      destruct (entropy_random e) as [? ?] eqn:?
  | |- context [entropy_keypair ?e] =>
      destruct (entropy_keypair e) as [? ?] eqn:?
  | |- context [ledger_send ?l ?tx] =>
      let E := fresh "Esend" in
      destruct (ledger_send l tx) as [?|] eqn:E;
      [| exfalso; exact (@accepts_send _ Hc _ _ E)]
  | |- context [ledger_createAccount ?l ?p ?s ?o] =>
      let E := fresh "Ealloc" in
      destruct (ledger_createAccount l p s o) as [[? ?]|] eqn:E;
      [| exfalso; exact (@accepts_createAccount _ Hc _ _ _ _ E)]
  | |- context [findProgramAddressSync ?s ?p] =>
      destruct (findProgramAddressSync s p) as [? ?] eqn:?
  end; simpl.

Ltac run_info :=
  match goal with
  | |- context [ledger_getAccountInfo ?l ?a] =>
      destruct (ledger_getAccountInfo l a) eqn:?; simpl
  end.

Ltac learn H :=
  let T := type of H in
  lazymatch goal with
  | _ : T |- _ => fail
  | _ => pose proof H
  end.

Ltac keep_accounts Hp :=
  repeat match goal with
  | Hs : ledger_send ?l ?tx = Some ?l',
    Hi : ledger_getAccountInfo ?l ?a <> None |- _ =>
      learn (@send_keeps _ Hp l tx l' a Hs Hi)
  | Hs : ledger_createAccount ?l ?p ?s ?o = Some (?b, ?l'),
    Hi : ledger_getAccountInfo ?l ?a <> None |- _ =>
      learn (@createAccount_keeps _ Hp l p s o b l' a Hs Hi)
  | Hs : ledger_send ?l {| methods_of := _;
                           preInstructions := _;
                           instruction := Methods.stubOracleCreate ?pr ?accs;
                           signers := _ |} = Some ?l' |- _ =>
      learn (@oracle_created _ Hp l _ l' pr accs Hs eq_refl)
  | Hi : ledger_getAccountInfo ?l ?a = Some _ |- _ =>
      learn (Some_not_None _ _ Hi)
  end.


Ltac shape_done :=
  simpl; unfold sets_oracle, creates_oracle; simpl;
  repeat (simpl; match goal with
  | |- _ /\ _ => split
  | |- exists _, _ => eexists
  | |- Forall _ _ => constructor
  | |- PublicKey_eqb ?a ?a = true => apply PublicKey_eqb_refl
  | |- _ = _ => first [reflexivity | eassumption]
  end).

Section MarketFactory.
Context {web3 : Web3} {env : Env}.
Variables (program : Program) (anchorProvider : TestProvider) (mintUtils : MintUtils).
Variables (openbookProgramId baseMint quoteMint : PublicKey).

Lemma createMarket_within (adminKp : Keypair) (index : Z) :
  Declared web3 ->
  within 12 (createMarket program anchorProvider mintUtils adminKp
               openbookProgramId baseMint quoteMint index).
Proof.
  intros [[sb Hb] [se He]].
  unfold createMarket, reference_price, getRandomInt.
  rewrite Hb, He.
  repeat match goal with
  | |- context [findProgramAddressSync ?s ?p] =>
      destruct (findProgramAddressSync s p) as [? ?]
  end.
  simpl; intros. split_matches; auto.
Qed.


Lemma createMarket_returns (adminKp : Keypair) (index : Z) :
  returns_only
    (fun m =>
       Market.market_index m = index /\
       Market.base_mint m = baseMint /\
       Market.quote_mint m = quoteMint /\
       Market.admin m = Array_from (secretKey (keypair anchorProvider)) /\
       Market.oracle_a m =
         oracle_address (keypair anchorProvider) baseMint openbookProgramId /\
       Market.oracle_b m =
         oracle_address (keypair anchorProvider) quoteMint openbookProgramId)
    (createMarket program anchorProvider mintUtils adminKp
       openbookProgramId baseMint quoteMint index).
Proof.
  open_createMarket; simpl; intros; split_matches; auto 10.
Qed.

(** A [createMarket] that returns has submitted one create-market
    instruction, for the market its descriptor records. *)
Lemma createMarket_creates_its_market (adminKp : Keypair) (index : Z) :
  yields
    (fun txs m =>
       count is_create_market txs = 1%nat /\
       exists tx accs,
         In tx txs /\
         instruction tx =
           Methods.createMarket (Market.name m)
             {| confFilter := 0; maxStalenessSlots := 100 |} 1 1 0 0 0 accs /\
         describes m accs)
    (createMarket program anchorProvider mintUtils adminKp
       openbookProgramId baseMint quoteMint index).
Proof.
  open_createMarket; simpl; intros; split_matches; auto;
    (split; [reflexivity|]);
    eexists (Build_Transaction _ _ (Methods.createMarket _ _ _ _ _ _ _ _) _);
    eexists;
    (split; [simpl; repeat (first [left; reflexivity | right])|]);
    (split; [reflexivity|]);
    unfold describes; simpl; repeat split.
Qed.

Lemma createMarket_submits (adminKp : Keypair) (index : Z) :
  submits_only
    (fun tx =>
       is_oracle_instruction tx = true ->
       signers tx = [keypair anchorProvider] /\
       (oracle_of tx =
          Some (oracle_address (keypair anchorProvider) baseMint openbookProgramId) \/
        oracle_of tx =
          Some (oracle_address (keypair anchorProvider) quoteMint openbookProgramId)))
    (createMarket program anchorProvider mintUtils adminKp
       openbookProgramId baseMint quoteMint index).
Proof.
  open_createMarket;
    repeat (simpl; intros;
            match goal with
            | |- context [match ?x with _ => _ end] => destruct x
            | |- _ /\ _ => split
            end);
    auto; discriminate.
Qed.

Lemma createMarket_ignores_adminKp (adminKp adminKp' : Keypair) (index : Z) :
  createMarket program anchorProvider mintUtils adminKp
    openbookProgramId baseMint quoteMint index =
  createMarket program anchorProvider mintUtils adminKp'
    openbookProgramId baseMint quoteMint index.
Proof. reflexivity. Qed.


(** C1 (as amended).  The descriptor's [admin] field holds the secret key
    of the provider's payer keypair, the key that signs as admin.  The
    one-time market identity gives the descriptor its [market_pk] only,
    and signs the create-market transaction next to the payer. *)
Theorem createMarket_admin_is_payer_secret (adminKp : Keypair) (index : Z) (w : World) :
  Cooperative env -> Declared web3 ->
  let r := run (createMarket program anchorProvider mintUtils adminKp
                  openbookProgramId baseMint quoteMint index) w in
  exists m tx,
    result r = Fulfilled m /\
    Market.admin m = Array_from (secretKey (keypair anchorProvider)) /\
    Market.market_pk m = publicKey (market_identity w) /\
    In tx (submitted r) /\
    creates_market_as (market_identity w) tx /\
    signers tx = [keypair anchorProvider; market_identity w].
Proof.
  intros Hc [[sb Hb] [se He]] r; subst r. unfold market_identity.
  unfold createMarket, reference_price, getRandomInt.
  rewrite Hb, He.
  simpl.
  repeat (first [run_next Hc | run_info]).
  all: eexists; eexists (Build_Transaction _ _ (Methods.createMarket _ _ _ _ _ _ _ _) _);
    split; [reflexivity|].
  all: simpl; repeat split; try reflexivity.
  all: try (repeat (first [left; reflexivity | right])).
  all: try (unfold creates_market_as; simpl; repeat eexists).
Qed.


(** C2 (as amended).  The admin key argument is ignored: both oracle
    addresses are derived from the seeds ("StubOracle", public key of the
    provider's payer keypair, mint), and every oracle instruction is
    signed by the payer keypair and names one of these two addresses. *)
Theorem createMarket_oracles_of_payer (adminKp : Keypair) (index : Z) (w : World) :
  Cooperative env -> Declared web3 ->
  let payer := keypair anchorProvider in
  let r := run (createMarket program anchorProvider mintUtils adminKp
                  openbookProgramId baseMint quoteMint index) w in
  createMarket program anchorProvider mintUtils adminKp
    openbookProgramId baseMint quoteMint index =
  createMarket program anchorProvider mintUtils payer
    openbookProgramId baseMint quoteMint index /\
  (exists m,
     result r = Fulfilled m /\
     Market.oracle_a m = oracle_address payer baseMint openbookProgramId /\
     Market.oracle_b m = oracle_address payer quoteMint openbookProgramId) /\
  Forall
    (fun tx =>
       is_oracle_instruction tx = true ->
       signers tx = [payer] /\
       (oracle_of tx = Some (oracle_address payer baseMint openbookProgramId) \/
        oracle_of tx = Some (oracle_address payer quoteMint openbookProgramId)))
    (submitted r).
Proof.
  intros Hc Hd payer r; subst payer r.
  split; [reflexivity|split].
  - destruct (run_within 12 _ w Hc (createMarket_within adminKp index Hd)) as [m Hm].
    exists m; split; [exact Hm|].
    destruct (run_returns_only _ _ w m (createMarket_returns adminKp index) Hm)
      as (_ & _ & _ & _ & Ha & Hb).
    split; assumption.
  - apply run_submits_only, createMarket_submits.
Qed.

Lemma createMarket_oracle_shape (adminKp : Keypair) (index : Z) (w : World) :
  Cooperative env -> Declared web3 ->
  let payer := keypair anchorProvider in
  let A := oracle_address payer baseMint openbookProgramId in
  let B := oracle_address payer quoteMint openbookProgramId in
  let r := run (createMarket program anchorProvider mintUtils adminKp
                  openbookProgramId baseMint quoteMint index) w in
  exists lB txs_A txs_B set_A set_B rest,
    submitted r = txs_A ++ txs_B ++ [set_A; set_B] ++ rest /\
    match ledger_getAccountInfo (ledger w) A with
    | None => exists c, txs_A = [c] /\ creates_oracle A c = true /\
                        ledger_send (ledger w) c = Some lB
    | Some _ => txs_A = [] /\ lB = ledger w
    end /\
    match ledger_getAccountInfo lB B with
    | None => exists c, txs_B = [c] /\ creates_oracle B c = true
    | Some _ => txs_B = []
    end /\
    sets_oracle A set_A = true /\ sets_oracle B set_B = true /\
    Forall (fun tx => is_oracle_instruction tx = false) rest /\
    (Persistent env ->
     ledger_getAccountInfo (ledger (final r)) A <> None /\
     ledger_getAccountInfo (ledger (final r)) B <> None).
Proof.
  intros Hc [[sb Hb] [se He]] payer A B r.
  subst r A B payer.
  unfold createMarket, reference_price, getRandomInt, oracle_address.
  rewrite Hb, He.
  destruct (findProgramAddressSync
              [Buffer_from "StubOracle";
               toBytes (publicKey (keypair anchorProvider)); toBytes baseMint]
              openbookProgramId) as [A zA] eqn:EA.
  destruct (findProgramAddressSync
              [Buffer_from "StubOracle";
               toBytes (publicKey (keypair anchorProvider)); toBytes quoteMint]
              openbookProgramId) as [B zB] eqn:EB.
  simpl.
  destruct (entropy_random (entropy w)) as [rnd e1] eqn:Ernd.
  destruct (ledger_getAccountInfo (ledger w) A) as [iA|] eqn:EiA; simpl.
  - destruct (ledger_getAccountInfo (ledger w) B) as [iB|] eqn:EiB; simpl.
    + repeat run_next Hc.
      exists (ledger w), [], []; do 2 eexists; eexists (cons _ nil).
      rewrite EiB. shape_done.
      all: intros Hp; keep_accounts Hp; split; assumption.
    + repeat run_next Hc.
      exists (ledger w), []; eexists (cons _ nil); do 2 eexists; eexists (cons _ nil).
      rewrite EiB. shape_done.
      all: intros Hp; keep_accounts Hp; split; assumption.
  - run_next Hc.
    destruct (ledger_getAccountInfo l B) as [iB|] eqn:EiB; simpl.
    + repeat run_next Hc.
      exists l; eexists (cons _ nil); exists []; do 2 eexists; eexists (cons _ nil).
      rewrite EiB. shape_done.
      all: intros Hp; keep_accounts Hp; split; assumption.
    + repeat run_next Hc.
      exists l; eexists (cons _ nil); eexists (cons _ nil); do 2 eexists; eexists (cons _ nil).
      rewrite EiB. shape_done.
      all: intros Hp; keep_accounts Hp; split; assumption.
Qed.



(** C5.  In one [createMarket], on a ledger that accepts what it is sent:
    for the base oracle and then for the quote oracle, a create-oracle
    instruction is submitted exactly when the ledger reports no account at
    the address at the time it is asked; after these, one set-price
    instruction per oracle is submitted, whatever the ledger reported; no
    other oracle instruction follows.  Hence, on a ledger that keeps its
    accounts, two invocations in sequence for the same payer and mints
    submit at most one creation per oracle address, and two price-sets
    per oracle (four to the one address when base and quote oracle
    coincide). *)
Theorem createMarket_oracle_setup
    (adminKp1 adminKp2 : Keypair) (index1 index2 : Z) (w : World) :
  Cooperative env -> Persistent env -> Declared web3 ->
  let payer := keypair anchorProvider in
  let A := oracle_address payer baseMint openbookProgramId in
  let B := oracle_address payer quoteMint openbookProgramId in
  let r1 := run (createMarket program anchorProvider mintUtils adminKp1
                   openbookProgramId baseMint quoteMint index1) w in
  let r2 := run (createMarket program anchorProvider mintUtils adminKp2
                   openbookProgramId baseMint quoteMint index2) (final r1) in
  (exists lB txs_A txs_B set_A set_B rest,
     submitted r1 = txs_A ++ txs_B ++ [set_A; set_B] ++ rest /\
     match ledger_getAccountInfo (ledger w) A with
     | None => exists c, txs_A = [c] /\ creates_oracle A c = true /\
                         ledger_send (ledger w) c = Some lB
     | Some _ => txs_A = [] /\ lB = ledger w
     end /\
     match ledger_getAccountInfo lB B with
     | None => exists c, txs_B = [c] /\ creates_oracle B c = true
     | Some _ => txs_B = []
     end /\
     sets_oracle A set_A = true /\ sets_oracle B set_B = true /\
     Forall (fun tx => is_oracle_instruction tx = false) rest) /\
  (let all := submitted r1 ++ submitted r2 in
   (count (creates_oracle A) all <= 1)%nat /\
   (count (creates_oracle B) all <= 1)%nat /\
   (A <> B -> count (sets_oracle A) all = 2%nat /\
              count (sets_oracle B) all = 2%nat) /\
   (A = B -> count (sets_oracle A) all = 4%nat)).
Proof.
  intros Hc Hp Hd payer A B r1 r2.
  destruct (createMarket_oracle_shape adminKp1 index1 w Hc Hd)
    as (lB & tA & tB & sA & sB & rest & Hsub & HA & HB & HsA & HsB & Hrest & Hfin).
  destruct (createMarket_oracle_shape adminKp2 index2 (final r1) Hc Hd)
    as (lB' & tA' & tB' & sA' & sB' & rest' & Hsub' & HA' & HB' & HsA' & HsB' & Hrest' & _).
  fold payer A B r1 in Hsub, HA, HB, HsA, HsB, Hfin, HA', HB', HsA', HsB'.
  fold payer A B r2 in Hsub'.
  split.
  { exists lB, tA, tB, sA, sB, rest; auto 10. }
  destruct (Hfin Hp) as [HfA HfB].
  destruct (ledger_getAccountInfo (ledger (final r1)) A); [|congruence].
  destruct HA' as [-> ->].
  destruct (ledger_getAccountInfo (ledger (final r1)) B); [|congruence].
  subst tB'.
  cbv zeta. rewrite Hsub, Hsub'. simpl app.
  rewrite !count_app, !count_cons.
  destruct (count_no_oracle A rest Hrest) as [-> ->].
  destruct (count_no_oracle B rest Hrest) as [-> ->].
  destruct (count_no_oracle A rest' Hrest') as [-> ->].
  destruct (count_no_oracle B rest' Hrest') as [-> ->].
  pose proof (sets_oracle_inv _ _ HsA) as IsA.
  pose proof (sets_oracle_inv _ _ HsB) as IsB.
  pose proof (sets_oracle_inv _ _ HsA') as IsA'.
  pose proof (sets_oracle_inv _ _ HsB') as IsB'.
  destruct (IsA A) as [-> ->], (IsA' A) as [-> ->], (IsB B) as [-> ->], (IsB' B) as [-> ->].
  destruct (IsA B) as [-> ->], (IsA' B) as [-> ->], (IsB A) as [-> ->], (IsB' A) as [-> ->].
  rewrite !PublicKey_eqb_refl.
  assert (HtA : (count (creates_oracle A) tA + count (creates_oracle A) tB <= 1
                 /\ count (creates_oracle B) tA + count (creates_oracle B) tB <= 1
                 /\ count (sets_oracle A) tA = 0 /\ count (sets_oracle A) tB = 0
                 /\ count (sets_oracle B) tA = 0 /\ count (sets_oracle B) tB = 0)%nat).
  { destruct (ledger_getAccountInfo (ledger w) A) as [iA|].
    - destruct HA as [-> ->].
      destruct (ledger_getAccountInfo (ledger w) B) as [iB|].
      + subst tB. repeat split; unfold count; simpl; lia.
      + destruct HB as (c & -> & Hc').
        destruct (creates_oracle_inv _ _ Hc') as [_ Ic].
        rewrite !count_cons.
        destruct (Ic A) as [-> ->], (Ic B) as [-> ->].
        rewrite PublicKey_eqb_refl.
        destruct (PublicKey_eqb B A); repeat split; unfold count; simpl; lia.
    - destruct HA as (c & -> & Hc' & Hsend).
      destruct (creates_oracle_inv _ _ Hc') as [(price & accs & Hi & Ho) Ic].
      pose proof (@oracle_created _ Hp _ _ _ _ _ Hsend Hi) as HlB.
      rewrite Ho in HlB.
      rewrite !count_cons.
      destruct (Ic A) as [-> ->], (Ic B) as [-> ->].
      rewrite PublicKey_eqb_refl.
      destruct (ledger_getAccountInfo lB B) as [iB|] eqn:EiB.
      + subst tB. destruct (PublicKey_eqb A B); repeat split; unfold count; simpl; lia.
      + destruct HB as (c' & -> & Hc'').
        destruct (creates_oracle_inv _ _ Hc'') as [_ Ic'].
        rewrite !count_cons.
        destruct (Ic' A) as [-> ->], (Ic' B) as [-> ->].
        rewrite PublicKey_eqb_refl.
        destruct (PublicKey_eqb A B) eqn:EAB.
        * apply PublicKey_eqb_eq in EAB. rewrite EAB in HlB. congruence.
        * destruct (PublicKey_eqb B A) eqn:EBA.
          -- apply PublicKey_eqb_eq in EBA. rewrite EBA in EiB. congruence.
          -- repeat split; unfold count; simpl; lia. }
  destruct HtA as (H1 & H2 & H3 & H4 & H5 & H6).
  unfold count in *; simpl in *.
  repeat split.
  - lia.
  - lia.
  - assert (B <> A) by congruence.
    rewrite (PublicKey_eqb_neq B A) by assumption. lia.
  - assert (B <> A) by congruence.
    rewrite (PublicKey_eqb_neq A B) by assumption. lia.
  - intros HAB. rewrite <- HAB, !PublicKey_eqb_refl. lia.
Qed.

End MarketFactory.

(** ** The registrar *)

Lemma le_bytes_value (length : nat) (n : Z) :
  0 <= n < 256 ^ Z.of_nat length -> le_value (le_bytes length n) = n.
Proof.
  revert n; induction length as [|length IH]; intros n Hn.
  - change (le_value (le_bytes 0 n)) with 0. simpl in Hn. lia.
  - change (le_bytes (S length) n) with (byte_of_Z n :: le_bytes length (n / 256)).
    change (le_value (byte_of_Z n :: le_bytes length (n / 256)))
      with (Z.of_N (Byte.to_N (byte_of_Z n)) + 256 * le_value (le_bytes length (n / 256))).
    rewrite Nat2Z.inj_succ, Z.pow_succ_r in Hn by lia.
    rewrite IH by (split; [apply Z.div_pos; lia | apply Z.div_lt_upper_bound; lia]).
    unfold byte_of_Z.
    pose proof (Z.mod_pos_bound n 256 ltac:(lia)) as Hm.
    destruct (Byte.of_N (Z.to_N (n mod 256))) as [b|] eqn:E.
    + apply Byte.to_of_N in E. rewrite E, Z2N.id by lia.
      rewrite (Z.div_mod n 256) at 3 by lia. lia.
    + apply Byte.of_N_None_iff in E. lia.
Qed.

Lemma nth_error_map_index {A B} (f : A -> Z -> B) (start : Z) (l : list A) (i : nat) :
  nth_error (map_index f start l) i =
  option_map (fun x => f x (start + Z.of_nat i)) (nth_error l i).
Proof.
  revert start i; induction l as [|x l IH]; intros start [|i];
    cbn [map_index nth_error option_map]; try reflexivity.
  - change (Z.of_nat 0) with 0. rewrite Z.add_0_r; reflexivity.
  - rewrite IH.
    destruct (nth_error l i); cbn [option_map]; [|reflexivity].
    do 2 f_equal; lia.
Qed.

Lemma length_map_index {A B} (f : A -> Z -> B) (start : Z) (l : list A) :
  List.length (map_index f start l) = List.length l.
Proof. revert start; induction l; intros; simpl; auto. Qed.

Section Registrar.
Context {web3 : Web3} {env : Env}.
Variable this : OpenbookConfigurator.

Lemma configureMarketForUser_loop_run
    (user : Keypair) (indexer : PublicKey) (markets : list Market.t) :
  Cooperative env ->
  forall (i : Z) (acc : list OpenOrders.t) (w : World),
    0 <= i -> i + Z.of_nat (List.length markets) < 2 ^ 32 ->
    let r := run (configureMarketForUser_loop this user indexer i markets acc) w in
    result r =
      Fulfilled
        (acc ++
         map_index
           (fun m k =>
              {| OpenOrders.market := Market.market_pk m;
                 OpenOrders.open_orders :=
                   open_orders_address user (k + 1) this.(openbookProgramId) |})
           i markets) /\
    List.length (submitted r) = List.length markets /\
    forall j m,
      nth_error markets j = Some m ->
      exists tx accs,
        nth_error (submitted r) j = Some tx /\
        instruction tx = Methods.createOpenOrdersAccount "test simulator" accs /\
        CreateOpenOrdersAccount.delegateAccount accs = None /\
        CreateOpenOrdersAccount.market accs = Market.market_pk m /\
        CreateOpenOrdersAccount.openOrdersAccount accs =
          open_orders_address user (i + Z.of_nat j + 1) this.(openbookProgramId).
Proof.
  intros Hc. induction markets as [|m rest IH]; intros i acc w Hi Hlen r; subst r.
  - simpl. rewrite app_nil_r. repeat split; intros [|j] m' Hj; discriminate.
  - cbn [configureMarketForUser_loop]. cbn [List.length] in Hlen.
    unfold BN_toBuffer_le, BN.
    replace (Z.abs (i + 1) <? 256 ^ Z.of_nat 4) with true
      by (symmetry; apply Z.ltb_lt; change (256 ^ Z.of_nat 4) with (2 ^ 32); lia).
    rewrite Z.abs_eq by lia.
    unfold open_orders_address in *. simpl.
    match goal with
    | |- context [findProgramAddressSync ?s ?p] =>
        destruct (findProgramAddressSync s p) as [openOrders bump] eqn:Epda
    end.
    simpl.
    match goal with
    | |- context [ledger_send ?l0 ?tx] =>
        destruct (ledger_send l0 tx) as [l|] eqn:Esend;
        [| exfalso; exact (@accepts_send _ Hc _ _ Esend)]
    end.
    simpl.
    specialize (IH (i + 1)
                  (acc ++ [{| OpenOrders.market := Market.market_pk m;
                              OpenOrders.open_orders := openOrders |}])
                  {| ledger := l; entropy := entropy w |}
                  ltac:(lia) ltac:(lia)).
    cbv zeta in IH. destruct IH as (Hres & Hlen' & Htxs).
    rewrite Hres, <- app_assoc. simpl.
    split; [reflexivity|]. split; [congruence|].
    intros [|j] m' Hj; simpl in Hj.
    + inversion Hj; subst m'. simpl. do 2 eexists.
      split; [reflexivity|]. simpl. rewrite Z.add_0_r, Epda. auto.
    + destruct (Htxs j m' Hj) as (tx & accs & H1 & H2 & H3 & H4 & H5).
      exists tx, accs. simpl. repeat split; auto.
      assert (E : i + 1 + Z.of_nat j + 1 = i + Z.of_nat (S j) + 1) by lia.
      rewrite E in H5. exact H5.
Qed.

(** C6.  On a ledger that accepts what it is sent, for a list of M
    markets (a JavaScript array, so shorter than 2^32),
    [configureMarketForUser] returns M handles; the i-th one (from 0)
    names the i-th market's address and the address derived from the seeds
    ("OpenOrders", user public key, i+1 in 4 little-endian bytes).  After
    the create-indexer instruction it submits M creation instructions,
    the i-th for that market and that address, each with the label
    "test simulator" and no delegate. *)
Theorem configureMarketForUser_handles
    (user : Keypair) (markets : list Market.t) (w : World) :
  Cooperative env ->
  Z.of_nat (List.length markets) < 2 ^ 32 ->
  let r := run (configureMarketForUser this user markets) w in
  exists handles,
    result r = Fulfilled handles /\
    List.length handles = List.length markets /\
    List.length (submitted r) = S (List.length markets) /\
    forall i m,
      nth_error markets i = Some m ->
      nth_error handles i =
        Some {| OpenOrders.market := Market.market_pk m;
                OpenOrders.open_orders :=
                  open_orders_address user (Z.of_nat i + 1)
                    this.(openbookProgramId) |} /\
      le_value (le_bytes 4 (Z.of_nat i + 1)) = Z.of_nat i + 1 /\
      exists tx accs,
        nth_error (submitted r) (S i) = Some tx /\
        instruction tx = Methods.createOpenOrdersAccount "test simulator" accs /\
        CreateOpenOrdersAccount.delegateAccount accs = None /\
        CreateOpenOrdersAccount.market accs = Market.market_pk m /\
        CreateOpenOrdersAccount.openOrdersAccount accs =
          open_orders_address user (Z.of_nat i + 1) this.(openbookProgramId).
Proof.
  intros Hc Hlen r; subst r.
  unfold configureMarketForUser.
  destruct (findProgramAddressSync _ _) as [indexer bump].
  simpl.
  match goal with
  | |- context [ledger_send ?l0 ?tx] =>
      destruct (ledger_send l0 tx) as [l|] eqn:Esend;
      [| exfalso; exact (@accepts_send _ Hc _ _ Esend)]
  end.
  simpl.
  destruct (configureMarketForUser_loop_run user indexer markets Hc 0 []
              {| ledger := l; entropy := entropy w |} ltac:(lia) ltac:(lia))
    as (Hres & Hlen' & Htxs).
  rewrite Hres. simpl.
  eexists; split; [reflexivity|].
  rewrite length_map_index. split; [reflexivity|]. split; [congruence|].
  intros i m Hi.
  rewrite nth_error_map_index, Hi; cbn [option_map]; rewrite Z.add_0_l.
  split; [reflexivity|]. split.
  - apply le_bytes_value.
    assert (i < List.length markets)%nat by (apply nth_error_Some; congruence).
    change (256 ^ Z.of_nat 4) with (2 ^ 32). lia.
  - destruct (Htxs i m Hi) as (tx & accs & H1 & H2 & H3 & H4 & H5).
    rewrite Z.add_0_l in H5.
    exists tx, accs. repeat split; auto.
Qed.

Lemma configureMarketForUser_loop_keeps
    (user : Keypair) (indexer : PublicKey) (markets : list Market.t) (a : PublicKey) :
  InitialisesOnce env ->
  forall (i : Z) (acc : list OpenOrders.t) (w : World),
    ledger_getAccountInfo (ledger w) a <> None ->
    ledger_getAccountInfo
      (ledger (final (run (configureMarketForUser_loop this user indexer i markets acc) w)))
      a <> None.
Proof.
  intros Hi. induction markets as [|m rest IH]; intros i acc w Ha.
  - exact Ha.
  - cbn [configureMarketForUser_loop].
    destruct (BN_toBuffer_le (BN (i + 1)) 4) as [b|]; simpl; [|exact Ha].
    destruct (findProgramAddressSync _ _) as [openOrders bump]. simpl.
    match goal with
    | |- context [ledger_send ?l0 ?tx] =>
        destruct (ledger_send l0 tx) as [l|] eqn:Esend
    end; simpl; [|exact Ha].
    apply IH. simpl. eapply (@indexer_kept _ Hi); eauto.
Qed.

(** C7.  [configureMarketForUser] starts by submitting the create-indexer
    instruction: no interaction with the ledger precedes it.  On a ledger
    that initialises an indexer once, after a first invocation whose
    create-indexer instruction was accepted, a second invocation for the
    same user is rejected at that same instruction, and submits nothing
    else. *)
Theorem configureMarketForUser_twice_rejected
    (user : Keypair) (markets1 markets2 : list Market.t) (w : World)
    (tx : Transaction) (l1 : Ledger) :
  InitialisesOnce env ->
  let r1 := run (configureMarketForUser this user markets1) w in
  let r2 := run (configureMarketForUser this user markets2) (final r1) in
  hd_error (submitted r1) = Some tx ->
  ledger_send (ledger w) tx = Some l1 ->
  (exists k, configureMarketForUser this user markets2 = Rpc tx k) /\
  (exists accs,
     instruction tx = Methods.createOpenOrdersIndexer accs /\
     CreateOpenOrdersIndexer.openOrdersIndexer accs =
       indexer_address user this.(openbookProgramId)) /\
  result r2 = Rejected (SendTransactionError tx) /\
  submitted r2 = [tx] /\
  final r2 = final r1.
Proof.
  intros Hi r1 r2 Hhd Hsend; subst r1 r2.
  unfold configureMarketForUser, indexer_address in *.
  destruct (findProgramAddressSync _ _) as [indexer bump]. simpl in *.
  match type of Hhd with
  | context [ledger_send ?l0 ?tx0] =>
      assert (Htx : tx = tx0)
        by (destruct (ledger_send l0 tx0); simpl in Hhd; congruence)
  end.
  subst tx. rewrite Hsend. simpl.
  split; [eexists; reflexivity|].
  split; [eexists; split; reflexivity|].
  match goal with
  | |- context [ledger_send ?l0 ?tx0] =>
      assert (Hrej : ledger_send l0 tx0 = None)
  end.
  { eapply (@indexer_rejected _ Hi); [reflexivity |]. simpl.
    apply configureMarketForUser_loop_keeps; [exact Hi|]. simpl.
    exact (@indexer_created _ Hi _ _ _ _ Hsend eq_refl). }
  rewrite Hrej. simpl. auto.
Qed.

End Registrar.

(** ** The order-book filler *)

Lemma Zrange_S (start : Z) (count : nat) :
  Zrange start (S count) = start :: Zrange (start + 1) count.
Proof.
  unfold Zrange. cbn [seq map]. rewrite Z.add_0_r. f_equal.
  rewrite <- seq_shift, map_map. apply map_ext. intros k. lia.
Qed.

Lemma length_Zrange (start : Z) (count : nat) :
  List.length (Zrange start count) = count.
Proof. unfold Zrange. rewrite length_map, length_seq. reflexivity. Qed.

Lemma nth_error_Zrange (start : Z) (count i : nat) :
  (i < count)%nat -> nth_error (Zrange start count) i = Some (start + Z.of_nat i).
Proof.
  intros Hi. unfold Zrange.
  rewrite nth_error_map, nth_error_seq.
  destruct (Nat.ltb_spec i count); [reflexivity | lia].
Qed.

Lemma for_loop_ext (count : nat) (start : Z) (body body' : Z -> Prog unit) :
  (forall i, body i = body' i) ->
  for_loop count start body = for_loop count start body'.
Proof.
  intros H. revert start; induction count as [|count IH]; intros start; simpl.
  - reflexivity.
  - rewrite H, IH. reflexivity.
Qed.

Lemma submits_only_for_loop
    (Q : Transaction -> Prop) (count : nat) (start : Z) (body : Z -> Prog unit) :
  (forall i, submits_only Q (body i)) ->
  submits_only Q (for_loop count start body).
Proof.
  intros H. revert start; induction count as [|count IH]; intros start; simpl.
  - exact I.
  - apply submits_only_bind; auto.
Qed.

Lemma at_index_map {A B} (f : A -> B) (l : list A) (i : Z) :
  at_index (map f l) i = option_map f (at_index l i).
Proof.
  unfold at_index. destruct (i <? 0); [reflexivity|]. apply nth_error_map.
Qed.

Section Filler.
Context {web3 : Web3} {env : Env}.
Variable this : OpenbookConfigurator.
Variables (user : User.t) (userKp : Keypair) (marketData : Market.t).

Lemma for_loop_rpc_run (f : Z -> Transaction) :
  Cooperative env ->
  forall (n : nat) (start : Z) (w : World),
    result (run (for_loop n start (fun i => rpc (f i))) w) = Fulfilled tt /\
    submitted (run (for_loop n start (fun i => rpc (f i))) w) =
      map f (Zrange start n).
Proof.
  intros Hc. induction n as [|n IH]; intros start w.
  - split; reflexivity.
  - rewrite Zrange_S. simpl.
    destruct (ledger_send (ledger w) (f start)) as [l|] eqn:Esend;
      [| exfalso; exact (@accepts_send _ Hc _ _ Esend)].
    simpl. destruct (IH (start + 1) {| ledger := l; entropy := entropy w |}) as [H1 H2].
    rewrite H1, H2. split; reflexivity.
Qed.

(** What every submission of [fillOrderBook] names as accounts. *)
Lemma fillOrderBook_accounts (nbOrders : Z) :
  submits_only
    (fun tx =>
       exists handle args accs,
         at_index (User.open_orders user) (Market.market_index marketData) =
           Some handle /\
         instruction tx = Methods.placeOrder args accs /\
         PlaceOrder.openOrdersAccount accs = OpenOrders.open_orders handle /\
         PlaceOrder.userTokenAccount accs =
           match PlaceOrder.side args with
           | Side.bid =>
               option_map TokenAccountData.token_account
                 (at_index (User.token_data user) 0)
           | Side.ask =>
               option_map TokenAccountData.token_account
                 (find (fun x => strict_equal (TokenAccountData.mint x)
                                   (Market.base_mint marketData))
                       (User.token_data user))
           end)
    (fillOrderBook this user userKp marketData nbOrders).
Proof.
  unfold fillOrderBook.
  apply submits_only_bind; [|intros _]; apply submits_only_for_loop; intros i.
  - unfold place_bid.
    destruct (at_index (User.open_orders user) _) as [h|]; simpl; [|exact I].
    destruct (at_index (User.token_data user) 0) as [t|]; simpl; [|exact I].
    split; [|exact I]. do 3 eexists. repeat split.
  - unfold place_ask.
    destruct (at_index (User.open_orders user) _) as [h|]; simpl; [|exact I].
    split; [|exact I]. do 3 eexists. repeat split. simpl.
    f_equal. induction (User.token_data user) as [|x l IH]; simpl; [reflexivity|].
    destruct (strict_equal _ _); simpl; auto.
Qed.

(** C4.  On a ledger that accepts what it is sent, for a user who has a
    handle at the market's index and, among the token accounts, one whose
    mint is the very object the market records as base mint (the entry
    the filter of the sell orders finds), and for every order count N
    with 2N below 2^53 (2N is the largest client id, and [new BN] accepts
    a number below 2^53 only), [fillOrderBook] returns after exactly 2N
    submissions: the first N are the buy orders, the i-th (from 0) at
    price 1000-1-i for 10 base lots, quote cap 1,000,000 and client id i;
    the next N are the sell orders, the i-th at price 1000+1+i for 10,000
    base lots, quote cap 1,000,000 and client id i+N+1.  Every order
    names a token account of the user, and every number handed to
    [new BN] is in the range it accepts. *)
Theorem fillOrderBook_ladder (N : nat) (w : World) :
  Cooperative env ->
  at_index (User.open_orders user) (Market.market_index marketData) <> None ->
  (exists entry,
     In entry (User.token_data user) /\
     strict_equal (TokenAccountData.mint entry)
                  (Market.base_mint marketData) = true) ->
  2 * Z.of_nat N < 2 ^ 53 ->
  let r := run (fillOrderBook this user userKp marketData (Z.of_nat N)) w in
  result r = Fulfilled tt /\
  List.length (submitted r) = (N + N)%nat /\
  forall i, (i < N)%nat ->
    (exists tx accs,
       nth_error (submitted r) i = Some tx /\
       instruction tx =
         Methods.placeOrder
           {| PlaceOrder.side := Side.bid;
              PlaceOrder.priceLots := 1000 - 1 - Z.of_nat i;
              PlaceOrder.maxBaseLots := 10;
              PlaceOrder.maxQuoteLotsIncludingFees := 1000000;
              PlaceOrder.clientOrderId := Z.of_nat i;
              PlaceOrder.orderType := PlaceOrderType.limit;
              PlaceOrder.expiryTimestamp := 2 ^ 64 - 1;
              PlaceOrder.selfTradeBehavior := SelfTradeBehavior.decrementTake;
              PlaceOrder.limit := 255 |}
           accs /\
       PlaceOrder.userTokenAccount accs <> None /\
       BN_accepts (1000 - 1 - Z.of_nat i) = true /\
       BN_accepts (Z.of_nat i) = true) /\
    (exists tx accs,
       nth_error (submitted r) (N + i) = Some tx /\
       instruction tx =
         Methods.placeOrder
           {| PlaceOrder.side := Side.ask;
              PlaceOrder.priceLots := 1000 + 1 + Z.of_nat i;
              PlaceOrder.maxBaseLots := 10000;
              PlaceOrder.maxQuoteLotsIncludingFees := 1000000;
              PlaceOrder.clientOrderId := Z.of_nat i + Z.of_nat N + 1;
              PlaceOrder.orderType := PlaceOrderType.limit;
              PlaceOrder.expiryTimestamp := 2 ^ 64 - 1;
              PlaceOrder.selfTradeBehavior := SelfTradeBehavior.decrementTake;
              PlaceOrder.limit := 255 |}
           accs /\
       PlaceOrder.userTokenAccount accs <> None /\
       BN_accepts (1000 + 1 + Z.of_nat i) = true /\
       BN_accepts (Z.of_nat i + Z.of_nat N + 1) = true).
Proof.
  intros Hc Hh Hentry HN r; subst r.
  destruct (at_index (User.open_orders user) (Market.market_index marketData))
    as [h|] eqn:Eh; [clear Hh | congruence].
  assert (Et : exists t, at_index (User.token_data user) 0 = Some t).
  { destruct Hentry as (entry & Hin & _).
    destruct (User.token_data user) as [|t l]; [contradiction | exists t; reflexivity]. }
  destruct Et as [t Et].
  assert (Ef : hd_error
                 (filter
                    (fun x => strict_equal (TokenAccountData.mint x)
                                (Market.base_mint marketData))
                    (User.token_data user)) <> None).
  { destruct Hentry as (entry & Hin & Hmint).
    assert (Hf : In entry
                   (filter
                      (fun x => strict_equal (TokenAccountData.mint x)
                                  (Market.base_mint marketData))
                      (User.token_data user)))
      by (apply filter_In; split; assumption).
    destruct (filter _ (User.token_data user)); [contradiction | discriminate]. }
  assert (Hsafe : forall n, Z.abs n < 2 ^ 53 -> BN_accepts n = true)
    by (intros n Hn; unfold BN_accepts; apply Z.ltb_lt; exact Hn).
  evar (fb : Z -> Transaction). evar (fa : Z -> Transaction).
  assert (Hb : forall i, place_bid this user userKp marketData i = rpc (fb i)).
  { intros i. unfold place_bid. rewrite Eh, Et. simpl. subst fb. reflexivity. }
  assert (Ha : forall i,
             place_ask this user userKp marketData (Z.of_nat N) i = rpc (fa i)).
  { intros i. unfold place_ask. rewrite Eh. simpl. subst fa. reflexivity. }
  unfold fillOrderBook. rewrite Nat2Z.id.
  rewrite (for_loop_ext _ _ _ _ Hb), (for_loop_ext _ _ _ _ Ha).
  rewrite run_bind.
  destruct (for_loop_rpc_run fb Hc N 0 w) as [Rb Sb]. rewrite Rb. cbv zeta.
  destruct (for_loop_rpc_run fa Hc N 0
              (final (run (for_loop N 0 (fun i => rpc (fb i))) w))) as [Ra Sa].
  cbn [result submitted]. rewrite Ra, Sa, Sb.
  split; [reflexivity|].
  split; [rewrite length_app, !length_map, !length_Zrange; reflexivity|].
  intros i Hi. split.
  - exists (fb (0 + Z.of_nat i)). eexists.
    rewrite nth_error_app1 by (rewrite length_map, length_Zrange; exact Hi).
    rewrite nth_error_map, nth_error_Zrange by exact Hi.
    split; [reflexivity|].
    split; [subst fb; cbn [instruction]; unfold BN, U64_MAX_BN;
            rewrite Z.add_0_l; reflexivity|].
    split; [cbn [PlaceOrder.userTokenAccount]; discriminate|].
    split; apply Hsafe; clear - HN Hi; lia.
  - exists (fa (0 + Z.of_nat i)). eexists.
    rewrite nth_error_app2 by (rewrite length_map, length_Zrange; lia).
    rewrite length_map, length_Zrange.
    replace (N + i - N)%nat with i by lia.
    rewrite nth_error_map, nth_error_Zrange by exact Hi.
    split; [reflexivity|].
    split; [subst fa; cbn [instruction]; unfold BN, U64_MAX_BN;
            rewrite Z.add_0_l; reflexivity|].
    split.
    + cbn [PlaceOrder.userTokenAccount].
      destruct (hd_error _) as [e|]; [discriminate | congruence].
    + split; apply Hsafe; clear - HN Hi; lia.
Qed.

(** C9.  Every order [fillOrderBook] submits names, as open-orders
    account, the account of the handle found in the user's [open_orders]
    array at position [market_index]; and the handles' [market] fields
    are never read: two users that differ in them only are filled in the
    same way. *)
Theorem fillOrderBook_open_orders_by_position (nbOrders : Z) (w : World) :
  (forall tx,
     In tx (submitted (run (fillOrderBook this user userKp marketData nbOrders) w)) ->
     exists handle args accs,
       at_index (User.open_orders user) (Market.market_index marketData) =
         Some handle /\
       instruction tx = Methods.placeOrder args accs /\
       PlaceOrder.openOrdersAccount accs = OpenOrders.open_orders handle) /\
  (forall user',
     User.token_data user' = User.token_data user ->
     map OpenOrders.open_orders (User.open_orders user') =
       map OpenOrders.open_orders (User.open_orders user) ->
     fillOrderBook this user' userKp marketData nbOrders =
     fillOrderBook this user userKp marketData nbOrders).
Proof.
  split.
  - intros tx Hin.
    pose proof (run_submits_only _ _ w (fillOrderBook_accounts nbOrders)) as HF.
    rewrite Forall_forall in HF.
    destruct (HF tx Hin) as (h & args & accs & H1 & H2 & H3 & _).
    exists h, args, accs. auto.
  - intros user' Htd Hoo.
    assert (Hat : option_map OpenOrders.open_orders
                    (at_index (User.open_orders user') (Market.market_index marketData)) =
                  option_map OpenOrders.open_orders
                    (at_index (User.open_orders user) (Market.market_index marketData))).
    { rewrite <- !at_index_map, Hoo. reflexivity. }
    unfold fillOrderBook. f_equal.
    + apply for_loop_ext. intros i. unfold place_bid. rewrite Htd.
      destruct (at_index (User.open_orders user') _) as [h'|],
               (at_index (User.open_orders user) _) as [h|];
        simpl in Hat; try discriminate; [|reflexivity].
      inversion Hat as [Hh]. simpl. rewrite Hh. reflexivity.
    + assert (Hl : for_loop (Z.to_nat nbOrders) 0
                     (place_ask this user' userKp marketData nbOrders) =
                   for_loop (Z.to_nat nbOrders) 0
                     (place_ask this user userKp marketData nbOrders)).
      { apply for_loop_ext. intros i. unfold place_ask. rewrite Htd.
        destruct (at_index (User.open_orders user') _) as [h'|],
                 (at_index (User.open_orders user) _) as [h|];
          simpl in Hat; try discriminate; [|reflexivity].
        inversion Hat as [Hh]. simpl. rewrite Hh. reflexivity. }
      rewrite Hl. reflexivity.
Qed.

(** Sell orders are paid from the first token account whose mint is the
    very object the market holds as base mint. *)
Lemma fillOrderBook_sell_same_object (nbOrders : Z) (w : World) (entry : TokenAccountData.t) :
  find (fun x => strict_equal (TokenAccountData.mint x) (Market.base_mint marketData))
       (User.token_data user) = Some entry ->
  forall tx args accs,
    In tx (submitted (run (fillOrderBook this user userKp marketData nbOrders) w)) ->
    instruction tx = Methods.placeOrder args accs ->
    PlaceOrder.side args = Side.ask ->
    PlaceOrder.userTokenAccount accs = Some (TokenAccountData.token_account entry).
Proof.
  intros Hfind tx args accs Hin Hix Hside.
  pose proof (run_submits_only _ _ w (fillOrderBook_accounts nbOrders)) as HF.
  rewrite Forall_forall in HF.
  destruct (HF tx Hin) as (h & args' & accs' & _ & H2 & _ & H4).
  rewrite Hix in H2. inversion H2; subst args' accs'.
  rewrite H4, Hside, Hfind. reflexivity.
Qed.

End Filler.

(** ** The configurator: markets created together *)

Lemma Forall2_map_index {A B C} (R : B -> C -> Prop)
    (f : A -> Z -> B) (g : A -> Z -> C) (start : Z) (l : list A) :
  (forall x i, R (f x i) (g x i)) ->
  Forall2 R (map_index f start l) (map_index g start l).
Proof.
  intros H. revert start; induction l; intros start; simpl; constructor; auto.
Qed.

Lemma Forall2_holds_map_index {A B} (F : A -> Z -> B -> Prop)
    (start : Z) (l : list A) (vs : list B) :
  Forall2 (fun P v => P v) (map_index F start l) vs ->
  List.length vs = List.length l /\
  forall i v, nth_error vs i = Some v ->
    exists x, nth_error l i = Some x /\ F x (start + Z.of_nat i) v.
Proof.
  revert start vs; induction l as [|x l IH]; intros start vs H; simpl in H;
    inversion H as [|P v Ps vs' HP Hrest]; subst.
  - split; [reflexivity|]. intros [|i] v Hv; discriminate.
  - destruct (IH _ _ Hrest) as [Hlen Hnth].
    split; [simpl; congruence|].
    intros [|i] v' Hv; simpl in Hv.
    + inversion Hv; subst. exists x. rewrite Z.add_0_r. auto.
    + destruct (Hnth i v' Hv) as (y & Hy & HF).
      exists y. split; [exact Hy|].
      replace (start + Z.of_nat (S i)) with (start + 1 + Z.of_nat i) by lia.
      exact HF.
Qed.

Lemma replace_nth_Forall2 {A B} (R : A -> B -> Prop)
    (xs : list A) (ys : list B) (i : nat) (x' : A) (y' : B) :
  Forall2 R xs ys ->
  (forall x y, nth_error xs i = Some x -> nth_error ys i = Some y -> R x' y') ->
  Forall2 R (replace_nth i x' xs) (replace_nth i y' ys).
Proof.
  intros H; revert i; induction H as [|x y xs ys Hxy H IH]; intros i Hi.
  - destruct i; constructor.
  - destruct i as [|i]; simpl.
    + constructor; [eapply Hi; reflexivity | exact H].
    + constructor; [exact Hxy | apply IH; exact Hi].
Qed.

Lemma Forall2_replace_right {A B} (R : A -> B -> Prop)
    (xs : list A) (ys : list B) (i : nat) (y' : B) :
  Forall2 R xs ys ->
  (forall x, nth_error xs i = Some x -> R x y') ->
  Forall2 R xs (replace_nth i y' ys).
Proof.
  intros H; revert i; induction H as [|x y xs ys Hxy H IH]; intros i Hi.
  - destruct i; constructor.
  - destruct i as [|i]; simpl.
    + constructor; [apply Hi; reflexivity | exact H].
    + constructor; [exact Hxy | apply IH; exact Hi].
Qed.

Lemma Forall2_nth_error {A B} (R : A -> B -> Prop)
    (xs : list A) (ys : list B) (i : nat) (x : A) (y : B) :
  Forall2 R xs ys -> nth_error xs i = Some x -> nth_error ys i = Some y -> R x y.
Proof.
  intros H; revert i; induction H as [|x0 y0 xs ys Hxy H IH]; intros [|i] Hx Hy;
    simpl in *; try discriminate.
  - inversion Hx; inversion Hy; subst; exact Hxy.
  - eapply IH; eassumption.
Qed.

Lemma Forall2_nth_error_right {A B} (R : A -> B -> Prop)
    (xs : list A) (ys : list B) (i : nat) (y : B) :
  Forall2 R xs ys -> nth_error ys i = Some y ->
  exists x, nth_error xs i = Some x /\ R x y.
Proof.
  intros H; revert i; induction H as [|x0 y0 xs ys Hxy H IH]; intros [|i] Hy;
    simpl in *; try discriminate.
  - inversion Hy; subst; eauto.
  - eapply IH; eassumption.
Qed.

Lemma list_sum_replace_nth (ns : list nat) (i n : nat) :
  nth_error ns i = Some (S n) ->
  S (list_sum (replace_nth i n ns)) = list_sum ns.
Proof.
  revert i; induction ns as [|m ns IH]; intros [|i] H; simpl in *; try discriminate.
  - inversion H; subst. reflexivity.
  - rewrite <- (IH i H). lia.
Qed.

Lemma replace_nth_Forall {A} (P : A -> Prop) (l : list A) (i : nat) (x : A) :
  Forall P l -> P x -> Forall P (replace_nth i x l).
Proof.
  intros H Hx; revert i; induction H as [|y l Hy H IH]; intros [|i]; simpl;
    constructor; auto.
Qed.

Lemma Forall_map_index {A B} (P : B -> Prop) (f : A -> Z -> B) (start : Z) (l : list A) :
  (forall x i, P (f x i)) -> Forall P (map_index f start l).
Proof.
  intros H. revert start; induction l; intros start; simpl; constructor; auto.
Qed.

Lemma length_replace_nth {A} (i : nat) (x : A) (l : list A) :
  List.length (replace_nth i x l) = List.length l.
Proof. revert i; induction l as [|y l IH]; intros [|i]; simpl; auto. Qed.

Lemma list_sum_replace_nth_add (ns : list nat) (i n d : nat) :
  nth_error ns i = Some n ->
  list_sum (replace_nth i (n + d)%nat ns) = (list_sum ns + d)%nat.
Proof.
  revert i; induction ns as [|m ns IH]; intros [|i] H; simpl in *; try discriminate.
  - inversion H; subst. lia.
  - rewrite (IH i H). lia.
Qed.

Lemma list_sum_map_index_0 {A} (start : Z) (l : list A) :
  list_sum (map_index (fun _ _ => 0%nat) start l) = 0%nat.
Proof. revert start; induction l; intros start; simpl; auto. Qed.

Lemma yields_impl {A} (P Q : list Transaction -> A -> Prop) (p : Prog A) :
  (forall txs a, P txs a -> Q txs a) -> yields P p -> yields Q p.
Proof.
  revert P Q; induction p as [a|x|address k IH|tx k IH|payer size owner k IH|k IH|k IH];
    intros P Q H; simpl; auto; try (intros Hy r; eapply IH; [exact H | apply Hy]).
  apply IH. intros txs a. apply H.
Qed.

Section Together.
Context {env : Env}.

Lemma settle_returns_only {A} (P : A -> Prop) (p : Prog A) (e : Entropy) :
  returns_only P p -> returns_only P (fst (settle p e)).
Proof.
  revert e; induction p as [a|x|address k IH|tx k IH|payer size owner k IH|k IH|k IH];
    intros e H; simpl in *; auto.
  - destruct (entropy_keypair e) as [kp e']. apply IH, H.
  - destruct (entropy_random e) as [r e']. apply IH, H.
Qed.

Lemma resume_returns_only {A} (P : A -> Prop) (p : Prog A) (w : World) :
  returns_only P p -> returns_only P (fst (fst (resume p w))).
Proof.
  destruct p as [a|x|address k|tx k|payer size owner k|k|k]; simpl; intros H; auto.
  - pose proof (settle_returns_only P _ (entropy w)
                  (H (ledger_getAccountInfo (ledger w) address))) as Hs.
    destruct (settle _ _); exact Hs.
  - destruct (ledger_send (ledger w) tx) as [l|]; simpl; [|exact I].
    pose proof (settle_returns_only P _ (entropy w) H) as Hs.
    destruct (settle _ _); exact Hs.
  - destruct (ledger_createAccount _ _ _ _) as [[a l]|]; simpl; [|exact I].
    pose proof (settle_returns_only P _ (entropy w) (H a)) as Hs.
    destruct (settle _ _); exact Hs.
  - destruct (entropy_keypair (entropy w)) as [kp e'].
    pose proof (settle_returns_only P _ e' (H kp)) as Hs.
    destruct (settle _ _); exact Hs.
  - destruct (entropy_random (entropy w)) as [r e'].
    pose proof (settle_returns_only P _ e' (H r)) as Hs.
    destruct (settle _ _); exact Hs.
Qed.

Lemma spawn_returns_only {A} (Ps : list (A -> Prop)) (ps : list (Prog A)) (e : Entropy) :
  Forall2 returns_only Ps ps -> Forall2 returns_only Ps (fst (spawn ps e)).
Proof.
  intros H; revert e; induction H as [|P p Ps ps HP H IH]; intros e; simpl.
  - constructor.
  - pose proof (settle_returns_only P p e HP) as Hs.
    destruct (settle p e) as [p' e'].
    specialize (IH e'). destruct (spawn ps e') as [ps' e''].
    constructor; assumption.
Qed.

Lemma all_fulfilled_returns_only {A} (Ps : list (A -> Prop)) (ps : list (Prog A))
    (values : list A) :
  Forall2 returns_only Ps ps ->
  all_fulfilled ps = Some values ->
  Forall2 (fun P v => P v) Ps values.
Proof.
  intros H; revert values; induction H as [|P p Ps ps HP H IH]; intros values Hv;
    simpl in Hv.
  - inversion Hv; constructor.
  - destruct p; try discriminate.
    destruct (all_fulfilled ps) as [vs|]; simpl in Hv; [|discriminate].
    inversion Hv; subst. constructor; [exact HP | apply IH; reflexivity].
Qed.

Lemma Promise_all_returns_only {A} (Ps : list (A -> Prop)) (schedule : list nat) :
  forall (ps : list (Prog A)) (w : World) (values : list A),
    Forall2 returns_only Ps ps ->
    result (Promise_all schedule ps w) = Some (Fulfilled values) ->
    Forall2 (fun P v => P v) Ps values.
Proof.
  induction schedule as [|i schedule IH]; intros ps w values HPs Hr;
    simpl in Hr;
    destruct (first_rejected ps); try discriminate;
    destruct (all_fulfilled ps) as [vs|] eqn:Ef;
    try (inversion Hr; subst; eapply all_fulfilled_returns_only; eassumption);
    try discriminate.
  destruct (nth_error ps i) as [p|] eqn:Ep; [|eapply IH; eassumption].
  destruct (resume p w) as [[p' w'] txs] eqn:Er. simpl in Hr.
  eapply IH; [|exact Hr].
  apply Forall2_replace_right; [exact HPs|].
  intros P HP.
  pose proof (Forall2_nth_error _ _ _ _ _ _ HPs HP Ep) as Hp.
  pose proof (resume_returns_only P p w Hp) as Hp'.
  rewrite Er in Hp'. exact Hp'.
Qed.

Lemma settle_within {A} (n : nat) (p : Prog A) (e : Entropy) :
  within n p -> within n (fst (settle p e)).
Proof.
  revert n e; induction p as [a|x|address k IH|tx k IH|payer size owner k IH|k IH|k IH];
    intros n e H; simpl in *; auto.
  - destruct n; [contradiction|].
    destruct (entropy_keypair e) as [kp e']. apply within_S, IH, H.
  - destruct n; [contradiction|].
    destruct (entropy_random e) as [r e']. apply within_S, IH, H.
Qed.

Lemma spawn_within {A} (ns : list nat) (ps : list (Prog A)) (e : Entropy) :
  Forall2 within ns ps -> Forall2 within ns (fst (spawn ps e)).
Proof.
  intros H; revert e; induction H as [|n p ns ps Hn H IH]; intros e; simpl.
  - constructor.
  - pose proof (settle_within n p e Hn) as Hs.
    destruct (settle p e) as [p' e'].
    specialize (IH e'). destruct (spawn ps e') as [ps' e''].
    constructor; assumption.
Qed.

Lemma resume_within {A} (n : nat) (p : Prog A) (w : World) :
  Cooperative env -> within n p ->
  (exists a, p = Ret a) \/
  (exists n', n = S n' /\ within n' (fst (fst (resume p w)))).
Proof.
  intros Hc.
  destruct p as [a|x|address k|tx k|payer size owner k|k|k]; simpl; intros H.
  - left; eauto.
  - contradiction.
  - right. destruct n as [|n']; [contradiction|]. exists n'. split; [reflexivity|].
    pose proof (settle_within n' _ (entropy w)
                  (H (ledger_getAccountInfo (ledger w) address))) as Hs.
    destruct (settle _ _); exact Hs.
  - right. destruct n as [|n']; [contradiction|]. exists n'. split; [reflexivity|].
    destruct (ledger_send (ledger w) tx) as [l|] eqn:E;
      [| exfalso; exact (@accepts_send _ Hc _ _ E)].
    pose proof (settle_within n' _ (entropy w) H) as Hs.
    destruct (settle _ _); exact Hs.
  - right. destruct n as [|n']; [contradiction|]. exists n'. split; [reflexivity|].
    destruct (ledger_createAccount _ _ _ _) as [[a l]|] eqn:E;
      [| exfalso; exact (@accepts_createAccount _ Hc _ _ _ _ E)].
    pose proof (settle_within n' _ (entropy w) (H a)) as Hs.
    destruct (settle _ _); exact Hs.
  - right. destruct n as [|n']; [contradiction|]. exists n'. split; [reflexivity|].
    destruct (entropy_keypair (entropy w)) as [kp e'].
    pose proof (settle_within n' _ e' (H kp)) as Hs.
    destruct (settle _ _); exact Hs.
  - right. destruct n as [|n']; [contradiction|]. exists n'. split; [reflexivity|].
    destruct (entropy_random (entropy w)) as [r e'].
    pose proof (settle_within n' _ e' (H r)) as Hs.
    destruct (settle _ _); exact Hs.
Qed.

Lemma within_not_rejected {A} (ns : list nat) (ps : list (Prog A)) :
  Forall2 within ns ps -> first_rejected ps = None.
Proof.
  induction 1 as [|n p ns ps Hn H IH]; [reflexivity|].
  destruct p; simpl in *; auto; contradiction.
Qed.

Lemma all_fulfilled_pending {A} (ns : list nat) (ps : list (Prog A)) :
  Forall2 within ns ps -> all_fulfilled ps = None ->
  exists i p, nth_error ps i = Some p /\ forall a, p <> Ret a.
Proof.
  induction 1 as [|n p ns ps Hn H IH]; simpl; intros Hf; [discriminate|].
  destruct p as [a| | | | | |];
    try (exists 0%nat; eexists; split; [reflexivity | intros a; discriminate]).
  destruct (all_fulfilled ps); [discriminate|].
  destruct (IH eq_refl) as (i & p & Hp & Hne).
  exists (S i), p. auto.
Qed.

Lemma Promise_all_completes {A} :
  Cooperative env ->
  forall (total : nat) (ns : list nat) (ps : list (Prog A)) (w : World),
    Forall2 within ns ps -> (list_sum ns <= total)%nat ->
    exists schedule values,
      result (Promise_all schedule ps w) = Some (Fulfilled values).
Proof.
  intros Hc. induction total as [|total IH]; intros ns ps w Hw Hsum.
  - destruct (all_fulfilled ps) as [vs|] eqn:Ef.
    + exists [], vs. simpl. rewrite (within_not_rejected _ _ Hw), Ef. reflexivity.
    + destruct (all_fulfilled_pending _ _ Hw Ef) as (i & p & Hp & Hne).
      destruct (Forall2_nth_error_right _ _ _ _ _ Hw Hp) as (n & Hn & Hnp).
      destruct (resume_within n p w Hc Hnp) as [[a ->]|(n' & -> & _)];
        [exfalso; eapply Hne; reflexivity|].
      pose proof (list_sum_replace_nth _ _ _ Hn). lia.
  - destruct (all_fulfilled ps) as [vs|] eqn:Ef.
    + exists [], vs. simpl. rewrite (within_not_rejected _ _ Hw), Ef. reflexivity.
    + destruct (all_fulfilled_pending _ _ Hw Ef) as (i & p & Hp & Hne).
      destruct (Forall2_nth_error_right _ _ _ _ _ Hw Hp) as (n & Hn & Hnp).
      destruct (resume_within n p w Hc Hnp) as [[a ->]|(n' & -> & Hn')];
        [exfalso; eapply Hne; reflexivity|].
      destruct (resume p w) as [[p' w'] txs] eqn:Er. simpl in Hn'.
      destruct (IH (replace_nth i n' ns) (replace_nth i p' ps) w') as (schedule & vs & Hr).
      * apply replace_nth_Forall2; [exact Hw|]. intros; exact Hn'.
      * pose proof (list_sum_replace_nth _ _ _ Hn). lia.
      * exists (i :: schedule), vs. simpl.
        rewrite (within_not_rejected _ _ Hw), Ef, Hp, Er. exact Hr.
Qed.

Lemma settle_yields {A} (P : list Transaction -> A -> Prop) (p : Prog A) (e : Entropy) :
  yields P p -> yields P (fst (settle p e)).
Proof.
  revert e; induction p as [a|x|address k IH|tx k IH|payer size owner k IH|k IH|k IH];
    intros e H; simpl in *; auto.
  - destruct (entropy_keypair e) as [kp e']. apply IH, H.
  - destruct (entropy_random e) as [r e']. apply IH, H.
Qed.

Lemma spawn_Forall {A} (Q : Prog A -> Prop) :
  (forall p e, Q p -> Q (fst (settle p e))) ->
  forall (ps : list (Prog A)) (e : Entropy),
    Forall Q ps -> Forall Q (fst (spawn ps e)).
Proof.
  intros HQ ps e H; revert e; induction H as [|p ps Hp H IH]; intros e; simpl.
  - constructor.
  - pose proof (HQ p e Hp) as Hs.
    destruct (settle p e) as [p' e'].
    specialize (IH e'). destruct (spawn ps e') as [ps' e''].
    constructor; assumption.
Qed.

Lemma spawn_Forall2 {A B} (Q : B -> Prog A -> Prop) :
  (forall b p e, Q b p -> Q b (fst (settle p e))) ->
  forall (bs : list B) (ps : list (Prog A)) (e : Entropy),
    Forall2 Q bs ps -> Forall2 Q bs (fst (spawn ps e)).
Proof.
  intros HQ bs ps e H; revert e; induction H as [|b p bs ps Hp H IH]; intros e; simpl.
  - constructor.
  - pose proof (HQ b p e Hp) as Hs.
    destruct (settle p e) as [p' e'].
    specialize (IH e'). destruct (spawn ps e') as [ps' e''].
    constructor; assumption.
Qed.

(** What a promise yields once resumed, the transaction of the resumed
    call counted in. *)
Lemma resume_yields {A} (P : list Transaction -> A -> Prop) (p : Prog A) (w : World) :
  yields P p ->
  yields (fun txs a => P (snd (resume p w) ++ txs) a) (fst (fst (resume p w))).
Proof.
  destruct p as [a|x|address k|tx k|payer size owner k|k|k]; simpl; intros H; auto.
  - pose proof (settle_yields P _ (entropy w)
                  (H (ledger_getAccountInfo (ledger w) address))) as Hs.
    destruct (settle _ _); exact Hs.
  - destruct (ledger_send (ledger w) tx) as [l|]; simpl; [|exact I].
    pose proof (settle_yields _ _ (entropy w) H) as Hs.
    destruct (settle _ _); exact Hs.
  - destruct (ledger_createAccount _ _ _ _) as [[a l]|]; simpl; [|exact I].
    pose proof (settle_yields P _ (entropy w) (H a)) as Hs.
    destruct (settle _ _); exact Hs.
  - destruct (entropy_keypair (entropy w)) as [kp e'].
    pose proof (settle_yields P _ e' (H kp)) as Hs.
    destruct (settle _ _); exact Hs.
  - destruct (entropy_random (entropy w)) as [r e'].
    pose proof (settle_yields P _ e' (H r)) as Hs.
    destruct (settle _ _); exact Hs.
Qed.

(** When [Promise.all] is fulfilled, each value comes with a transaction
    among those submitted, by whichever promise, that stands in [R] to
    it, provided each promise submits such a transaction before it
    returns; [before] is what was submitted earlier. *)
Lemma Promise_all_yields_submitted {A} (R : Transaction -> A -> Prop)
    (schedule : list nat) :
  forall (ps : list (Prog A)) (w : World) (before : list Transaction)
         (values : list A),
    Forall (yields (fun txs a => exists tx, In tx (before ++ txs) /\ R tx a)) ps ->
    result (Promise_all schedule ps w) = Some (Fulfilled values) ->
    Forall
      (fun a => exists tx,
         In tx (before ++ submitted (Promise_all schedule ps w)) /\ R tx a)
      values.
Proof.
  assert (Hdone : forall (ps : list (Prog A)) before values,
            Forall (yields (fun txs a => exists tx, In tx (before ++ txs) /\ R tx a)) ps ->
            all_fulfilled ps = Some values ->
            Forall (fun a => exists tx, In tx (before ++ []) /\ R tx a) values).
  { intros ps before values H; revert values.
    induction H as [|p ps Hp H IH]; intros values Hv; simpl in Hv.
    - inversion Hv; constructor.
    - destruct p; try discriminate.
      destruct (all_fulfilled ps) as [vs|]; simpl in Hv; [|discriminate].
      inversion Hv; subst. constructor; [exact Hp | apply IH; reflexivity]. }
  induction schedule as [|i schedule IH]; intros ps w before values HP Hr;
    simpl in Hr |- *;
    destruct (first_rejected ps); try discriminate;
    destruct (all_fulfilled ps) as [vs|] eqn:Ef;
    try (inversion Hr; subst; eapply Hdone; eassumption);
    try discriminate.
  destruct (nth_error ps i) as [p|] eqn:Ep; [|eapply IH; eassumption].
  assert (Hp : yields (fun txs a => exists tx, In tx (before ++ txs) /\ R tx a) p).
  { rewrite Forall_forall in HP. apply HP. eapply nth_error_In; exact Ep. }
  pose proof (resume_yields _ p w Hp) as Hp'.
  destruct (resume p w) as [[p' w'] txs]. simpl in Hr, Hp' |- *.
  rewrite app_assoc.
  apply IH; [|exact Hr].
  apply replace_nth_Forall.
  - eapply Forall_impl; [|exact HP].
    intros q. apply yields_impl.
    intros t a (tx & Hin & HR). exists tx. split; [|exact HR].
    rewrite <- app_assoc. apply in_app_or in Hin.
    apply in_or_app. destruct Hin as [Hin|Hin]; [left; exact Hin | right].
    apply in_or_app. right; exact Hin.
  - eapply yields_impl; [|exact Hp'].
    intros t a (tx & Hin & HR). exists tx. split; [|exact HR].
    rewrite <- app_assoc. exact Hin.
Qed.

(** When [Promise.all] is fulfilled and each promise submits exactly one
    transaction of a kind before it returns, there are as many
    transactions of that kind among those submitted as there are
    promises; [cs] counts what each promise has submitted earlier. *)
Lemma Promise_all_count {A} (f : Transaction -> bool) (schedule : list nat) :
  forall (ps : list (Prog A)) (w : World) (cs : list nat) (values : list A),
    Forall2 (fun c p => yields (fun txs _ => (c + count f txs = 1)%nat) p) cs ps ->
    result (Promise_all schedule ps w) = Some (Fulfilled values) ->
    (list_sum cs + count f (submitted (Promise_all schedule ps w)) =
     List.length ps)%nat.
Proof.
  assert (Hdone : forall (ps : list (Prog A)) cs values,
            Forall2 (fun c p => yields (fun txs _ => (c + count f txs = 1)%nat) p) cs ps ->
            all_fulfilled ps = Some values ->
            (list_sum cs + count f [] = List.length ps)%nat).
  { intros ps cs values H; revert values.
    induction H as [|c p cs ps Hp H IH]; intros values Hv; simpl in Hv.
    - reflexivity.
    - destruct p; try discriminate.
      destruct (all_fulfilled ps) as [vs|]; simpl in Hv; [|discriminate].
      specialize (IH vs eq_refl). simpl in Hp, IH |- *.
      change (count f []) with 0%nat in *. lia. }
  induction schedule as [|i schedule IH]; intros ps w cs values HP Hr;
    simpl in Hr |- *;
    destruct (first_rejected ps); try discriminate;
    destruct (all_fulfilled ps) as [vs|] eqn:Ef;
    try (inversion Hr; subst; eapply Hdone; eassumption);
    try discriminate.
  destruct (nth_error ps i) as [p|] eqn:Ep; [|eapply IH; eassumption].
  destruct (Forall2_nth_error_right _ _ _ _ _ HP Ep) as (c & Hc & Hp).
  pose proof (resume_yields _ p w Hp) as Hp'.
  destruct (resume p w) as [[p' w'] txs]. simpl in Hr, Hp' |- *.
  rewrite count_app.
  pose proof (IH (replace_nth i p' ps) w' (replace_nth i (c + count f txs)%nat cs)
                values) as Hrec.
  rewrite (list_sum_replace_nth_add _ _ _ _ Hc), length_replace_nth in Hrec.
  rewrite Nat.add_assoc. apply Hrec; [|exact Hr].
  apply replace_nth_Forall2; [exact HP|].
  intros _ _ _ _.
  eapply yields_impl; [|exact Hp'].
  intros t a Ht. simpl in Ht. rewrite count_app in Ht. lia.
Qed.

End Together.

Section Configure.
Context {web3 : Web3} {env : Env}.
Variable this : OpenbookConfigurator.

(** C8.  For every mint list [quoteMint :: rest] and every order in which
    the concurrent [createMarket] calls are resumed: when
    [configureOpenbookV2] returns, it returns one descriptor per mint of
    [rest], in the order of [rest]; the i-th (from 0) has [market_index]
    i, that mint as [base_mint] and [quoteMint] as [quote_mint], so the
    indices are pairwise distinct.  One market has been created per mint
    of [rest]: the transactions submitted hold exactly as many
    create-market instructions as [rest] has mints, and each descriptor
    has its own among them, under the descriptor's name and for the
    market, the book sides, the event heap, the vaults, the mints and
    the oracles the descriptor records.  And on a ledger that accepts
    what it is sent, some order of resumption makes it return. *)
Theorem configureOpenbookV2_indexes
    (quoteMint : PublicKey) (rest : list PublicKey) (w : World) :
  (forall schedule markets,
     let r := run_configureOpenbookV2 schedule this (quoteMint :: rest) w in
     result r = Some (Fulfilled markets) ->
     List.length markets = List.length rest /\
     (forall i m,
        nth_error markets i = Some m ->
        Market.market_index m = Z.of_nat i /\
        nth_error rest i = Some (Market.base_mint m) /\
        Market.quote_mint m = quoteMint /\
        exists tx accs,
          In tx (submitted r) /\
          instruction tx =
            Methods.createMarket (Market.name m)
              {| confFilter := 0; maxStalenessSlots := 100 |} 1 1 0 0 0 accs /\
          describes m accs) /\
     NoDup (map Market.market_index markets) /\
     count is_create_market (submitted r) = List.length rest) /\
  (Cooperative env -> Declared web3 ->
   exists schedule markets,
     result (run_configureOpenbookV2 schedule this (quoteMint :: rest) w) =
       Some (Fulfilled markets)).
Proof.
  unfold run_configureOpenbookV2, configureOpenbookV2.
  cbn [hd_error tl run bind Keypair_generate].
  destruct (entropy_keypair (entropy w)) as [admin e1].
  cbn [run result final ledger entropy defined bind].
  set (promises :=
         map_index
           (fun mint index =>
              createMarket (program this) (anchorProvider this) (mintUtils this)
                admin (openbookProgramId this) mint quoteMint index)
           0 rest).
  split.
  - intros schedule markets.
    set (Ps := map_index
                 (fun mint index m =>
                    Market.market_index m = index /\
                    Market.base_mint m = mint /\
                    Market.quote_mint m = quoteMint)
                 0 rest).
    assert (HPs : Forall2 returns_only Ps promises).
    { apply Forall2_map_index. intros mint index.
      pose proof (createMarket_returns (program this) (anchorProvider this)
                    (mintUtils this) (openbookProgramId this) mint quoteMint
                    admin index) as H.
      revert H. generalize (createMarket (program this) (anchorProvider this)
                    (mintUtils this) admin (openbookProgramId this) mint quoteMint index).
      intros p. induction p; simpl; intros; auto; tauto. }
    set (created := fun (tx : Transaction) (m : Market.t) =>
           exists accs,
             instruction tx =
               Methods.createMarket (Market.name m)
                 {| confFilter := 0; maxStalenessSlots := 100 |} 1 1 0 0 0 accs /\
             describes m accs).
    assert (HRs : Forall
                    (yields (fun txs m =>
                               exists tx, In tx ([] ++ txs) /\ created tx m))
                    promises).
    { apply Forall_map_index. intros mint index.
      eapply yields_impl;
        [|apply (createMarket_creates_its_market (program this)
                   (anchorProvider this) (mintUtils this) (openbookProgramId this)
                   mint quoteMint admin index)].
      intros txs m (_ & tx & accs & Hin & Hi & Hd).
      exists tx. split; [exact Hin|]. exists accs. split; assumption. }
    assert (Hcs : Forall2
                    (fun c p =>
                       yields (fun txs _ => (c + count is_create_market txs = 1)%nat) p)
                    (map_index (fun _ _ => 0%nat) 0 rest) promises).
    { apply Forall2_map_index. intros mint index.
      eapply yields_impl;
        [|apply (createMarket_creates_its_market (program this)
                   (anchorProvider this) (mintUtils this) (openbookProgramId this)
                   mint quoteMint admin index)].
      intros txs m (Hn & _). exact Hn. }
    pose proof (spawn_returns_only Ps promises e1 HPs) as Hs.
    pose proof (spawn_Forall _ (fun p e => settle_yields _ p e) promises e1 HRs)
      as HRs'.
    pose proof (spawn_Forall2 _ (fun c p e => settle_yields _ p e) _ promises e1 Hcs)
      as Hcs'.
    destruct (spawn promises e1) as [ps e2]. cbn [fst] in Hs, HRs', Hcs'.
    intros Hr.
    pose proof (Promise_all_returns_only Ps schedule ps _ markets Hs Hr) as Hm.
    pose proof (Promise_all_yields_submitted created schedule ps _ [] markets
                  HRs' Hr) as Hin.
    pose proof (Promise_all_count is_create_market schedule ps _ _ markets
                  Hcs' Hr) as Hcount.
    rewrite list_sum_map_index_0 in Hcount. cbn [Nat.add] in Hcount.
    rewrite <- (Forall2_length Hcs'), length_map_index in Hcount.
    destruct (Forall2_holds_map_index _ _ _ _ Hm) as [Hlen Hnth].
    assert (Hidx : forall i m, nth_error markets i = Some m ->
                     Market.market_index m = Z.of_nat i /\
                     nth_error rest i = Some (Market.base_mint m) /\
                     Market.quote_mint m = quoteMint).
    { intros i m Him. destruct (Hnth i m Him) as (mint & Hmint & H1 & H2 & H3).
      rewrite Z.add_0_l in H1. subst mint. auto. }
    split; [exact Hlen|]. split; [|split; [|exact Hcount]].
    + intros i m Him.
      destruct (Hidx i m Him) as (H1 & H2 & H3).
      split; [exact H1|]. split; [exact H2|]. split; [exact H3|].
      rewrite Forall_forall in Hin.
      destruct (Hin m (nth_error_In _ _ Him)) as (tx & Htx & accs & Hi & Hd).
      exists tx, accs. auto.
    + apply NoDup_nth_error. intros i j Hi Hij.
      rewrite length_map in Hi.
      rewrite !nth_error_map in Hij.
      destruct (nth_error markets i) as [mi|] eqn:Emi;
        [| apply nth_error_None in Emi; lia].
      destruct (nth_error markets j) as [mj|] eqn:Emj; [|discriminate].
      destruct (Hidx i mi Emi) as [Hi' _], (Hidx j mj Emj) as [Hj' _].
      simpl in Hij. inversion Hij as [Heq]. lia.
  - intros Hc Hd.
    assert (Hns : Forall2 within (map_index (fun _ _ => 12%nat) 0 rest) promises).
    { apply Forall2_map_index. intros mint index.
      apply createMarket_within; exact Hd. }
    pose proof (spawn_within _ promises e1 Hns) as Hs.
    destruct (spawn promises e1) as [ps e2]. simpl in Hs.
    eapply Promise_all_completes; [exact Hc | exact Hs | apply Nat.le_refl].
Qed.

End Configure.

(** ** JavaScript arithmetic: the reference price *)

Lemma digits2_pos_size (p : positive) : digits2_pos p = Pos.size p.
Proof. induction p; simpl; congruence. Qed.

Lemma digits2_pos_bounds (p : positive) :
  2 ^ (Zpos (digits2_pos p) - 1) <= Zpos p < 2 ^ Zpos (digits2_pos p).
Proof.
  rewrite digits2_pos_size.
  pose proof (Pos.size_gt p) as Hgt. pose proof (Pos.size_le p) as Hle.
  split.
  - apply Pos2Z.pos_le_pos in Hle. rewrite Pos2Z.inj_pow in Hle.
    replace (Z.pos (Pos.size p)) with (Z.succ (Z.pos (Pos.size p) - 1)) in Hle by lia.
    rewrite Z.pow_succ_r in Hle by lia. change (Z.pos p~0) with (2 * Z.pos p) in Hle. lia.
  - apply Pos2Z.pos_lt_pos in Hgt. rewrite Pos2Z.inj_pow in Hgt. exact Hgt.
Qed.

Lemma iter_pos_nat {A} (f : A -> A) (p : positive) (x : A) :
  iter_pos f p x = Nat.iter (Pos.to_nat p) f x.
Proof.
  revert x; induction p as [p IH|p IH|]; intros x; cbn [iter_pos].
  - rewrite !IH, Pos2Nat.inj_xI.
    replace (2 * Pos.to_nat p)%nat with (Pos.to_nat p + Pos.to_nat p)%nat by lia.
    rewrite Nat.iter_succ_r, Nat.iter_add. reflexivity.
  - rewrite !IH, Pos2Nat.inj_xO.
    replace (2 * Pos.to_nat p)%nat with (Pos.to_nat p + Pos.to_nat p)%nat by lia.
    rewrite Nat.iter_add. reflexivity.
  - reflexivity.
Qed.

(** [k] shifts to the right of a nonnegative mantissa: the quotient, and
    a round bit that is set only from the half of the last place up. *)
Lemma shr_1_iter (P : Z) (k : nat) :
  0 <= P ->
  let st := Nat.iter k shr_1 {| shr_m := P; shr_r := false; shr_s := false |} in
  shr_m st = P / 2 ^ Z.of_nat k /\
  (shr_r st = true -> 2 ^ Z.of_nat k <= 2 * (P mod 2 ^ Z.of_nat k)).
Proof.
  intros HP. induction k as [|k IH].
  - simpl. rewrite Z.div_1_r. split; [reflexivity | discriminate].
  - cbv zeta in IH |- *. rewrite Nat.iter_succ.
    destruct (Nat.iter k shr_1 _) as [m r s]. cbn [shr_m shr_r] in IH.
    destruct IH as [Hm Hr].
    rewrite Nat2Z.inj_succ, Z.pow_succ_r by lia.
    assert (H2k : 0 < 2 ^ Z.of_nat k) by (apply Z.pow_pos_nonneg; lia).
    assert (Hm0 : 0 <= m) by (rewrite Hm; apply Z.div_pos; lia).
    rewrite (Z.mul_comm 2 (2 ^ Z.of_nat k)).
    rewrite <- Z.div_div by lia. rewrite <- Hm.
    rewrite Z.rem_mul_r by lia. rewrite <- Hm.
    pose proof (Z.mod_pos_bound P (2 ^ Z.of_nat k) H2k).
    destruct m as [|[q|q|]|q]; cbn [shr_1 shr_m shr_r]; try lia.
    + split; [reflexivity | discriminate].
    + split; [rewrite Pos2Z.inj_xI; apply Z.div_unique with 1; lia|].
      intros _. rewrite Pos2Z.inj_xI.
      replace ((2 * Z.pos q + 1) mod 2) with 1
        by (apply Z.mod_unique with (Z.pos q); lia).
      lia.
    + split; [rewrite Pos2Z.inj_xO; apply Z.div_unique with 0; lia|].
      discriminate.
    + split; [reflexivity|]. intros _. change (1 mod 2) with 1. lia.
Qed.

Lemma shr_spec (P E n : Z) :
  0 <= P ->
  let '(mrs, e) := shr {| shr_m := P; shr_r := false; shr_s := false |} E n in
  shr_m mrs = P / 2 ^ Z.max n 0 /\
  e = E + Z.max n 0 /\
  (shr_r mrs = true -> 0 < n /\ 2 ^ n <= 2 * (P mod 2 ^ n)).
Proof.
  intros HP. unfold shr. destruct n as [|p|p].
  - simpl. rewrite Z.div_1_r. repeat split; try lia; discriminate.
  - rewrite iter_pos_nat.
    destruct (shr_1_iter P (Pos.to_nat p) HP) as [Hm Hr].
    rewrite positive_nat_Z in Hm, Hr.
    rewrite Z.max_l by lia. repeat split; auto; lia.
  - simpl. rewrite Z.div_1_r. repeat split; try lia; discriminate.
Qed.

Lemma round_nearest_even_spec (mrs : shr_record) :
  let m := round_nearest_even (shr_m mrs) (loc_of_shr_record mrs) in
  m = shr_m mrs \/ (m = shr_m mrs + 1 /\ shr_r mrs = true).
Proof.
  destruct mrs as [m [|] [|]]; simpl; auto.
  destruct (Z.even m); auto.
Qed.

Lemma round_up_bound (M A B m1 m2 : Z) :
  1 <= M < 2 ^ 53 -> 1 <= A -> 1 <= B -> M < A * B ->
  m1 = (M * 8796093022208000) / A ->
  (m2 = m1 \/ (m2 = m1 + 1 /\ A <= 2 * ((M * 8796093022208000) mod A))) ->
  m2 < 8796093022208000 * B.
Proof.
  intros HM HA HB HAB Hm1 Hm2.
  change (2 ^ 53) with 9007199254740992 in HM.
  set (Y := 8796093022208000) in *.
  set (P := M * Y) in *.
  pose proof (Z.div_mod P A ltac:(lia)) as Hdm.
  pose proof (Z.mod_pos_bound P A ltac:(lia)) as Hmod.
  rewrite <- Hm1 in Hdm.
  assert (HP : P <= A * B * Y - Y) by (unfold P, Y; nia).
  assert (Hlt : m1 < Y * B).
  { rewrite Hm1. apply Z.div_lt_upper_bound; [lia|]. unfold P, Y in *; nia. }
  destruct Hm2 as [-> | [-> Hup]]; [exact Hlt|].
  destruct (Z.eq_dec m1 (Y * B - 1)) as [Heq|Hne]; [|lia].
  exfalso.
  assert (H2Y : 2 * Y <= A) by (subst m1; unfold Y in *; nia).
  assert (HPl : 2 * Y * (Y - 1) <= P) by (subst m1; unfold Y in *; nia).
  unfold P, Y in *. nia.
Qed.

Lemma Zdigits2_bounds (z : Z) :
  0 < z -> 2 ^ (Zdigits2 z - 1) <= z < 2 ^ Zdigits2 z.
Proof.
  destruct z as [|p|p]; try lia. intros _. apply digits2_pos_bounds.
Qed.

Lemma pow2_lt_inv (a b : Z) : 0 <= b -> 2 ^ a < 2 ^ b -> a < b.
Proof.
  intros Hb H. destruct (Z.lt_ge_cases a b) as [|Hge]; [assumption|].
  apply (Z.pow_le_mono_r 2) in Hge; lia.
Qed.

(** The product of a binary64 below 1 with 1000 is zero or a positive
    binary64 below 1000. *)
Lemma mul_1000_below (m : positive) (e : Z) :
  e <= -53 -> Zpos m < 2 ^ 53 ->
  let x := SFmul 53 1024 (S754_finite false m e)
                 (S754_finite false 8796093022208000 (-43)) in
  x = S754_zero false \/
  exists m' e', x = S754_finite false m' e' /\ e' <= -43 /\
                Zpos m' < 1000 * 2 ^ (- e').
Proof.
  intros He Hm. cbv zeta.
  unfold SFmul, binary_round_aux, shr_fexp. cbn [xorb shr_record_of_loc].
  rewrite Pos2Z.inj_mul.
  set (Y := 8796093022208000) in *.
  set (P := Z.pos m * Y).
  set (E := e + -43).
  assert (HP0 : 0 < P) by (unfold P, Y; lia).
  assert (HY : 2 ^ 52 < Y < 2 ^ 53) by (unfold Y; split; reflexivity).
  pose proof (Zdigits2_bounds P HP0) as Hd.
  set (d := Zdigits2 P) in *.
  assert (Hd53 : 53 <= d).
  { assert (2 ^ 52 < 2 ^ d) by (unfold P in Hd; nia).
    assert (52 < d); [|lia].
    apply pow2_lt_inv; [|assumption].
    destruct (Z.le_gt_cases 0 d); [assumption|].
    rewrite (Z.pow_neg_r 2 d) in H by lia. lia. }
  assert (Hpe : 2 ^ 53 <= 2 ^ (- e)) by (apply Z.pow_le_mono_r; lia).
  assert (HdE : d + E <= 10).
  { assert (2 ^ (d - 1) < 2 ^ (53 - e)).
    { replace (53 - e) with (- e + 53) by lia.
      rewrite Z.pow_add_r by lia. unfold P in Hd. nia. }
    apply pow2_lt_inv in H; unfold E; lia. }
  unfold fexp, emin.
  set (t := Z.max (d + E - 53) (3 - 1024 - 53)).
  assert (Ht : E <= t <= -43) by (unfold t; lia).
  pose proof (shr_spec P E (t - E) ltac:(lia)) as Hs1.
  destruct (shr {| shr_m := P; shr_r := false; shr_s := false |} E (t - E))
    as [mrs1 e1].
  destruct Hs1 as (Hm1 & He1 & Hr1).
  rewrite Z.max_l in Hm1, He1 by lia.
  replace (E + (t - E)) with t in He1 by lia. subst e1.
  pose proof (round_nearest_even_spec mrs1) as Hrne. cbv zeta in Hrne.
  set (m2 := round_nearest_even (shr_m mrs1) (loc_of_shr_record mrs1)) in *.
  set (n := t - E) in *. set (s := -43 - t).
  assert (Hn : 0 <= n) by (unfold n; lia).
  assert (Hs : 0 <= s) by (unfold s; lia).
  assert (HAB : 2 ^ (- e) = 2 ^ n * 2 ^ s).
  { rewrite <- Z.pow_add_r by lia. f_equal. unfold n, s, E. lia. }
  assert (HA : 1 <= 2 ^ n) by (pose proof (Z.pow_pos_nonneg 2 n); lia).
  assert (HB : 1 <= 2 ^ s) by (pose proof (Z.pow_pos_nonneg 2 s); lia).
  assert (Hm2 : m2 < Y * 2 ^ s).
  { apply (round_up_bound (Z.pos m) (2 ^ n) (2 ^ s) (shr_m mrs1) m2);
      try lia.
    - exact Hm1.
    - destruct Hrne as [H|[H Hr]]; [left; exact H | right].
      split; [exact H|]. apply Hr1 in Hr. tauto. }
  assert (Hm20 : 0 <= m2).
  { assert (0 <= shr_m mrs1) by (rewrite Hm1; apply Z.div_pos; lia).
    destruct Hrne as [H0|[H0 _]]; lia. }
  assert (Hm2' : m2 < 1000 * 2 ^ (- t)).
  { replace (- t) with (43 + s) by (unfold s; lia).
    rewrite Z.pow_add_r by lia. unfold Y in Hm2.
    change (2 ^ 43) with 8796093022208. lia. }
  pose proof (shr_spec m2 t (Z.max (Zdigits2 m2 + t - 53) (3 - 1024 - 53) - t) Hm20)
    as Hs2.
  destruct (shr {| shr_m := m2; shr_r := false; shr_s := false |} t
              (Z.max (Zdigits2 m2 + t - 53) (3 - 1024 - 53) - t))
    as [mrs2 e2].
  destruct Hs2 as (Hm3 & He2 & _).
  set (n2 := Z.max (Z.max (Zdigits2 m2 + t - 53) (3 - 1024 - 53) - t) 0) in *.
  assert (Hn2 : 0 <= n2) by (unfold n2; lia).
  assert (He2' : e2 <= -43).
  { subst e2. unfold n2.
    destruct (Z.eq_dec m2 0) as [->|Hne]; [simpl; lia|].
    pose proof (Zdigits2_bounds m2 ltac:(lia)) as Hd2.
    assert (2 ^ (Zdigits2 m2 - 1) < 2 ^ (10 - t)).
    { replace (10 - t) with (10 + - t) by lia. rewrite Z.pow_add_r by lia.
      change (2 ^ 10) with 1024.
      pose proof (Z.pow_pos_nonneg 2 (- t)). lia. }
    apply pow2_lt_inv in H; lia. }
  assert (Hm3' : shr_m mrs2 < 1000 * 2 ^ (- e2)).
  { rewrite Hm3. apply Z.div_lt_upper_bound; [apply Z.pow_pos_nonneg; lia|].
    replace (2 ^ n2 * (1000 * 2 ^ (- e2))) with (1000 * 2 ^ (- t)); [exact Hm2'|].
    replace (- t) with (n2 + - e2) by lia.
    rewrite Z.pow_add_r by lia. ring. }
  assert (Hm30 : 0 <= shr_m mrs2) by (rewrite Hm3; apply Z.div_pos; [lia|apply Z.pow_pos_nonneg; lia]).
  destruct (shr_m mrs2) as [|m3|m3]; [left; reflexivity | right | lia].
  replace (e2 <=? 1024 - 53) with true by (symmetry; apply Z.leb_le; lia).
  exists m3, e2. auto.
Qed.

Lemma same_eq (a b : JS.number) : JS.same a b = true -> a = b.
Proof.
  destruct a, b; simpl; try discriminate; intros H.
  - apply Bool.eqb_prop in H; congruence.
  - apply Bool.eqb_prop in H; congruence.
  - reflexivity.
  - apply andb_prop in H; destruct H as [H He].
    apply andb_prop in H; destruct H as [Hs Hm].
    apply Bool.eqb_prop in Hs. apply Pos.eqb_eq in Hm. apply Z.eqb_eq in He.
    congruence.
Qed.

Lemma unit_interval_inv (r : JS.number) :
  JS.unit_interval r = true ->
  r = S754_zero false \/
  exists m e, r = S754_finite false m e /\ e <= -53 /\ Zpos m < 2 ^ 53.
Proof.
  unfold JS.unit_interval, JS.valid, JS.leb, JS.ltb, SFleb, SFltb.
  change (JS.of_Z 1) with (S754_finite false 4503599627370496 (-52)).
  intros H.
  apply andb_prop in H; destruct H as [H Hsign].
  apply andb_prop in H; destruct H as [H Hlt].
  apply andb_prop in H; destruct H as [Hvalid Hle].
  destruct r as [s|s| |s m e]; cbn [SFcompare valid_binary negb] in *.
  - left. destruct s; [discriminate | reflexivity].
  - destruct s; discriminate.
  - discriminate.
  - right. destruct s; [discriminate|].
    exists m, e. split; [reflexivity|].
    unfold bounded, canonical_mantissa, fexp, emin, JS.prec, JS.emax in Hvalid.
    apply andb_prop in Hvalid; destruct Hvalid as [Hc _].
    apply Z.eqb_eq in Hc.
    pose proof (digits2_pos_bounds m) as Hd.
    assert (Hd53 : Z.pos (digits2_pos m) <= 53) by lia.
    assert (Hm : Z.pos m < 2 ^ 53).
    { eapply Z.lt_le_trans; [apply Hd|]. apply Z.pow_le_mono_r; lia. }
    split; [|exact Hm].
    destruct (Z.compare_spec e (-52)) as [Heq|Hlt'|Hgt]; try discriminate; [|lia].
    exfalso. subst e.
    destruct (Pos.compare_cont Eq m 4503599627370496) eqn:Ec; try discriminate.
    assert (Hmlt : (m < 4503599627370496)%positive) by exact Ec.
    apply Pos2Z.pos_lt_pos in Hmlt.
    assert (Hd' : Z.pos (digits2_pos m) = 53) by (clear - Hc; lia).
    rewrite Hd' in Hd. destruct Hd as [Hd _].
    change (2 ^ (53 - 1)) with 4503599627370496 in Hd.
    clear - Hd Hmlt. lia.
Qed.

Lemma Zfloor_mul_1000 (r : JS.number) :
  JS.unit_interval r = true ->
  0 <= JS.Zfloor (JS.mul r (JS.of_Z 1000)) <= 999 /\
  JS.Math_floor (JS.mul r (JS.of_Z 1000)) =
    JS.of_Z (JS.Zfloor (JS.mul r (JS.of_Z 1000))).
Proof.
  intros H. change (JS.of_Z 1000) with (S754_finite false 8796093022208000 (-43)).
  destruct (unit_interval_inv r H) as [->|(m & e & -> & He & Hm)].
  - change (JS.mul (S754_zero false) (S754_finite false 8796093022208000 (-43)))
      with (S754_zero false).
    change (JS.Zfloor (S754_zero false)) with 0.
    split; [lia | reflexivity].
  - unfold JS.mul, JS.prec, JS.emax.
    destruct (mul_1000_below m e He Hm) as [->|(m' & e' & -> & He' & Hm')].
    + change (JS.Zfloor (S754_zero false)) with 0.
      split; [lia | reflexivity].
    + split; [|reflexivity].
      unfold JS.Zfloor. cbn [cond_Zopp].
      rewrite Z.shiftl_div_pow2 by lia.
      assert (0 < 2 ^ (- e')) by (apply Z.pow_pos_nonneg; lia).
      split; [apply Z.div_pos; lia|].
      assert (Z.pos m' / 2 ^ (- e') < 1000); [|lia].
      apply Z.div_lt_upper_bound; lia.
Qed.

Lemma price_table (toString : JS.number -> string) :
  forallb
    (fun k =>
       JS.same (JS.add (JS.of_Z k) (JS.of_Z 100)) (JS.of_Z (k + 100)) &&
       String.eqb (JS.toFixed toString (JS.of_Z (k + 100)) 2)
                  (JS.digits_of_Z (k + 100) ++ ".00") &&
       JS.same (JS.parseFloat (JS.digits_of_Z (k + 100) ++ ".00"))
               (JS.of_Z (k + 100)))
    (Zrange 0 1000) = true.
Proof. vm_compute. reflexivity. Qed.

Lemma price_table_at (toString : JS.number -> string) (k : Z) :
  0 <= k <= 999 ->
  JS.add (JS.of_Z k) (JS.of_Z 100) = JS.of_Z (k + 100) /\
  JS.toFixed toString (JS.of_Z (k + 100)) 2 =
    (JS.digits_of_Z (k + 100) ++ ".00")%string /\
  JS.parseFloat (JS.digits_of_Z (k + 100) ++ ".00") = JS.of_Z (k + 100).
Proof.
  intros Hk.
  pose proof (price_table toString) as H.
  rewrite forallb_forall in H.
  specialize (H k).
  assert (Hin : In k (Zrange 0 1000)).
  { unfold Zrange. apply in_map_iff. exists (Z.to_nat k).
    split; [lia|]. apply in_seq. lia. }
  apply H in Hin.
  apply andb_prop in Hin; destruct Hin as [Hin H3].
  apply andb_prop in Hin; destruct Hin as [H1 H2].
  apply same_eq in H1, H3. apply String.eqb_eq in H2. auto.
Qed.

Section ReferencePrice.
Context {web3 : Web3} {env : Env}.

Lemma createMarket_price
    (program : Program) (anchorProvider : TestProvider) (mintUtils : MintUtils)
    (adminKp : Keypair) (openbookProgramId baseMint quoteMint : PublicKey)
    (index : Z) (w : World) (m : Market.t) :
  result (run (createMarket program anchorProvider mintUtils adminKp
                 openbookProgramId baseMint quoteMint index) w) = Fulfilled m ->
  result (run reference_price w) = Fulfilled (Market.price m).
Proof.
  unfold createMarket.
  destruct (findProgramAddressSync _ _) as [oracleA bumpA].
  destruct (findProgramAddressSync _ _) as [oracleB bumpB].
  rewrite run_bind.
  destruct (result (run reference_price w)) as [price|x] eqn:Ep; [|discriminate].
  cbv zeta. cbn [result]. intros Hm. f_equal.
  eapply (run_returns_only (fun m => price = Market.price m)); [|exact Hm].
  repeat match goal with
  | |- context [getAccountSize ?n] =>
      let E := fresh "Esize" in
      destruct (getAccountSize_cases n) as [[? E]|E]; rewrite E
  end;
  repeat (simpl; intros;
          match goal with
          | |- context [match ?x with _ => _ end] => destruct x
          end);
  simpl; auto.
Qed.

(** C10.  For every draw [r] of [Math.random()], a binary64 in [0, 1), the
    reference price is the integer [Math.floor(r * 1000) + 100], the
    product being the rounded binary64 product; it lies between 100 and
    1099; its [toFixed(2)] text is its decimal digits followed by ".00",
    and [parseFloat] of that text is the same number.  That number is the
    [price] of the descriptor [createMarket] returns. *)
Theorem reference_price_integer (w : World) :
  let r := fst (entropy_random (entropy w)) in
  JS.unit_interval r = true ->
  exists k : Z,
    100 <= k <= 1099 /\
    k = JS.Zfloor (JS.mul r (JS.of_Z 1000)) + 100 /\
    result (run reference_price w) = Fulfilled (JS.of_Z k) /\
    JS.toFixed Number_toString (JS.of_Z k) 2 =
      (JS.digits_of_Z k ++ ".00")%string /\
    JS.parseFloat (JS.toFixed Number_toString (JS.of_Z k) 2) = JS.of_Z k /\
    forall program anchorProvider mintUtils adminKp
           openbookProgramId baseMint quoteMint index m,
      result (run (createMarket program anchorProvider mintUtils adminKp
                     openbookProgramId baseMint quoteMint index) w) = Fulfilled m ->
      Market.price m = JS.of_Z k.
Proof.
  intros r Hr.
  destruct (Zfloor_mul_1000 r Hr) as [Hk Hfloor].
  set (k0 := JS.Zfloor (JS.mul r (JS.of_Z 1000))) in *.
  destruct (price_table_at Number_toString k0 Hk) as (Hadd & Htext & Hparse).
  assert (Hrun : result (run reference_price w) = Fulfilled (JS.of_Z (k0 + 100))).
  { unfold reference_price, getRandomInt. simpl.
    subst r. destruct (entropy_random (entropy w)) as [r e]. simpl in *.
    fold k0 in Hfloor. rewrite Hfloor, Hadd, Htext, Hparse. reflexivity. }
  exists (k0 + 100).
  split; [lia|]. split; [reflexivity|]. split; [exact Hrun|].
  split; [exact Htext|]. split; [rewrite Htext; exact Hparse|].
  intros program anchorProvider mintUtils adminKp openbookProgramId
         baseMint quoteMint index m Hm.
  apply createMarket_price in Hm. rewrite Hrun in Hm. congruence.
Qed.

End ReferencePrice.

(** ** The mock ledger meets the assumptions *)

Lemma Buffer_eqb_refl (a : Buffer) : Buffer_eqb a a = true.
Proof. apply Buffer_eqb_eq; reflexivity. Qed.

Lemma mock_create_exists (strict : bool) (l l' : Mock.ledger_state) (a : PublicKey) :
  Mock.create strict l a = Some l' -> Mock.exists_at l' a = true.
Proof.
  unfold Mock.create. destruct (Mock.exists_at l a) eqn:E.
  - destruct strict; [discriminate|]. intros H; inversion H; subst; exact E.
  - intros H; inversion H; subst. unfold Mock.exists_at. simpl.
    rewrite Buffer_eqb_refl. reflexivity.
Qed.

Lemma mock_create_keeps (strict : bool) (l l' : Mock.ledger_state) (a b : PublicKey) :
  Mock.create strict l a = Some l' ->
  Mock.exists_at l b = true -> Mock.exists_at l' b = true.
Proof.
  unfold Mock.create. destruct (Mock.exists_at l a).
  - destruct strict; [discriminate|]. intros H; inversion H; subst; auto.
  - intros H Hb; inversion H; subst. unfold Mock.exists_at in *. simpl.
    rewrite Hb. apply orb_true_r.
Qed.

Lemma mock_send_keeps (strict : bool) (l l' : Mock.ledger_state)
    (tx : Transaction) (b : PublicKey) :
  Mock.send strict l tx = Some l' ->
  Mock.exists_at l b = true -> Mock.exists_at l' b = true.
Proof.
  unfold Mock.send. destruct (instruction tx);
    try (apply mock_create_keeps);
    intros H; inversion H; subst; auto.
Qed.

Lemma mock_info (strict : bool) (l : Mock.ledger_state) (a : PublicKey) :
  @ledger_getAccountInfo (Mock.world strict) l a <> None <->
  Mock.exists_at l a = true.
Proof.
  simpl. destruct (Mock.exists_at l a); split; congruence.
Qed.

Lemma mock_lenient_cooperative : Cooperative Mock.lenient.
Proof.
  split.
  - intros l tx. simpl. unfold Mock.send, Mock.create.
    destruct (instruction tx); try discriminate;
      destruct (Mock.exists_at l _); discriminate.
  - intros l payer size owner. simpl. discriminate.
Qed.

Lemma mock_declared : Declared Mock.web3.
Proof. split; eexists; reflexivity. Qed.

Lemma mock_lenient_persistent : Persistent Mock.lenient.
Proof.
  split.
  - intros l tx l' price accs Hs Hi. apply mock_info.
    simpl in Hs. unfold Mock.send in Hs. rewrite Hi in Hs.
    eapply mock_create_exists; exact Hs.
  - intros l tx l' a Hs Ha. apply mock_info. apply mock_info in Ha.
    exact (mock_send_keeps _ _ _ _ _ Hs Ha).
  - intros l payer size owner address l' a Hs Ha.
    apply mock_info. apply mock_info in Ha.
    simpl in Hs. inversion Hs; subst. unfold Mock.exists_at in *. simpl.
    rewrite Ha. apply orb_true_r.
Qed.

Lemma mock_strict_initialises_once : InitialisesOnce Mock.strict.
Proof.
  split.
  - intros l tx l' accs Hs Hi. apply mock_info.
    simpl in Hs. unfold Mock.send in Hs. rewrite Hi in Hs.
    eapply mock_create_exists; exact Hs.
  - intros l tx l' a Hs Ha. apply mock_info. apply mock_info in Ha.
    exact (mock_send_keeps _ _ _ _ _ Hs Ha).
  - intros l tx accs Hi Ha. apply mock_info in Ha.
    simpl. unfold Mock.send, Mock.create. rewrite Hi, Ha. reflexivity.
Qed.

(** ** The theorems at work on the mock ledger *)

(** C1, counterexample.  The market identity generated in the call signs
    the create-market transaction, and the descriptor's [admin] field is
    not its secret key. *)
Lemma createMarket_admin_not_identity_secret :
  let r := run (createMarket (program Mock.configurator)
                  (anchorProvider Mock.configurator) Build_MintUtils
                  Mock.authority Mock.openbook Mock.sol Mock.usdc 0)
               Mock.initial in
  exists m tx,
    result r = Fulfilled m /\
    In tx (submitted r) /\
    creates_market_as (market_identity Mock.initial) tx /\
    In (market_identity Mock.initial) (signers tx) /\
    Market.admin m <> Array_from (secretKey (market_identity Mock.initial)).
Proof.
  cbv zeta. eexists. eexists.
  split; [vm_compute; reflexivity|].
  split; [vm_compute; do 4 right; left; reflexivity|].
  split; [unfold creates_market_as; vm_compute; repeat eexists|].
  split; [vm_compute; right; left; reflexivity|].
  vm_compute. intros H; discriminate H.
Qed.

Lemma createMarket_admin_is_payer_secret_witness :
  Cooperative Mock.lenient /\ Declared Mock.web3 /\
  exists m,
    result (run (createMarket (program Mock.configurator)
                   (anchorProvider Mock.configurator) Build_MintUtils
                   Mock.other_admin Mock.openbook Mock.sol Mock.usdc 0)
                Mock.initial) = Fulfilled m /\
    Market.admin m = Array_from (secretKey Mock.authority).
Proof.
  split; [exact mock_lenient_cooperative|]. split; [exact mock_declared|].
  destruct (createMarket_admin_is_payer_secret
              (program Mock.configurator) (anchorProvider Mock.configurator)
              Build_MintUtils Mock.openbook Mock.sol Mock.usdc
              Mock.other_admin 0 Mock.initial
              mock_lenient_cooperative mock_declared)
    as (m & tx & Hm & Hadmin & _).
  exists m. split; [exact Hm | exact Hadmin].
Defined.

(** C2, counterexample.  Called with an admin key other than the
    provider's, [createMarket] derives the base oracle from another key
    and submits an oracle instruction that the admin key does not sign. *)
Lemma createMarket_ignores_supplied_admin :
  let r := run (createMarket (program Mock.configurator)
                  (anchorProvider Mock.configurator) Build_MintUtils
                  Mock.other_admin Mock.openbook Mock.sol Mock.usdc 0)
               Mock.initial in
  exists m tx,
    result r = Fulfilled m /\
    Market.oracle_a m <> oracle_address Mock.other_admin Mock.sol Mock.openbook /\
    In tx (submitted r) /\
    is_oracle_instruction tx = true /\
    signers tx <> [Mock.other_admin].
Proof.
  cbv zeta. eexists. eexists.
  split; [vm_compute; reflexivity|].
  split; [vm_compute; intros H; discriminate H|].
  split; [vm_compute; left; reflexivity|].
  split; [vm_compute; reflexivity|].
  vm_compute. intros H; discriminate H.
Qed.

Lemma createMarket_oracles_of_payer_witness :
  Cooperative Mock.lenient /\ Declared Mock.web3 /\
  exists m,
    result (run (createMarket (program Mock.configurator)
                   (anchorProvider Mock.configurator) Build_MintUtils
                   Mock.other_admin Mock.openbook Mock.sol Mock.usdc 0)
                Mock.initial) = Fulfilled m /\
    Market.oracle_a m = oracle_address Mock.authority Mock.sol Mock.openbook.
Proof.
  split; [exact mock_lenient_cooperative|]. split; [exact mock_declared|].
  destruct (createMarket_oracles_of_payer
              (program Mock.configurator) (anchorProvider Mock.configurator)
              Build_MintUtils Mock.openbook Mock.sol Mock.usdc
              Mock.other_admin 0 Mock.initial
              mock_lenient_cooperative mock_declared)
    as (_ & (m & Hm & Ha & _) & _).
  exists m. split; [exact Hm | exact Ha].
Defined.

(** C3, at the failing input.  The user holds a token account for the
    mint at the market's base-mint address, as another object; the sell
    order is submitted with no user token account. *)
Lemma fillOrderBook_sell_misses_equal_mint :
  let r := run (fillOrderBook Mock.configurator Mock.bob_reloaded Mock.alice
                  Mock.sol_market 1) Mock.initial in
  (exists entry,
     In entry (User.token_data Mock.bob_reloaded) /\
     equals (TokenAccountData.mint entry) (Market.base_mint Mock.sol_market) = true /\
     strict_equal (TokenAccountData.mint entry)
                  (Market.base_mint Mock.sol_market) = false) /\
  exists tx args accs,
    nth_error (submitted r) 1 = Some tx /\
    instruction tx = Methods.placeOrder args accs /\
    PlaceOrder.side args = Side.ask /\
    PlaceOrder.userTokenAccount accs = None.
Proof.
  cbv zeta. split.
  - eexists. split; [right; left; reflexivity|]. split; reflexivity.
  - do 3 eexists. split; [vm_compute; reflexivity|].
    split; [reflexivity|]. split; reflexivity.
Qed.

(** With the very object, the same user is served. *)
Lemma fillOrderBook_sell_finds_same_object :
  let r := run (fillOrderBook Mock.configurator Mock.bob Mock.alice
                  Mock.sol_market 1) Mock.initial in
  exists tx args accs,
    nth_error (submitted r) 1 = Some tx /\
    instruction tx = Methods.placeOrder args accs /\
    PlaceOrder.side args = Side.ask /\
    PlaceOrder.userTokenAccount accs = Some (Mock.address 51 [51]).
Proof.
  cbv zeta. do 3 eexists. split; [vm_compute; reflexivity|].
  split; [reflexivity|]. split; reflexivity.
Qed.

Lemma fillOrderBook_ladder_witness :
  Cooperative Mock.lenient /\
  at_index (User.open_orders Mock.bob)
           (Market.market_index Mock.sol_market) <> None /\
  (exists entry,
     In entry (User.token_data Mock.bob) /\
     strict_equal (TokenAccountData.mint entry)
                  (Market.base_mint Mock.sol_market) = true) /\
  2 * Z.of_nat 3 < 2 ^ 53 /\
  List.length
    (submitted (run (fillOrderBook Mock.configurator Mock.bob Mock.alice
                       Mock.sol_market (Z.of_nat 3)) Mock.initial)) = 6%nat.
Proof.
  assert (H1 : at_index (User.open_orders Mock.bob)
                 (Market.market_index Mock.sol_market) <> None)
    by (vm_compute; discriminate).
  assert (H2 : exists entry,
             In entry (User.token_data Mock.bob) /\
             strict_equal (TokenAccountData.mint entry)
                          (Market.base_mint Mock.sol_market) = true).
  { destruct (find (fun x => strict_equal (TokenAccountData.mint x)
                               (Market.base_mint Mock.sol_market))
                   (User.token_data Mock.bob)) as [entry|] eqn:E;
      [|vm_compute in E; discriminate E].
    exists entry. apply find_some in E. exact E. }
  assert (H3 : 2 * Z.of_nat 3 < 2 ^ 53) by (vm_compute; reflexivity).
  split; [exact mock_lenient_cooperative|]. split; [exact H1|]. split; [exact H2|].
  split; [exact H3|].
  destruct (fillOrderBook_ladder Mock.configurator Mock.bob Mock.alice
              Mock.sol_market 3 Mock.initial mock_lenient_cooperative H1 H2 H3)
    as (_ & Hlen & _).
  exact Hlen.
Defined.

Lemma createMarket_oracle_setup_witness :
  Cooperative Mock.lenient /\ Persistent Mock.lenient /\ Declared Mock.web3 /\
  let A := oracle_address Mock.authority Mock.sol Mock.openbook in
  let r1 := run (createMarket (program Mock.configurator)
                   (anchorProvider Mock.configurator) Build_MintUtils
                   Mock.other_admin Mock.openbook Mock.sol Mock.usdc 0)
                Mock.initial in
  let r2 := run (createMarket (program Mock.configurator)
                   (anchorProvider Mock.configurator) Build_MintUtils
                   Mock.other_admin Mock.openbook Mock.sol Mock.usdc 1)
                (final r1) in
  (count (creates_oracle A) (submitted r1 ++ submitted r2) <= 1)%nat.
Proof.
  split; [exact mock_lenient_cooperative|].
  split; [exact mock_lenient_persistent|]. split; [exact mock_declared|].
  destruct (createMarket_oracle_setup
              (program Mock.configurator) (anchorProvider Mock.configurator)
              Build_MintUtils Mock.openbook Mock.sol Mock.usdc
              Mock.other_admin Mock.other_admin 0 1 Mock.initial
              mock_lenient_cooperative mock_lenient_persistent mock_declared)
    as (_ & Hc & _).
  exact Hc.
Defined.

Lemma configureMarketForUser_handles_witness :
  Cooperative Mock.lenient /\
  Z.of_nat (List.length [Mock.sol_market; Mock.sol_market]) < 2 ^ 32 /\
  exists handles,
    result (run (configureMarketForUser Mock.configurator Mock.alice
                   [Mock.sol_market; Mock.sol_market]) Mock.initial) =
      Fulfilled handles /\
    List.length handles = 2%nat.
Proof.
  assert (H : Z.of_nat (List.length [Mock.sol_market; Mock.sol_market]) < 2 ^ 32)
    by reflexivity.
  split; [exact mock_lenient_cooperative|]. split; [exact H|].
  destruct (configureMarketForUser_handles Mock.configurator Mock.alice
              [Mock.sol_market; Mock.sol_market] Mock.initial
              mock_lenient_cooperative H)
    as (handles & Hr & Hlen & _).
  exists handles. split; [exact Hr | exact Hlen].
Defined.

Lemma configureMarketForUser_twice_rejected_witness :
  InitialisesOnce Mock.strict /\
  let r1 := run (configureMarketForUser Mock.configurator Mock.alice
                   [Mock.sol_market]) Mock.initial_strict in
  let r2 := run (configureMarketForUser Mock.configurator Mock.alice
                   [Mock.sol_market]) (final r1) in
  exists tx l1 handles,
    result r1 = Fulfilled handles /\
    hd_error (submitted r1) = Some tx /\
    ledger_send (ledger Mock.initial_strict) tx = Some l1 /\
    result r2 = Rejected (SendTransactionError tx).
Proof.
  split; [exact mock_strict_initialises_once|]. cbv zeta.
  destruct (hd_error
              (submitted
                 (run (configureMarketForUser Mock.configurator Mock.alice
                         [Mock.sol_market]) Mock.initial_strict)))
    as [tx|] eqn:Hhd; [|vm_compute in Hhd; discriminate Hhd].
  destruct (@ledger_send Mock.strict (ledger Mock.initial_strict) tx)
    as [l1|] eqn:Hsend;
    [|vm_compute in Hhd; inversion Hhd; subst tx;
      vm_compute in Hsend; discriminate Hsend].
  exists tx, l1. eexists.
  split; [vm_compute; reflexivity|].
  split; [first [reflexivity | exact Hhd]|].
  split; [first [reflexivity | exact Hsend]|].
  destruct (configureMarketForUser_twice_rejected Mock.configurator Mock.alice
              [Mock.sol_market] [Mock.sol_market] Mock.initial_strict tx l1
              mock_strict_initialises_once Hhd Hsend)
    as (_ & _ & Hr2 & _).
  exact Hr2.
Defined.

Lemma configureOpenbookV2_indexes_witness :
  Cooperative Mock.lenient /\ Declared Mock.web3 /\
  exists markets,
    let r := run_configureOpenbookV2
               (flat_map (fun _ => [0%nat; 1%nat]) (seq 0 12))
               Mock.configurator [Mock.usdc; Mock.sol; Mock.eth] Mock.initial in
    result r = Some (Fulfilled markets) /\
    List.length markets = 2%nat /\
    NoDup (map Market.market_index markets) /\
    count is_create_market (submitted r) = 2%nat.
Proof.
  split; [exact mock_lenient_cooperative|]. split; [exact mock_declared|].
  destruct (configureOpenbookV2_indexes Mock.configurator Mock.usdc
              [Mock.sol; Mock.eth] Mock.initial) as [Hall _].
  destruct (result (run_configureOpenbookV2
                      (flat_map (fun _ => [0%nat; 1%nat]) (seq 0 12))
                      Mock.configurator [Mock.usdc; Mock.sol; Mock.eth]
                      Mock.initial))
    as [[markets|e]|] eqn:Hr;
    [| vm_compute in Hr; discriminate Hr | vm_compute in Hr; discriminate Hr].
  destruct (Hall _ markets Hr) as (Hlen & _ & Hnd & Hcount).
  exists markets. cbv zeta.
  split; [exact Hr|]. split; [exact Hlen|]. split; [exact Hnd | exact Hcount].
Defined.

Lemma fillOrderBook_open_orders_by_position_witness :
  let r := run (fillOrderBook Mock.configurator Mock.bob_misfiled Mock.alice
                  Mock.sol_market 1) Mock.initial in
  OpenOrders.market Mock.other_handle <> Market.market_pk Mock.sol_market /\
  (exists tx args accs,
     In tx (submitted r) /\
     instruction tx = Methods.placeOrder args accs /\
     PlaceOrder.openOrdersAccount accs = OpenOrders.open_orders Mock.other_handle) /\
  fillOrderBook Mock.configurator Mock.bob_misfiled Mock.alice Mock.sol_market 1 =
  fillOrderBook Mock.configurator Mock.bob Mock.alice Mock.sol_market 1.
Proof.
  cbv zeta.
  destruct (fillOrderBook_open_orders_by_position Mock.configurator Mock.bob
              Mock.alice Mock.sol_market 1 Mock.initial) as [_ Hsame].
  destruct (fillOrderBook_open_orders_by_position Mock.configurator
              Mock.bob_misfiled Mock.alice Mock.sol_market 1 Mock.initial)
    as [Hall _].
  split; [vm_compute; intros H; discriminate H|]. split.
  - destruct (submitted (run (fillOrderBook Mock.configurator Mock.bob_misfiled
                                Mock.alice Mock.sol_market 1) Mock.initial))
      as [|tx rest] eqn:E; [vm_compute in E; discriminate E|].
    destruct (Hall tx (or_introl eq_refl)) as (h & args & accs & H1 & H2 & H3).
    exists tx, args, accs. split; [left; reflexivity|]. split; [exact H2|].
    rewrite H3. vm_compute in H1. inversion H1. reflexivity.
  - apply Hsame; reflexivity.
Defined.

Lemma reference_price_integer_witness :
  JS.unit_interval (fst (entropy_random (entropy Mock.initial))) = true /\
  exists k,
    100 <= k <= 1099 /\
    result (run reference_price Mock.initial) = Fulfilled (JS.of_Z k).
Proof.
  assert (H : JS.unit_interval (fst (entropy_random (entropy Mock.initial))) = true)
    by (vm_compute; reflexivity).
  split; [exact H|].
  destruct (reference_price_integer Mock.initial H) as (k & Hk & _ & Hr & _).
  exists k. split; [exact Hk | exact Hr].
Defined.

(** * Further properties *)

(** ** Runs that return *)

Section RunYields.
Context {env : Env}.

Lemma run_yields {A} (P : list Transaction -> A -> Prop) (p : Prog A) (w : World) (a : A) :
  yields P p -> result (run p w) = Fulfilled a -> P (submitted (run p w)) a.
Proof.
  revert P w; induction p as [b|e|address k IH|tx k IH|payer size owner k IH|k IH|k IH];
    intros P w; simpl; intros HP Hr.
  - inversion Hr; subst; exact HP.
  - discriminate.
  - eapply IH; eauto.
  - destruct (ledger_send (ledger w) tx) as [l|]; simpl in *; [|discriminate].
    apply (IH (fun txs => P (tx :: txs))); assumption.
  - destruct (ledger_createAccount (ledger w) payer size owner) as [[b l]|];
      simpl in *; [eapply IH; eauto | discriminate].
  - destruct (entropy_keypair (entropy w)) as [kp e]; eapply IH; eauto.
  - destruct (entropy_random (entropy w)) as [r e]; eapply IH; eauto.
Qed.

End RunYields.

Lemma returns_only_impl {A} (P Q : A -> Prop) (p : Prog A) :
  (forall a, P a -> Q a) -> returns_only P p -> returns_only Q p.
Proof. intros H; induction p; simpl; auto. Qed.

(** From a run that returned to what its computation yields. *)
Ltac read_run Hr :=
  match type of Hr with
  | result ?R = Fulfilled ?a =>
      pattern (submitted R), a; eapply run_yields; [|exact Hr]
  end.

Ltac split_last :=
  first
    [ eexists (cons _ (cons _ nil)); do 2 eexists; split; [reflexivity|]
    | eexists (cons _ (cons _ (cons _ nil))); do 2 eexists; split; [reflexivity|]
    | eexists (cons _ (cons _ (cons _ (cons _ nil)))); do 2 eexists;
      split; [reflexivity|] ].

Ltac pick_submitted :=
  simpl; repeat (first [left; reflexivity | right]).

(** ** The market factory: what a descriptor stands for *)

Lemma Array_from_bytes (bytes : Buffer) :
  Forall (fun n => 0 <= n <= 255) (Array_from bytes) /\
  map byte_of_Z (Array_from bytes) = bytes.
Proof.
  unfold Array_from. induction bytes as [|b bytes [IH1 IH2]]; simpl.
  - split; constructor.
  - pose proof (Byte.to_N_bounded b) as Hb.
    split.
    + constructor; [lia | exact IH1].
    + rewrite IH2. f_equal. unfold byte_of_Z.
      rewrite Z.mod_small by lia. rewrite N2Z.id, Byte.of_to_N. reflexivity.
Qed.

Section Descriptor.
Context {web3 : Web3} {env : Env}.
Variables (program : Program) (anchorProvider : TestProvider) (mintUtils : MintUtils).
Variables (openbookProgramId baseMint quoteMint : PublicKey).

(** X1.  Whenever [createMarket] returns a descriptor, the last
    transaction it submitted is the create-market instruction: sent
    through the program handle with a compute limit of 10,000,000 units,
    under the descriptor's name, with lot sizes 1 and fees and expiry 0,
    and with the accounts the descriptor records (market, bids, asks,
    event heap, vaults, mints, oracles).  Everything submitted before it
    is an oracle instruction. *)
Theorem createMarket_descriptor_matches_instruction
    (adminKp : Keypair) (index : Z) (w : World) (m : Market.t) :
  let r := run (createMarket program anchorProvider mintUtils adminKp
                  openbookProgramId baseMint quoteMint index) w in
  result r = Fulfilled m ->
  exists earlier tx accs,
    submitted r = earlier ++ [tx] /\
    Forall (fun tx => is_oracle_instruction tx = true) earlier /\
    methods_of tx = program /\
    preInstructions tx = [setComputeUnitLimit 10000000] /\
    instruction tx =
      Methods.createMarket (Market.name m)
        {| confFilter := 0; maxStalenessSlots := 100 |} 1 1 0 0 0 accs /\
    describes m accs.
Proof.
  intros r Hr. subst r. read_run Hr.
  open_createMarket; simpl; intros; split_matches; auto;
    split_last; unfold describes; simpl;
    repeat split; repeat constructor.
Qed.

(** X2.  Whenever [createMarket] returns a descriptor, it has submitted a
    set-price instruction for the descriptor's [oracle_a] and one for its
    [oracle_b], both in the name of the provider's payer and both carrying
    the descriptor's [price]; no set-price instruction carries another
    price, and every create-oracle instruction carries the price 1. *)
Theorem createMarket_price_on_both_oracles
    (adminKp : Keypair) (index : Z) (w : World) (m : Market.t) :
  let r := run (createMarket program anchorProvider mintUtils adminKp
                  openbookProgramId baseMint quoteMint index) w in
  result r = Fulfilled m ->
  (exists tx,
     In tx (submitted r) /\
     instruction tx =
       Methods.stubOracleSet (Market.price m)
         {| StubOracleSet.owner := publicKey (keypair anchorProvider);
            StubOracleSet.oracle := Market.oracle_a m |}) /\
  (exists tx,
     In tx (submitted r) /\
     instruction tx =
       Methods.stubOracleSet (Market.price m)
         {| StubOracleSet.owner := publicKey (keypair anchorProvider);
            StubOracleSet.oracle := Market.oracle_b m |}) /\
  Forall
    (fun tx =>
       forall price,
         (forall accs, instruction tx = Methods.stubOracleSet price accs ->
                       price = Market.price m) /\
         (forall accs, instruction tx = Methods.stubOracleCreate price accs ->
                       price = JS.of_Z 1))
    (submitted r).
Proof.
  intros r Hr. subst r. read_run Hr.
  open_createMarket; simpl; intros; split_matches; auto.
  all: split;
    [eexists (Build_Transaction _ _ (Methods.stubOracleSet _ _) _);
     split; [|reflexivity]; pick_submitted|].
  all: split;
    [eexists (Build_Transaction _ _ (Methods.stubOracleSet _ _) _);
     split; [|reflexivity]; pick_submitted|].
  all: repeat constructor; simpl; intros; congruence.
Qed.

(** X3.  The vaults of a descriptor are the associated token accounts,
    for the base and for the quote mint, of the market authority, the
    address derived from the seeds ("Market", market address), with an
    owner allowed off the curve.  The create-market instruction names
    that authority, the event authority derived from
    ("__event_authority"), and the program. *)
Theorem createMarket_vaults_of_market_authority
    (adminKp : Keypair) (index : Z) (w : World) (m : Market.t) :
  let r := run (createMarket program anchorProvider mintUtils adminKp
                  openbookProgramId baseMint quoteMint index) w in
  result r = Fulfilled m ->
  let authority := market_authority (Market.market_pk m) openbookProgramId in
  Market.base_vault m = getAssociatedTokenAddressSync baseMint authority true /\
  Market.quote_vault m = getAssociatedTokenAddressSync quoteMint authority true /\
  exists tx name config quoteLot baseLot maker taker expiry accs,
    In tx (submitted r) /\
    instruction tx =
      Methods.createMarket name config quoteLot baseLot maker taker expiry accs /\
    CreateMarket.marketAuthority accs = authority /\
    CreateMarket.eventAuthority accs = event_authority openbookProgramId /\
    CreateMarket.program accs = openbookProgramId.
Proof.
  intros r Hr authority. subst r authority. read_run Hr.
  unfold market_authority, event_authority.
  unfold createMarket, reference_price, getRandomInt.
  destruct (findProgramAddressSync
              [Buffer_from "__event_authority"] openbookProgramId) as [ea bump] eqn:Eea.
  repeat match goal with
  | |- context [findProgramAddressSync
                  [Buffer_from "StubOracle"; ?a; ?b] ?p] =>
      destruct (findProgramAddressSync [Buffer_from "StubOracle"; a; b] p) as [? ?]
  | |- context [getAccountSize ?n] =>
      let E := fresh "Esize" in
      destruct (getAccountSize_cases n) as [[? E]|E]; rewrite E
  end.
  all: repeat (simpl; intros;
               match goal with
               | |- context [match ?x with _ => _ end] => destruct x eqn:?
               end);
    simpl; auto.
  all: match goal with
       | H : findProgramAddressSync _ _ = _ |- _ => rewrite H
       end; simpl.
  all: split; [reflexivity|]; split; [reflexivity|].
  all: eexists (Build_Transaction _ _ (Methods.createMarket _ _ _ _ _ _ _ _) _).
  all: do 8 eexists; split; [pick_submitted|].
  all: split; [reflexivity|]; simpl; auto.
Qed.

(** X4.  The [admin] field of a descriptor is an array of integers
    between 0 and 255, as long as the payer's secret key; read back as
    bytes it is that secret key. *)
Theorem createMarket_admin_decodes
    (adminKp : Keypair) (index : Z) (w : World) (m : Market.t) :
  let r := run (createMarket program anchorProvider mintUtils adminKp
                  openbookProgramId baseMint quoteMint index) w in
  result r = Fulfilled m ->
  Forall (fun n => 0 <= n <= 255) (Market.admin m) /\
  List.length (Market.admin m) = List.length (secretKey (keypair anchorProvider)) /\
  map byte_of_Z (Market.admin m) = secretKey (keypair anchorProvider).
Proof.
  intros r Hr.
  destruct (run_returns_only _ _ w m (createMarket_returns _ _ _ _ _ _ adminKp index) Hr)
    as (_ & _ & _ & Hadmin & _).
  rewrite Hadmin.
  destruct (Array_from_bytes (secretKey (keypair anchorProvider))) as [H1 H2].
  split; [exact H1|]. split; [|exact H2].
  unfold Array_from. apply length_map.
Qed.

Lemma getAccountSize_undeclared (name : string) :
  (forall d, In d IDL_accounts -> idl_name d <> name) ->
  getAccountSize name = Throw TypeError.
Proof.
  intros H. unfold getAccountSize.
  replace (filter (fun idlAccount => String.eqb (idl_name idlAccount) name) IDL_accounts)
    with (@nil IdlAccountDef); [reflexivity|].
  symmetry. induction IDL_accounts as [|d l IH]; simpl; [reflexivity|].
  destruct (String.eqb_spec (idl_name d) name) as [E|E].
  - exfalso. apply (H d); [left; reflexivity | exact E].
  - apply IH. intros d' Hd'. apply H. right; exact Hd'.
Qed.

Lemma createMarket_undeclared_returns (adminKp : Keypair) (index : Z) :
  getAccountSize "bookSide" = Throw TypeError \/
  getAccountSize "eventHeap" = Throw TypeError ->
  returns_only (fun _ => False)
    (createMarket program anchorProvider mintUtils adminKp
       openbookProgramId baseMint quoteMint index) /\
  submits_only (fun tx => is_oracle_instruction tx = true)
    (createMarket program anchorProvider mintUtils adminKp
       openbookProgramId baseMint quoteMint index).
Proof.
  intros [H|H]; unfold createMarket, reference_price, getRandomInt; rewrite H;
    repeat match goal with
    | |- context [findProgramAddressSync ?s ?p] =>
        destruct (findProgramAddressSync s p) as [? ?]
    | |- context [getAccountSize ?n] =>
        let E := fresh "Esize" in
        destruct (getAccountSize_cases n) as [[? E]|E]; rewrite E
    end;
    split;
    repeat (simpl; intros;
            match goal with
            | |- context [match ?x with _ => _ end] => destruct x
            | |- _ /\ _ => split
            end);
    simpl; auto.
Qed.

(** X5.  When the interface description declares no account named
    "bookSide", or none named "eventHeap", [createMarket] never returns a
    descriptor, and it submits oracle instructions only: no market is
    created.  On a ledger that accepts what it is sent it is rejected with
    a [TypeError], after two to four oracle instructions. *)
Theorem createMarket_undeclared_account_size
    (adminKp : Keypair) (index : Z) (w : World) :
  (forall d, In d IDL_accounts -> idl_name d <> "bookSide"%string) \/
  (forall d, In d IDL_accounts -> idl_name d <> "eventHeap"%string) ->
  let r := run (createMarket program anchorProvider mintUtils adminKp
                  openbookProgramId baseMint quoteMint index) w in
  (forall m, result r <> Fulfilled m) /\
  Forall (fun tx => is_oracle_instruction tx = true) (submitted r) /\
  (Cooperative env ->
   result r = Rejected TypeError /\
   (2 <= List.length (submitted r) <= 4)%nat).
Proof.
  intros Hidl r.
  assert (Hsize : getAccountSize "bookSide" = Throw TypeError \/
                  getAccountSize "eventHeap" = Throw TypeError).
  { destruct Hidl as [H|H]; [left | right]; apply getAccountSize_undeclared; exact H. }
  destruct (createMarket_undeclared_returns adminKp index Hsize) as [Hret Hsub].
  split; [|split].
  - intros m Hm. exact (run_returns_only _ _ w m Hret Hm).
  - apply run_submits_only. exact Hsub.
  - intros Hc. subst r.
    unfold createMarket, reference_price, getRandomInt.
    destruct Hsize as [H|H]; rewrite H;
      try (destruct (getAccountSize_cases "bookSide") as [[sb Hb]|Hb]; rewrite Hb);
      simpl;
      repeat (first [run_next Hc | run_info]);
      split; simpl; try reflexivity; lia.
Qed.

(** Who signs what [createMarket] submits. *)
Lemma createMarket_submits_signed (adminKp : Keypair) (index : Z) :
  submits_only
    (fun tx =>
       methods_of tx = program /\
       (is_oracle_instruction tx = true /\ signers tx = [keypair anchorProvider] \/
        exists identity,
          creates_market_as identity tx /\
          signers tx = [keypair anchorProvider; identity]))
    (createMarket program anchorProvider mintUtils adminKp
       openbookProgramId baseMint quoteMint index).
Proof.
  open_createMarket;
    repeat (simpl; intros;
            match goal with
            | |- context [match ?x with _ => _ end] => destruct x
            | |- _ /\ _ => split
            end);
    simpl; auto.
  all: right; eexists; split; [|reflexivity].
  all: unfold creates_market_as; simpl; repeat eexists.
Qed.

End Descriptor.

(** ** The order-book filler on any ledger *)

Section Orders.
Context {web3 : Web3} {env : Env}.
Variable this : OpenbookConfigurator.
Variables (user : User.t) (userKp : Keypair) (marketData : Market.t).

(** A loop of submissions submits its transactions in order, up to the
    first one the ledger rejects. *)
Lemma for_loop_rpc_prefix (f : Z -> Transaction) :
  forall (n : nat) (start : Z) (w : World),
    let r := run (for_loop n start (fun i => rpc (f i))) w in
    exists k,
      (k <= n)%nat /\
      submitted r = map f (Zrange start k) /\
      (result r = Fulfilled tt /\ k = n \/
       exists tx, result r = Rejected (SendTransactionError tx) /\
                  nth_error (submitted r) (pred k) = Some tx /\ (0 < k)%nat).
Proof.
  induction n as [|n IH]; intros start w r; subst r.
  - exists 0%nat. split; [lia|]. split; [reflexivity|]. left; split; reflexivity.
  - simpl. destruct (ledger_send (ledger w) (f start)) as [l|] eqn:Esend; simpl.
    + destruct (IH (start + 1) {| ledger := l; entropy := entropy w |})
        as (k & Hk & Hsub & Hres).
      cbv zeta in Hsub, Hres.
      exists (S k). split; [lia|]. rewrite Zrange_S. simpl. rewrite Hsub.
      split; [reflexivity|].
      destruct Hres as [[Hr ->]|(tx & Hr & Hlast & Hpos)].
      * left. split; [exact Hr | reflexivity].
      * right. exists tx. split; [exact Hr|]. split; [|lia].
        destruct k as [|k]; [lia|]. simpl in *. rewrite <- Hsub. exact Hlast.
    + exists 1%nat. split; [lia|].
      split; [unfold Zrange; simpl; rewrite Z.add_0_r; reflexivity|].
      right. exists (f start). split; [reflexivity|]. split; [reflexivity | lia].
Qed.

Lemma for_loop_throw (e : Exn) (n : nat) (start : Z) (w : World) :
  submitted (run (for_loop n start (fun _ => Throw e)) w) = [] /\
  final (run (for_loop n start (fun _ => Throw e)) w) = w /\
  result (run (for_loop n start (fun _ => Throw e)) w) =
    match n with O => Fulfilled tt | S _ => Rejected e end.
Proof. destruct n; simpl; auto. Qed.

Lemma fillOrderBook_unfit_user (nbOrders : Z) (w : World) :
  at_index (User.open_orders user) (Market.market_index marketData) = None \/
  User.token_data user = [] ->
  let r := run (fillOrderBook this user userKp marketData nbOrders) w in
  submitted r = [] /\ final r = w /\
  result r = if 0 <? nbOrders then Rejected TypeError else Fulfilled tt.
Proof.
  intros Hu r; subst r.
  assert (Hb : forall i, place_bid this user userKp marketData i = Throw TypeError).
  { intros i. unfold place_bid. destruct Hu as [->| ->]; [reflexivity|].
    destruct (at_index (User.open_orders user) _); reflexivity. }
  unfold fillOrderBook.
  rewrite (for_loop_ext _ _ _ _ Hb), run_bind.
  destruct (for_loop_throw TypeError (Z.to_nat nbOrders) 0 w) as (Hs & Hf & Hr).
  rewrite Hr, Hs, Hf.
  destruct (Z.ltb_spec 0 nbOrders) as [Hpos|Hneg].
  - destruct (Z.to_nat nbOrders) eqn:E; [lia|]. auto.
  - replace (Z.to_nat nbOrders) with 0%nat by lia. simpl. auto.
Qed.

(** The order at each position of what [fillOrderBook] submits. *)
Lemma fillOrderBook_positions (N : nat) (w : World) :
  let r := run (fillOrderBook this user userKp marketData (Z.of_nat N)) w in
  forall j tx,
    nth_error (submitted r) j = Some tx ->
    exists args,
      order_of tx = Some args /\
      ((j < N)%nat /\
       PlaceOrder.side args = Side.bid /\
       PlaceOrder.priceLots args = 1000 - 1 - Z.of_nat j /\
       PlaceOrder.clientOrderId args = Z.of_nat j
       \/
       (N <= j < N + N)%nat /\
       PlaceOrder.side args = Side.ask /\
       PlaceOrder.priceLots args = 1000 + 1 + Z.of_nat (j - N) /\
       PlaceOrder.clientOrderId args = Z.of_nat (j - N) + Z.of_nat N + 1 /\
       (N <= List.length (submitted r))%nat).
Proof.
  intros r j tx Hj. subst r.
  destruct (at_index (User.open_orders user) (Market.market_index marketData))
    as [h|] eqn:Eh;
    [|destruct (fillOrderBook_unfit_user (Z.of_nat N) w (or_introl Eh)) as [E _];
      rewrite E in Hj; destruct j; discriminate].
  destruct (User.token_data user) as [|t l] eqn:Etd;
    [destruct (fillOrderBook_unfit_user (Z.of_nat N) w (or_intror Etd)) as [E _];
     rewrite E in Hj; destruct j; discriminate|].
  assert (Et : at_index (User.token_data user) 0 = Some t) by (rewrite Etd; reflexivity).
  evar (fb : Z -> Transaction). evar (fa : Z -> Transaction).
  assert (Hb : forall i, place_bid this user userKp marketData i = rpc (fb i)).
  { intros i. unfold place_bid. rewrite Eh, Et. simpl. subst fb. reflexivity. }
  assert (Ha : forall i,
             place_ask this user userKp marketData (Z.of_nat N) i = rpc (fa i)).
  { intros i. unfold place_ask. rewrite Eh. simpl. subst fa. reflexivity. }
  unfold fillOrderBook in Hj |- *. rewrite Nat2Z.id in Hj |- *.
  rewrite (for_loop_ext _ _ _ _ Hb), (for_loop_ext _ _ _ _ Ha), run_bind in Hj |- *.
  destruct (for_loop_rpc_prefix fb N 0 w) as (k1 & Hk1 & Hs1 & Hr1).
  cbv zeta in Hs1, Hr1.
  assert (Hbid : forall i, (i < k1)%nat ->
            nth_error (map fb (Zrange 0 k1)) i = Some (fb (Z.of_nat i))).
  { intros i Hi. rewrite nth_error_map, nth_error_Zrange by exact Hi.
    rewrite Z.add_0_l. reflexivity. }
  destruct Hr1 as [[Hr1 ->]|(tx1 & Hr1 & _)]; rewrite Hr1 in Hj |- *;
    cbn [submitted] in Hj |- *.
  - rewrite Hs1 in Hj |- *.
    destruct (for_loop_rpc_prefix fa N 0
                (final (run (for_loop N 0 (fun i => rpc (fb i))) w)))
      as (k2 & Hk2 & Hs2 & _).
    cbv zeta in Hs2. rewrite Hs2 in Hj.
    destruct (Nat.lt_ge_cases j N) as [Hlt|Hge].
    + rewrite nth_error_app1 in Hj by (rewrite length_map, length_Zrange; exact Hlt).
      rewrite (Hbid j Hlt) in Hj. inversion Hj; subst tx.
      eexists. split; [subst fb; reflexivity|]. left.
      split; [exact Hlt|]. cbn. unfold BN. auto.
    + rewrite nth_error_app2 in Hj by (rewrite length_map, length_Zrange; exact Hge).
      rewrite length_map, length_Zrange in Hj.
      assert (Hjk : (j - N < k2)%nat).
      { rewrite <- (length_Zrange 0 k2), <- (length_map fa).
        apply nth_error_Some. congruence. }
      rewrite nth_error_map, nth_error_Zrange in Hj by exact Hjk.
      rewrite Z.add_0_l in Hj. inversion Hj; subst tx.
      eexists. split; [subst fa; reflexivity|]. right.
      split; [lia|]. cbn. unfold BN.
      repeat split. rewrite length_app, length_map, length_Zrange. lia.
  - rewrite Hs1 in Hj |- *.
    assert (Hjk : (j < k1)%nat).
    { rewrite <- (length_Zrange 0 k1), <- (length_map fb).
      apply nth_error_Some. congruence. }
    rewrite (Hbid j Hjk) in Hj. inversion Hj; subst tx.
    eexists. split; [subst fb; reflexivity|]. left.
    split; [lia|]. cbn. unfold BN. auto.
Qed.

(** X6.  Whatever the ledger accepts or rejects, [fillOrderBook] submits
    a sell order only after all N buy orders: a sell order stands at a
    position from N on, and the positions before N then hold the buy
    orders with client ids 0 to N-1.  So a rejected buy order leaves the
    book without any sell order. *)
Theorem fillOrderBook_sells_after_all_buys
    (N : nat) (w : World) (j : nat) (tx : Transaction) (args : PlaceOrder.args) :
  let r := run (fillOrderBook this user userKp marketData (Z.of_nat N)) w in
  nth_error (submitted r) j = Some tx ->
  order_of tx = Some args ->
  PlaceOrder.side args = Side.ask ->
  (N <= j)%nat /\
  forall i, (i < N)%nat ->
    exists tx' args',
      nth_error (submitted r) i = Some tx' /\
      order_of tx' = Some args' /\
      PlaceOrder.side args' = Side.bid /\
      PlaceOrder.clientOrderId args' = Z.of_nat i.
Proof.
  intros r Hj Hargs Hside.
  destruct (fillOrderBook_positions N w j tx Hj) as (args0 & Hargs0 & Hpos).
  rewrite Hargs in Hargs0. inversion Hargs0; subst args0.
  destruct Hpos as [(_ & Hbid & _)|(Hjn & _ & _ & _ & Hlen)]; [congruence|].
  split; [lia|].
  intros i Hi.
  destruct (nth_error (submitted r) i) as [tx'|] eqn:Ei;
    [|apply nth_error_None in Ei; fold r in Hlen; lia].
  destruct (fillOrderBook_positions N w i tx' Ei) as (args' & Hargs' & Hpos').
  exists tx', args'. split; [reflexivity|]. split; [exact Hargs'|].
  destruct Hpos' as [(_ & Hb & _ & Hid)|(Hin & _)]; [auto | lia].
Qed.

(** X7.  The orders of one [fillOrderBook] never cross.  On any ledger
    and for every N, every buy order submitted, whether or not a sell
    order follows it, is priced from 1000-N up and below 1000; every sell
    order submitted is priced above 1000 and up to 1000+N.  So no buy
    price reaches a sell price, and buy prices are positive as long as N
    is below 1000. *)
Theorem fillOrderBook_book_stays_uncrossed
    (N : nat) (w : World) (j : nat) (tx : Transaction) (args : PlaceOrder.args) :
  let r := run (fillOrderBook this user userKp marketData (Z.of_nat N)) w in
  nth_error (submitted r) j = Some tx ->
  order_of tx = Some args ->
  (PlaceOrder.side args = Side.bid ->
   1000 - Z.of_nat N <= PlaceOrder.priceLots args < 1000) /\
  (PlaceOrder.side args = Side.ask ->
   1000 < PlaceOrder.priceLots args <= 1000 + Z.of_nat N).
Proof.
  intros r Hj Hargs.
  destruct (fillOrderBook_positions N w j tx Hj) as (a & Ha & Hpos).
  rewrite Hargs in Ha. inversion Ha; subst a.
  destruct Hpos as [(Hlt & Hside & Hp & _)|(Hjn & Hside & Hq & _)];
    split; intros Hs; try congruence; lia.
Qed.

(** X8.  The client ids of the orders of one [fillOrderBook] are pairwise
    distinct, on any ledger: two submissions with the same client id are
    the same submission.  The ids lie between 0 and 2N, and N itself is
    never used. *)
Theorem fillOrderBook_client_ids_distinct
    (N : nat) (w : World) (i j : nat) (txi txj : Transaction)
    (a b : PlaceOrder.args) :
  let r := run (fillOrderBook this user userKp marketData (Z.of_nat N)) w in
  nth_error (submitted r) i = Some txi -> order_of txi = Some a ->
  nth_error (submitted r) j = Some txj -> order_of txj = Some b ->
  PlaceOrder.clientOrderId a = PlaceOrder.clientOrderId b ->
  i = j /\ PlaceOrder.clientOrderId a <> Z.of_nat N /\
  0 <= PlaceOrder.clientOrderId a <= 2 * Z.of_nat N.
Proof.
  intros r Hi Ha Hj Hb Hid.
  destruct (fillOrderBook_positions N w i txi Hi) as (a' & Ha' & Hpi).
  destruct (fillOrderBook_positions N w j txj Hj) as (b' & Hb' & Hpj).
  rewrite Ha in Ha'. rewrite Hb in Hb'. inversion Ha'; inversion Hb'; subst a' b'.
  destruct Hpi as [(Hi1 & _ & _ & Hi2)|(Hi1 & _ & _ & Hi2 & _)];
    destruct Hpj as [(Hj1 & _ & _ & Hj2)|(Hj1 & _ & _ & Hj2 & _)]; lia.
Qed.

(** X9.  For a user with no handle at the market's index (an index out
    of the array, or negative), or with no token account at all,
    [fillOrderBook] submits nothing and leaves the world as it is: it is
    rejected with a [TypeError] when at least one order is asked for, and
    returns when none is. *)
Theorem fillOrderBook_without_accounts (nbOrders : Z) (w : World) :
  at_index (User.open_orders user) (Market.market_index marketData) = None \/
  User.token_data user = [] ->
  let r := run (fillOrderBook this user userKp marketData nbOrders) w in
  submitted r = [] /\ final r = w /\
  (0 < nbOrders -> result r = Rejected TypeError) /\
  (nbOrders <= 0 -> result r = Fulfilled tt).
Proof.
  intros Hu r.
  destruct (fillOrderBook_unfit_user nbOrders w Hu) as (Hs & Hf & Hr).
  fold r in Hs, Hf, Hr.
  split; [exact Hs|]. split; [exact Hf|].
  destruct (Z.ltb_spec 0 nbOrders); split; intros; try lia; exact Hr.
Qed.

(** The market and the handle every order names. *)
Lemma fillOrderBook_names_market (nbOrders : Z) :
  submits_only
    (fun tx =>
       exists handle args accs,
         at_index (User.open_orders user) (Market.market_index marketData) =
           Some handle /\
         instruction tx = Methods.placeOrder args accs /\
         PlaceOrder.openOrdersAccount accs = OpenOrders.open_orders handle /\
         PlaceOrder.market accs = Market.market_pk marketData /\
         signers tx = [userKp])
    (fillOrderBook this user userKp marketData nbOrders).
Proof.
  unfold fillOrderBook.
  apply submits_only_bind; [|intros _]; apply submits_only_for_loop; intros i.
  - unfold place_bid.
    destruct (at_index (User.open_orders user) _) as [h|]; simpl; [|exact I].
    destruct (at_index (User.token_data user) 0) as [t|]; simpl; [|exact I].
    split; [|exact I]. do 3 eexists. repeat split.
  - unfold place_ask.
    destruct (at_index (User.open_orders user) _) as [h|]; simpl; [|exact I].
    split; [|exact I]. do 3 eexists. repeat split.
Qed.

End Orders.

(** ** The registrar on any ledger *)

Section Accounts.
Context {web3 : Web3} {env : Env}.
Variable this : OpenbookConfigurator.

(** The handles [configureMarketForUser] returns, when it returns. *)
Lemma configureMarketForUser_loop_returns
    (user : Keypair) (indexer : PublicKey) (markets : list Market.t) :
  forall (i : Z) (acc : list OpenOrders.t),
    0 <= i ->
    returns_only
      (fun handles =>
         handles =
           acc ++
           map_index
             (fun m k =>
                {| OpenOrders.market := Market.market_pk m;
                   OpenOrders.open_orders :=
                     open_orders_address user (k + 1) this.(openbookProgramId) |})
             i markets)
      (configureMarketForUser_loop this user indexer i markets acc).
Proof.
  induction markets as [|m rest IH]; intros i acc Hi.
  - simpl. rewrite app_nil_r. reflexivity.
  - cbn [configureMarketForUser_loop map_index].
    unfold BN_toBuffer_le, BN. rewrite Z.abs_eq by lia.
    destruct (i + 1 <? 256 ^ Z.of_nat 4); simpl; [|exact I].
    unfold open_orders_address.
    destruct (findProgramAddressSync _ _) as [openOrders bump]. simpl.
    eapply returns_only_impl; [|apply (IH (i + 1)); lia].
    intros handles ->. rewrite <- app_assoc. reflexivity.
Qed.

Lemma configureMarketForUser_returns (user : Keypair) (markets : list Market.t) :
  returns_only
    (fun handles =>
       handles =
         map_index
           (fun m k =>
              {| OpenOrders.market := Market.market_pk m;
                 OpenOrders.open_orders :=
                   open_orders_address user (k + 1) this.(openbookProgramId) |})
           0 markets)
    (configureMarketForUser this user markets).
Proof.
  unfold configureMarketForUser.
  destruct (findProgramAddressSync _ _) as [indexer bump]. simpl.
  apply (configureMarketForUser_loop_returns user indexer markets 0 []). lia.
Qed.

Lemma configureMarketForUser_loop_submits
    (user : Keypair) (indexer : PublicKey) (markets : list Market.t) :
  forall (i : Z) (acc : list OpenOrders.t),
    submits_only
      (fun tx =>
         methods_of tx = this.(program) /\
         signers tx = [user] /\
         exists accs,
           instruction tx = Methods.createOpenOrdersAccount "test simulator" accs /\
           CreateOpenOrdersAccount.openOrdersIndexer accs = indexer /\
           CreateOpenOrdersAccount.owner accs = publicKey user /\
           CreateOpenOrdersAccount.payer accs =
             publicKey (keypair this.(anchorProvider)))
      (configureMarketForUser_loop this user indexer i markets acc).
Proof.
  induction markets as [|m rest IH]; intros i acc.
  - exact I.
  - cbn [configureMarketForUser_loop].
    destruct (BN_toBuffer_le (BN (i + 1)) 4) as [b|]; simpl; [|exact I].
    destruct (findProgramAddressSync _ _) as [openOrders bump]. simpl.
    split; [|apply IH].
    split; [reflexivity|]. split; [reflexivity|].
    eexists. split; [reflexivity|]. simpl. auto.
Qed.

(** X10.  On any ledger, the first transaction of
    [configureMarketForUser] creates the indexer derived from the seeds
    ("OpenOrdersIndexer", user public key), owned by the user and paid by
    the provider's payer; every later one creates an order-tracking
    account under that same indexer, with the same owner and payer.  All
    go through the program handle with the user as only signer. *)
Theorem configureMarketForUser_accounts_under_one_indexer
    (user : Keypair) (markets : list Market.t) (w : World) :
  let r := run (configureMarketForUser this user markets) w in
  let indexer := indexer_address user this.(openbookProgramId) in
  exists first rest,
    submitted r = first :: rest /\
    instruction first =
      Methods.createOpenOrdersIndexer
        {| CreateOpenOrdersIndexer.openOrdersIndexer := indexer;
           CreateOpenOrdersIndexer.owner := publicKey user;
           CreateOpenOrdersIndexer.payer := publicKey (keypair this.(anchorProvider));
           CreateOpenOrdersIndexer.systemProgram := SystemProgram_programId |} /\
    Forall
      (fun tx =>
         exists accs,
           instruction tx = Methods.createOpenOrdersAccount "test simulator" accs /\
           CreateOpenOrdersAccount.openOrdersIndexer accs = indexer /\
           CreateOpenOrdersAccount.owner accs = publicKey user /\
           CreateOpenOrdersAccount.payer accs =
             publicKey (keypair this.(anchorProvider)))
      rest /\
    Forall (fun tx => methods_of tx = this.(program) /\ signers tx = [user])
           (first :: rest).
Proof.
  intros r indexer; subst r indexer.
  unfold configureMarketForUser, indexer_address.
  destruct (findProgramAddressSync _ _) as [indexer bump]. simpl.
  destruct (ledger_send _ _) as [l|]; simpl.
  - do 2 eexists. split; [reflexivity|]. split; [reflexivity|].
    pose proof (run_submits_only _ _ {| ledger := l; entropy := entropy w |}
                  (configureMarketForUser_loop_submits user indexer markets 0 []))
      as H.
    split.
    + eapply Forall_impl; [|exact H]. simpl. intros tx (_ & _ & Hx). exact Hx.
    + constructor; [split; reflexivity|].
      eapply Forall_impl; [|exact H]. simpl. intros tx (H1 & H2 & _). auto.
  - do 2 eexists. split; [reflexivity|]. split; [reflexivity|].
    split; [constructor|]. constructor; [split; reflexivity | constructor].
Qed.

End Accounts.

(** ** Promises awaited together: what they submit *)

Section Submissions.
Context {env : Env}.

Lemma settle_submits_only {A} (Q : Transaction -> Prop) (p : Prog A) (e : Entropy) :
  submits_only Q p -> submits_only Q (fst (settle p e)).
Proof.
  revert e; induction p as [a|x|address k IH|tx k IH|payer size owner k IH|k IH|k IH];
    intros e H; simpl in *; auto.
  - destruct (entropy_keypair e) as [kp e']. apply IH, H.
  - destruct (entropy_random e) as [r e']. apply IH, H.
Qed.

Lemma spawn_submits_only {A} (Q : Transaction -> Prop) (ps : list (Prog A)) (e : Entropy) :
  Forall (submits_only Q) ps -> Forall (submits_only Q) (fst (spawn ps e)).
Proof.
  intros H; revert e; induction H as [|p ps Hp H IH]; intros e; simpl.
  - constructor.
  - pose proof (settle_submits_only Q p e Hp) as Hs.
    destruct (settle p e) as [p' e'].
    specialize (IH e'). destruct (spawn ps e') as [ps' e''].
    constructor; assumption.
Qed.

Lemma resume_submits_only {A} (Q : Transaction -> Prop) (p : Prog A) (w : World) :
  submits_only Q p ->
  submits_only Q (fst (fst (resume p w))) /\ Forall Q (snd (resume p w)).
Proof.
  destruct p as [a|x|address k|tx k|payer size owner k|k|k]; simpl; intros H; auto.
  - pose proof (settle_submits_only Q _ (entropy w)
                  (H (ledger_getAccountInfo (ledger w) address))) as Hs.
    destruct (settle _ _); auto.
  - destruct H as [Htx Hk].
    destruct (ledger_send (ledger w) tx) as [l|]; simpl;
      [|split; [exact I | constructor; [exact Htx | constructor]]].
    pose proof (settle_submits_only Q _ (entropy w) Hk) as Hs.
    destruct (settle _ _); simpl in *.
    split; [exact Hs | constructor; [exact Htx | constructor]].
  - destruct (ledger_createAccount _ _ _ _) as [[a l]|]; simpl; [|auto].
    pose proof (settle_submits_only Q _ (entropy w) (H a)) as Hs.
    destruct (settle _ _); auto.
  - destruct (entropy_keypair (entropy w)) as [kp e'].
    pose proof (settle_submits_only Q _ e' (H kp)) as Hs.
    destruct (settle _ _); auto.
  - destruct (entropy_random (entropy w)) as [r e'].
    pose proof (settle_submits_only Q _ e' (H r)) as Hs.
    destruct (settle _ _); auto.
Qed.

Lemma Promise_all_submits_only {A} (Q : Transaction -> Prop) (schedule : list nat) :
  forall (ps : list (Prog A)) (w : World),
    Forall (submits_only Q) ps ->
    Forall Q (submitted (Promise_all schedule ps w)).
Proof.
  induction schedule as [|i schedule IH]; intros ps w HQ; simpl;
    destruct (first_rejected ps); try constructor;
    destruct (all_fulfilled ps); try constructor.
  destruct (nth_error ps i) as [p|] eqn:Ep; [|apply IH; exact HQ].
  assert (Hp : submits_only Q p).
  { rewrite Forall_forall in HQ. apply HQ. eapply nth_error_In; exact Ep. }
  destruct (resume_submits_only Q p w Hp) as [Hp' Htxs].
  destruct (resume p w) as [[p' w'] txs]. simpl in *.
  apply Forall_app. split; [exact Htxs|].
  apply IH. apply replace_nth_Forall; assumption.
Qed.

Lemma run_promises_submits_only {A} (Q : Transaction -> Prop) (schedule : list nat) :
  forall (ps : list (Prog A)) (w : World),
    Forall (submits_only Q) ps ->
    Forall Q (submitted (run_promises schedule ps w)).
Proof.
  induction schedule as [|i schedule IH]; intros ps w HQ; simpl; [constructor|].
  destruct (nth_error ps i) as [p|] eqn:Ep; [|apply IH; exact HQ].
  assert (Hp : submits_only Q p).
  { rewrite Forall_forall in HQ. apply HQ. eapply nth_error_In; exact Ep. }
  destruct (resume_submits_only Q p w Hp) as [Hp' Htxs].
  destruct (resume p w) as [[p' w'] txs]. simpl in *.
  apply Forall_app. split; [exact Htxs|].
  apply IH. apply replace_nth_Forall; assumption.
Qed.

(** What [Promise.all] has seen submitted when it settles is the
    beginning of what the promises submit. *)
Lemma Promise_all_submitted_prefix {A} (schedule : list nat) :
  forall (ps : list (Prog A)) (w : World),
    exists later,
      submitted (run_promises schedule ps w) =
      submitted (Promise_all schedule ps w) ++ later.
Proof.
  induction schedule as [|i schedule IH]; intros ps w; simpl.
  - exists []. destruct (first_rejected ps); [reflexivity|].
    destruct (all_fulfilled ps); reflexivity.
  - destruct (first_rejected ps); [eexists; reflexivity|].
    destruct (all_fulfilled ps); [eexists; reflexivity|].
    destruct (nth_error ps i) as [p|]; [|apply IH].
    destruct (resume p w) as [[p' w'] txs]. simpl.
    destruct (IH (replace_nth i p' ps) w') as [later Hl].
    exists later. rewrite Hl, app_assoc. reflexivity.
Qed.

(** One more resumption on the way to a lost race. *)
Lemma loses_race_step {A} (B : PublicKey) (P : list Transaction -> Prop)
    (i : nat) (ps : list (Prog A)) (w : World) (p : Prog A) :
  first_rejected ps = None ->
  all_fulfilled ps = None ->
  nth_error ps i = Some p ->
  loses_race B (fun txs => P (snd (resume p w) ++ txs))
    (replace_nth i (fst (fst (resume p w))) ps) (snd (fst (resume p w))) ->
  loses_race B P ps w.
Proof.
  intros Hf Ha Hp (schedule & tx & Hr & Hc & HP).
  exists (i :: schedule), tx. simpl. rewrite Hf, Ha, Hp.
  destruct (resume p w) as [[p' w'] txs]. simpl in *. auto.
Qed.

Lemma loses_race_done {A} (B : PublicKey) (P : list Transaction -> Prop)
    (ps : list (Prog A)) (w : World) (tx : Transaction) :
  first_rejected ps = Some (SendTransactionError tx) ->
  creates_oracle B tx = true ->
  P [] ->
  loses_race B P ps w.
Proof.
  intros Hf Hc HP. exists [], tx. simpl. rewrite Hf. simpl. auto.
Qed.

End Submissions.

Ltac race_step i :=
  eapply (loses_race_step _ _ i);
  [ simpl; assumption
  | reflexivity
  | reflexivity
  | simpl ].

Ltac creation_accepted Ho :=
  match goal with
  | |- context [ledger_send ?l ?tx] =>
      let E := fresh "Esend" in
      destruct (ledger_send l tx) as [?|] eqn:E;
      [| exfalso;
         eapply (@oracle_accepted _ Ho l tx); [reflexivity | eassumption | exact E] ]
  end; simpl.

Ltac still_absent Ho B :=
  match goal with
  | E : ledger_send ?l ?tx = Some ?l', H : ledger_getAccountInfo ?l B = None |- _ =>
      lazymatch goal with
      | _ : ledger_getAccountInfo l' B = None |- _ => fail
      | _ =>
          assert (ledger_getAccountInfo l' B = None)
            by (eapply (@oracle_only _ Ho l tx l');
                [exact E | reflexivity | eassumption | exact H])
      end
  end.

Ltac quote_oracle_absent B :=
  match goal with
  | H : ledger_getAccountInfo ?l B = None |- context [ledger_getAccountInfo ?l B] =>
      rewrite H
  end; simpl.

(** Promise [i] is resumed until it has settled its base oracle [A]. *)
Ltac base_oracle_settled Ho i A B :=
  race_step i;
  match goal with
  | |- context [ledger_getAccountInfo ?l A] =>
      destruct (ledger_getAccountInfo l A) eqn:?; simpl;
      [| race_step i; creation_accepted Ho; still_absent Ho B]
  end.

(** ** The configurator, under every schedule *)

Section Batch.
Context {web3 : Web3} {env : Env}.
Variable this : OpenbookConfigurator.

Lemma run_configureOpenbookV2_spawned
    (schedule : list nat) (mints : list PublicKey) (w : World) :
  run_configureOpenbookV2 schedule this mints w =
  let admin := fst (entropy_keypair (entropy w)) in
  let promises :=
    match mints with
    | [] => []
    | quoteMint :: rest =>
        map_index
          (fun mint index =>
             createMarket this.(program) this.(anchorProvider) this.(mintUtils)
               admin this.(openbookProgramId) mint quoteMint index)
          0 rest
    end in
  let spawned := spawn promises (snd (entropy_keypair (entropy w))) in
  Promise_all schedule (fst spawned)
    {| ledger := ledger w; entropy := snd spawned |}.
Proof.
  unfold run_configureOpenbookV2, configureOpenbookV2.
  destruct mints as [|quoteMint rest];
    cbn [hd_error tl run bind Keypair_generate];
    destruct (entropy_keypair (entropy w)) as [admin e1];
    cbn [run result final ledger entropy defined bind fst snd map_index];
    destruct (spawn _ e1) as [ps e2]; reflexivity.
Qed.

Lemma run_configureOpenbookV2_calls_spawned
    (schedule : list nat) (mints : list PublicKey) (w : World) :
  run_configureOpenbookV2_calls schedule this mints w =
  let admin := fst (entropy_keypair (entropy w)) in
  let promises :=
    match mints with
    | [] => []
    | quoteMint :: rest =>
        map_index
          (fun mint index =>
             createMarket this.(program) this.(anchorProvider) this.(mintUtils)
               admin this.(openbookProgramId) mint quoteMint index)
          0 rest
    end in
  let spawned := spawn promises (snd (entropy_keypair (entropy w))) in
  run_promises schedule (fst spawned)
    {| ledger := ledger w; entropy := snd spawned |}.
Proof.
  unfold run_configureOpenbookV2_calls, configureOpenbookV2.
  destruct mints as [|quoteMint rest];
    cbn [hd_error tl run bind Keypair_generate];
    destruct (entropy_keypair (entropy w)) as [admin e1];
    cbn [run result final ledger entropy defined bind fst snd map_index];
    destruct (spawn _ e1) as [ps e2]; reflexivity.
Qed.

Lemma configureOpenbookV2_returns
    (P : PublicKey -> PublicKey -> Z -> Market.t -> Prop) :
  (forall admin mint quoteMint index,
     returns_only (P mint quoteMint index)
       (createMarket this.(program) this.(anchorProvider) this.(mintUtils)
          admin this.(openbookProgramId) mint quoteMint index)) ->
  forall schedule quoteMint rest w markets,
    result (run_configureOpenbookV2 schedule this (quoteMint :: rest) w) =
      Some (Fulfilled markets) ->
    List.length markets = List.length rest /\
    forall i m,
      nth_error markets i = Some m ->
      exists mint, nth_error rest i = Some mint /\ P mint quoteMint (Z.of_nat i) m.
Proof.
  intros HP schedule quoteMint rest w markets Hr.
  rewrite run_configureOpenbookV2_spawned in Hr. cbv zeta in Hr.
  set (admin := fst (entropy_keypair (entropy w))) in *.
  set (promises := map_index _ 0 rest) in *.
  set (Ps := map_index (fun mint index => P mint quoteMint index) 0 rest).
  assert (HPs : Forall2 returns_only Ps promises)
    by (apply Forall2_map_index; intros mint index; apply HP).
  pose proof (spawn_returns_only Ps promises
                (snd (entropy_keypair (entropy w))) HPs) as Hs.
  pose proof (Promise_all_returns_only Ps schedule _ _ markets Hs Hr) as Hm.
  destruct (Forall2_holds_map_index _ _ _ _ Hm) as [Hlen Hnth].
  split; [exact Hlen|].
  intros i m Him. destruct (Hnth i m Him) as (mint & Hmint & HPm).
  rewrite Z.add_0_l in HPm. eauto.
Qed.

(** X11.  With no mint, or with one mint only, [configureOpenbookV2]
    returns the empty list under every schedule, submits nothing and
    leaves the ledger as it is: the missing quote mint is never
    dereferenced. *)
Theorem configureOpenbookV2_fewer_than_two_mints
    (schedule : list nat) (mints : list PublicKey) (w : World) :
  (List.length mints <= 1)%nat ->
  let r := run_configureOpenbookV2 schedule this mints w in
  result r = Some (Fulfilled []) /\
  submitted r = [] /\
  ledger (final r) = ledger w.
Proof.
  intros Hlen r; subst r.
  rewrite run_configureOpenbookV2_spawned. cbv zeta.
  assert (E : match mints with
              | [] => []
              | quoteMint :: rest =>
                  map_index
                    (fun mint index =>
                       createMarket this.(program) this.(anchorProvider)
                         this.(mintUtils) (fst (entropy_keypair (entropy w)))
                         this.(openbookProgramId) mint quoteMint index)
                    0 rest
              end = []).
  { destruct mints as [|q [|a rest]]; try reflexivity. simpl in Hlen. lia. }
  rewrite E. simpl. destruct schedule; simpl; auto.
Qed.

(** X12.  Whatever the mints, the ledger and the order in which the
    concurrent [createMarket] calls are resumed, every transaction these
    calls submit, before or after the awaited [Promise.all] has settled
    (a rejection stops none of the other calls), goes through the
    configurator's program handle, and is either an oracle instruction
    signed by the provider's payer alone, or a create-market instruction
    signed by the payer and by the keypair whose public key is the
    address of the market it creates.  What [configureOpenbookV2] has
    submitted when it settles is the beginning of these submissions. *)
Theorem configureOpenbookV2_signed_by_authority
    (schedule : list nat) (mints : list PublicKey) (w : World) :
  let payer := keypair this.(anchorProvider) in
  let signed tx :=
    methods_of tx = this.(program) /\
    (is_oracle_instruction tx = true /\ signers tx = [payer] \/
     exists identity,
       creates_market_as identity tx /\ signers tx = [payer; identity]) in
  let calls := run_configureOpenbookV2_calls schedule this mints w in
  Forall signed (submitted calls) /\
  (exists later,
     submitted calls =
     submitted (run_configureOpenbookV2 schedule this mints w) ++ later) /\
  Forall signed (submitted (run_configureOpenbookV2 schedule this mints w)).
Proof.
  intros payer signed calls.
  assert (Hcalls : Forall signed (submitted calls)).
  { subst calls. rewrite run_configureOpenbookV2_calls_spawned. cbv zeta.
    apply run_promises_submits_only, spawn_submits_only.
    destruct mints as [|quoteMint rest]; [constructor|].
    apply Forall_map_index. intros mint index. apply createMarket_submits_signed. }
  assert (Hprefix : exists later,
            submitted calls =
            submitted (run_configureOpenbookV2 schedule this mints w) ++ later).
  { subst calls.
    rewrite run_configureOpenbookV2_calls_spawned, run_configureOpenbookV2_spawned.
    cbv zeta. apply Promise_all_submitted_prefix. }
  split; [exact Hcalls|]. split; [exact Hprefix|].
  destruct Hprefix as [later Hl]. rewrite Hl in Hcalls.
  apply Forall_app in Hcalls. exact (proj1 Hcalls).
Qed.

(** X13.  The three operations fit together.  Let [markets] be returned
    by [configureOpenbookV2], let [handles] be returned by
    [configureMarketForUser] for a user over these markets in that order,
    and let the user's [open_orders] be these handles.  Then every order
    [fillOrderBook] submits for the k-th market names that market and the
    order-tracking account of the k-th handle, which is the handle of
    that very market, at the address derived with index k+1. *)
Theorem registered_user_is_filled_on_own_accounts
    (schedule : list nat) (quoteMint : PublicKey) (rest : list PublicKey)
    (w w1 w2 : World) (markets : list Market.t)
    (user userKp : Keypair) (handles : list OpenOrders.t)
    (token_data : list TokenAccountData.t)
    (k : nat) (marketData : Market.t) (nbOrders : Z) :
  result (run_configureOpenbookV2 schedule this (quoteMint :: rest) w) =
    Some (Fulfilled markets) ->
  result (run (configureMarketForUser this user markets) w1) = Fulfilled handles ->
  nth_error markets k = Some marketData ->
  let registered :=
    {| User.token_data := token_data; User.open_orders := handles |} in
  Forall
    (fun tx =>
       exists handle args accs,
         nth_error handles k = Some handle /\
         OpenOrders.market handle = Market.market_pk marketData /\
         instruction tx = Methods.placeOrder args accs /\
         PlaceOrder.market accs = Market.market_pk marketData /\
         PlaceOrder.openOrdersAccount accs = OpenOrders.open_orders handle /\
         OpenOrders.open_orders handle =
           open_orders_address user (Z.of_nat k + 1) this.(openbookProgramId))
    (submitted (run (fillOrderBook this registered userKp marketData nbOrders) w2)).
Proof.
  intros Hmarkets Hhandles Hk registered.
  destruct (configureOpenbookV2_returns
              (fun _ _ index m => Market.market_index m = index)) with
    (schedule := schedule) (quoteMint := quoteMint) (rest := rest) (w := w)
    (markets := markets) as [_ Hidx]; [|exact Hmarkets|].
  { intros admin mint q index.
    eapply returns_only_impl; [|apply createMarket_returns].
    simpl. tauto. }
  destruct (Hidx k marketData Hk) as (_ & _ & Hindex).
  pose proof (run_returns_only _ _ w1 handles
                (configureMarketForUser_returns this user markets) Hhandles) as Hh.
  simpl in Hh.
  assert (Hhk : nth_error handles k =
                Some {| OpenOrders.market := Market.market_pk marketData;
                        OpenOrders.open_orders :=
                          open_orders_address user (Z.of_nat k + 1)
                            this.(openbookProgramId) |}).
  { rewrite Hh, nth_error_map_index, Hk. cbn [option_map]. rewrite Z.add_0_l.
    reflexivity. }
  pose proof (run_submits_only _ _ w2
                (fillOrderBook_names_market this registered userKp marketData nbOrders))
    as HF.
  eapply Forall_impl; [|exact HF]. cbv beta.
  intros tx (h & args & accs & Hat & Hix & Hoo & Hm & _).
  unfold at_index in Hat. rewrite Hindex in Hat.
  destruct (Z.ltb_spec (Z.of_nat k) 0) as [Hneg|_]; [lia|].
  rewrite Nat2Z.id in Hat. subst registered. cbn [User.open_orders] in Hat.
  rewrite Hhk in Hat. inversion Hat; subst h.
  eexists. exists args, accs. split; [exact Hhk|]. simpl. auto.
Qed.

Lemma spawn_createMarket_pending (admin : Keypair) (quoteMint : PublicKey)
    (rest : list PublicKey) :
  forall (index : Z) (e : Entropy),
    first_rejected
      (fst (spawn
              (map_index
                 (fun mint index =>
                    createMarket this.(program) this.(anchorProvider)
                      this.(mintUtils) admin this.(openbookProgramId)
                      mint quoteMint index)
                 index rest) e)) = None.
Proof.
  induction rest as [|mint rest IH]; intros index e; [reflexivity|].
  cbn [map_index spawn].
  specialize (IH (index + 1)).
  unfold createMarket at 1, reference_price, getRandomInt.
  repeat match goal with
  | |- context [findProgramAddressSync ?s ?p] =>
      destruct (findProgramAddressSync s p) as [? ?]
  end.
  simpl. destruct (entropy_random e) as [r e']. simpl.
  specialize (IH e'). destruct (spawn _ e') as [ps e'']. simpl in *. exact IH.
Qed.

(** X14.  The markets created together share the quote oracle, and each
    [createMarket] asks the ledger whether it exists before creating it.
    On a ledger that initialises an oracle once, with no quote oracle on
    it yet and at least two base mints whose oracles are at other
    addresses, there is an order of resumption in which two calls both
    find the quote oracle absent and both submit its creation: the second
    creation is rejected, and so is [configureOpenbookV2]. *)
Theorem configureOpenbookV2_quote_oracle_race
    (quoteMint baseMint1 baseMint2 : PublicKey) (rest : list PublicKey) (w : World) :
  OracleInitialisedOnce env ->
  let payer := keypair this.(anchorProvider) in
  let quote_oracle := oracle_address payer quoteMint this.(openbookProgramId) in
  ledger_getAccountInfo (ledger w) quote_oracle = None ->
  equals (oracle_address payer baseMint1 this.(openbookProgramId)) quote_oracle = false ->
  equals (oracle_address payer baseMint2 this.(openbookProgramId)) quote_oracle = false ->
  exists schedule tx,
    let r := run_configureOpenbookV2 schedule this
               (quoteMint :: baseMint1 :: baseMint2 :: rest) w in
    result r = Some (Rejected (SendTransactionError tx)) /\
    creates_oracle quote_oracle tx = true /\
    count (creates_oracle quote_oracle) (submitted r) = 2%nat.
Proof.
  intros Ho payer B HB H1 H2.
  cut (exists ps w',
         (forall schedule,
            run_configureOpenbookV2 schedule this
              (quoteMint :: baseMint1 :: baseMint2 :: rest) w =
            Promise_all schedule ps w') /\
         loses_race B (fun txs => count (creates_oracle B) txs = 2%nat) ps w').
  { intros (ps & w' & Heq & schedule & tx & Hr & Hc & Hn).
    exists schedule, tx. cbv zeta. rewrite Heq. auto. }
  do 2 eexists. split.
  { intros schedule. rewrite run_configureOpenbookV2_spawned. cbv zeta. reflexivity. }
  cbn [map_index spawn].
  destruct (entropy_keypair (entropy w)) as [admin e0]. cbn [fst snd].
  set (others := map_index _ (0 + 1 + 1) rest).
  assert (Hothers : forall e, first_rejected (fst (spawn others e)) = None)
    by (intros e; apply spawn_createMarket_pending).
  clearbody others.
  unfold oracle_address in B, H1, H2. subst B payer.
  unfold createMarket, reference_price, getRandomInt.
  destruct (findProgramAddressSync
              [Buffer_from "StubOracle";
               toBytes (publicKey (keypair (anchorProvider this))); toBytes quoteMint]
              (openbookProgramId this)) as [B bumpB] eqn:EB.
  destruct (findProgramAddressSync
              [Buffer_from "StubOracle";
               toBytes (publicKey (keypair (anchorProvider this))); toBytes baseMint1]
              (openbookProgramId this)) as [A1 bump1] eqn:EA1.
  destruct (findProgramAddressSync
              [Buffer_from "StubOracle";
               toBytes (publicKey (keypair (anchorProvider this))); toBytes baseMint2]
              (openbookProgramId this)) as [A2 bump2] eqn:EA2.
  cbn [fst] in HB, H1, H2.
  destruct (findProgramAddressSync [Buffer_from "__event_authority"] _) as [ea bump].
  simpl.
  destruct (entropy_random e0) as [r1 e1]. simpl.
  destruct (entropy_random e1) as [r2 e2]. simpl.
  specialize (Hothers e2).
  destruct (spawn others e2) as [tail e3]. cbn [fst snd] in *.
  clear EB EA1 EA2.
  assert (N1 : PublicKey_eqb A1 B = false)
    by (unfold PublicKey_eqb; rewrite H1; apply andb_false_r).
  assert (N2 : PublicKey_eqb A2 B = false)
    by (unfold PublicKey_eqb; rewrite H2; apply andb_false_r).
  (* the first promise, up to its creation of the quote oracle *)
  base_oracle_settled Ho 0%nat A1 B.
  all: race_step 0%nat; quote_oracle_absent B.
  (* the second promise, to the same point *)
  all: base_oracle_settled Ho 1%nat A2 B.
  all: race_step 1%nat; quote_oracle_absent B.
  (* both submit the creation of the quote oracle *)
  all: race_step 0%nat; creation_accepted Ho.
  all: race_step 1%nat.
  all: match goal with
       | |- context [ledger_send ?l ?tx] =>
           rewrite (@oracle_rejected _ Ho l tx _ _ eq_refl)
             by (eapply (@oracle_initialised _ Ho); [eassumption | reflexivity])
       end; simpl.
  all: eapply loses_race_done; [simpl; reflexivity | |].
  all: unfold count, creates_oracle;
    cbn [filter instruction StubOracleCreate.oracle List.length app];
    rewrite ?N1, ?N2, ?PublicKey_eqb_refl; reflexivity.
Qed.

End Batch.

Section Constructor.
Context {web3 : Web3} {env : Env}.

(** X15.  For a configurator built by the constructor from an authority
    keypair, under every schedule, all the descriptors
    [configureOpenbookV2] returns carry the authority's secret key as
    [admin], a base oracle derived from the authority and their own base
    mint, and one and the same quote oracle, derived from the authority
    and the first mint. *)
Theorem configureOpenbookV2_shares_authority_and_quote_oracle
    (authority : Keypair) (mintUtils : MintUtils) (openbookProgramId : PublicKey)
    (schedule : list nat) (quoteMint : PublicKey) (rest : list PublicKey)
    (w : World) (markets : list Market.t) :
  let this := new_OpenbookConfigurator authority mintUtils openbookProgramId in
  result (run_configureOpenbookV2 schedule this (quoteMint :: rest) w) =
    Some (Fulfilled markets) ->
  Forall
    (fun m =>
       Market.admin m = Array_from (secretKey authority) /\
       Market.oracle_a m =
         oracle_address authority (Market.base_mint m) openbookProgramId /\
       Market.oracle_b m = oracle_address authority quoteMint openbookProgramId)
    markets.
Proof.
  intros this Hr.
  destruct (configureOpenbookV2_returns this
              (fun mint q index m =>
                 Market.admin m = Array_from (secretKey authority) /\
                 Market.oracle_a m =
                   oracle_address authority (Market.base_mint m) openbookProgramId /\
                 Market.oracle_b m = oracle_address authority q openbookProgramId))
    with (schedule := schedule) (quoteMint := quoteMint) (rest := rest) (w := w)
         (markets := markets) as [_ Hall]; [|exact Hr|].
  { intros admin mint q index.
    eapply returns_only_impl; [|apply createMarket_returns].
    simpl. intros m (_ & Hb & _ & Ha & Hoa & Hob). rewrite Hb. auto. }
  apply Forall_forall. intros m Hin.
  apply In_nth_error in Hin. destruct Hin as [i Hi].
  destruct (Hall i m Hi) as (_ & _ & H). exact H.
Qed.

End Constructor.

(** ** The further properties at work on the mock ledger *)

Lemma mock_strict_oracle_once : OracleInitialisedOnce Mock.strict.
Proof.
  split.
  - intros l tx price accs Hi Ha. simpl in *. unfold Mock.send, Mock.create.
    rewrite Hi. destruct (Mock.exists_at l _); [discriminate Ha | discriminate].
  - intros l tx price accs Hi Ha. apply mock_info in Ha.
    simpl. unfold Mock.send, Mock.create. rewrite Hi, Ha. reflexivity.
  - intros l tx l' price accs Hs Hi. apply mock_info.
    simpl in Hs. unfold Mock.send in Hs. rewrite Hi in Hs.
    eapply mock_create_exists; exact Hs.
  - intros l tx l' price accs a Hs Hi Hne Ha.
    simpl in *. unfold Mock.send, Mock.create in Hs. rewrite Hi in Hs.
    destruct (Mock.exists_at l (StubOracleCreate.oracle accs)); [discriminate|].
    inversion Hs; subst l'. unfold Mock.exists_at in *. simpl.
    destruct (existsb _ (Mock.existing l)); [discriminate Ha|].
    rewrite orb_false_r.
    unfold equals in Hne.
    destruct (Buffer_eqb (toBytes a) (toBytes (StubOracleCreate.oracle accs))) eqn:E;
      [|reflexivity].
    apply Buffer_eqb_eq in E. rewrite E, Buffer_eqb_refl in Hne. discriminate.
Qed.

Lemma createMarket_descriptor_matches_instruction_witness :
  exists m earlier tx accs,
    let r := run (createMarket (program Mock.configurator)
                    (anchorProvider Mock.configurator) Build_MintUtils
                    Mock.authority Mock.openbook Mock.sol Mock.usdc 0)
                 Mock.initial in
    result r = Fulfilled m /\
    submitted r = earlier ++ [tx] /\
    instruction tx =
      Methods.createMarket (Market.name m)
        {| confFilter := 0; maxStalenessSlots := 100 |} 1 1 0 0 0 accs /\
    describes m accs.
Proof.
  destruct (result (run (createMarket (program Mock.configurator)
                           (anchorProvider Mock.configurator) Build_MintUtils
                           Mock.authority Mock.openbook Mock.sol Mock.usdc 0)
                        Mock.initial))
    as [m|e] eqn:Hr; [|vm_compute in Hr; discriminate Hr].
  destruct (createMarket_descriptor_matches_instruction
              (program Mock.configurator) (anchorProvider Mock.configurator)
              Build_MintUtils Mock.openbook Mock.sol Mock.usdc
              Mock.authority 0 Mock.initial m Hr)
    as (earlier & tx & accs & Hs & _ & _ & _ & Hi & Hd).
  exists m, earlier, tx, accs. cbv zeta. auto.
Defined.

Lemma createMarket_price_on_both_oracles_witness :
  exists m tx,
    let r := run (createMarket (program Mock.configurator)
                    (anchorProvider Mock.configurator) Build_MintUtils
                    Mock.authority Mock.openbook Mock.sol Mock.usdc 0)
                 Mock.initial in
    result r = Fulfilled m /\
    In tx (submitted r) /\
    instruction tx =
      Methods.stubOracleSet (Market.price m)
        {| StubOracleSet.owner := publicKey Mock.authority;
           StubOracleSet.oracle := Market.oracle_b m |}.
Proof.
  destruct (result (run (createMarket (program Mock.configurator)
                           (anchorProvider Mock.configurator) Build_MintUtils
                           Mock.authority Mock.openbook Mock.sol Mock.usdc 0)
                        Mock.initial))
    as [m|e] eqn:Hr; [|vm_compute in Hr; discriminate Hr].
  destruct (createMarket_price_on_both_oracles
              (program Mock.configurator) (anchorProvider Mock.configurator)
              Build_MintUtils Mock.openbook Mock.sol Mock.usdc
              Mock.authority 0 Mock.initial m Hr)
    as (_ & (tx & Hin & Hi) & _).
  exists m, tx. cbv zeta. auto.
Defined.

Lemma createMarket_vaults_of_market_authority_witness :
  exists m,
    result (run (createMarket (program Mock.configurator)
                   (anchorProvider Mock.configurator) Build_MintUtils
                   Mock.authority Mock.openbook Mock.sol Mock.usdc 0)
                Mock.initial) = Fulfilled m /\
    Market.base_vault m =
      getAssociatedTokenAddressSync Mock.sol
        (market_authority (Market.market_pk m) Mock.openbook) true.
Proof.
  destruct (result (run (createMarket (program Mock.configurator)
                           (anchorProvider Mock.configurator) Build_MintUtils
                           Mock.authority Mock.openbook Mock.sol Mock.usdc 0)
                        Mock.initial))
    as [m|e] eqn:Hr; [|vm_compute in Hr; discriminate Hr].
  destruct (createMarket_vaults_of_market_authority
              (program Mock.configurator) (anchorProvider Mock.configurator)
              Build_MintUtils Mock.openbook Mock.sol Mock.usdc
              Mock.authority 0 Mock.initial m Hr)
    as (Hb & _).
  exists m. auto.
Defined.

Lemma createMarket_admin_decodes_witness :
  exists m,
    result (run (createMarket (program Mock.configurator)
                   (anchorProvider Mock.configurator) Build_MintUtils
                   Mock.other_admin Mock.openbook Mock.sol Mock.usdc 0)
                Mock.initial) = Fulfilled m /\
    map byte_of_Z (Market.admin m) = secretKey Mock.authority.
Proof.
  destruct (result (run (createMarket (program Mock.configurator)
                           (anchorProvider Mock.configurator) Build_MintUtils
                           Mock.other_admin Mock.openbook Mock.sol Mock.usdc 0)
                        Mock.initial))
    as [m|e] eqn:Hr; [|vm_compute in Hr; discriminate Hr].
  destruct (createMarket_admin_decodes
              (program Mock.configurator) (anchorProvider Mock.configurator)
              Build_MintUtils Mock.openbook Mock.sol Mock.usdc
              Mock.other_admin 0 Mock.initial m Hr)
    as (_ & _ & Hd).
  exists m. auto.
Defined.

Lemma createMarket_undeclared_account_size_witness :
  (forall d, In d (@IDL_accounts Mock.web3_without_eventHeap) ->
             idl_name d <> "eventHeap"%string) /\
  let r := run (@createMarket Mock.web3_without_eventHeap
                  (program Mock.configurator)
                  (anchorProvider Mock.configurator) Build_MintUtils
                  Mock.authority Mock.openbook Mock.sol Mock.usdc 0)
               Mock.initial in
  result r = Rejected TypeError /\
  Forall (fun tx => is_oracle_instruction tx = true) (submitted r).
Proof.
  assert (H : forall d, In d (@IDL_accounts Mock.web3_without_eventHeap) ->
                        idl_name d <> "eventHeap"%string).
  { intros d [<-|[<-|[]]]; simpl; discriminate. }
  split; [exact H|].
  destruct (@createMarket_undeclared_account_size
              Mock.web3_without_eventHeap Mock.lenient
              (program Mock.configurator) (anchorProvider Mock.configurator)
              Build_MintUtils Mock.openbook Mock.sol Mock.usdc
              Mock.authority 0 Mock.initial (or_intror H))
    as (_ & Hs & Hc).
  destruct (Hc mock_lenient_cooperative) as [Hr _].
  cbv zeta. auto.
Defined.

Lemma configureOpenbookV2_fewer_than_two_mints_witness :
  (List.length [Mock.usdc] <= 1)%nat /\
  result (run_configureOpenbookV2 [] Mock.configurator [Mock.usdc] Mock.initial) =
    Some (Fulfilled []).
Proof.
  assert (H : (List.length [Mock.usdc] <= 1)%nat) by (simpl; lia).
  split; [exact H|].
  destruct (configureOpenbookV2_fewer_than_two_mints Mock.configurator []
              [Mock.usdc] Mock.initial H) as [Hr _].
  exact Hr.
Defined.

Lemma configureOpenbookV2_shares_authority_and_quote_oracle_witness :
  exists markets,
    result (run_configureOpenbookV2 Mock.in_turn Mock.configurator
              [Mock.usdc; Mock.sol; Mock.eth] Mock.initial) =
      Some (Fulfilled markets) /\
    List.length markets = 2%nat /\
    Forall
      (fun m =>
         Market.admin m = Array_from (secretKey Mock.authority) /\
         Market.oracle_b m =
           oracle_address Mock.authority Mock.usdc Mock.openbook)
      markets.
Proof.
  destruct (result (run_configureOpenbookV2 Mock.in_turn Mock.configurator
                      [Mock.usdc; Mock.sol; Mock.eth] Mock.initial))
    as [[markets|e]|] eqn:Hr;
    [| vm_compute in Hr; discriminate Hr | vm_compute in Hr; discriminate Hr].
  pose proof (configureOpenbookV2_shares_authority_and_quote_oracle
                Mock.authority Build_MintUtils Mock.openbook
                Mock.in_turn Mock.usdc [Mock.sol; Mock.eth]
                Mock.initial markets Hr) as H.
  exists markets. split; [reflexivity|]. split.
  - pose proof Hr as Hr'. vm_compute in Hr'. inversion Hr'. reflexivity.
  - eapply Forall_impl; [|exact H]. cbv beta. intros m (Ha & _ & Hb). auto.
Defined.

Lemma registered_user_is_filled_on_own_accounts_witness :
  exists markets handles marketData,
    result (run_configureOpenbookV2 Mock.in_turn Mock.configurator
              [Mock.usdc; Mock.sol; Mock.eth] Mock.initial) =
      Some (Fulfilled markets) /\
    result (run (configureMarketForUser Mock.configurator Mock.alice markets)
                Mock.initial) = Fulfilled handles /\
    nth_error markets 1 = Some marketData /\
    Forall
      (fun tx =>
         exists handle args accs,
           nth_error handles 1 = Some handle /\
           OpenOrders.market handle = Market.market_pk marketData /\
           instruction tx = Methods.placeOrder args accs /\
           PlaceOrder.openOrdersAccount accs = OpenOrders.open_orders handle)
      (submitted
         (run (fillOrderBook Mock.configurator
                 {| User.token_data := User.token_data Mock.bob;
                    User.open_orders := handles |}
                 Mock.alice marketData 2) Mock.initial)).
Proof.
  destruct (result (run_configureOpenbookV2 Mock.in_turn Mock.configurator
                      [Mock.usdc; Mock.sol; Mock.eth] Mock.initial))
    as [[markets|e]|] eqn:Hm;
    [| vm_compute in Hm; discriminate Hm | vm_compute in Hm; discriminate Hm].
  pose proof Hm as Hm'. vm_compute in Hm'. inversion Hm' as [Em]. clear Hm'.
  destruct (result (run (configureMarketForUser Mock.configurator Mock.alice markets)
                        Mock.initial))
    as [handles|e] eqn:Hh; [|rewrite <- Em in Hh; vm_compute in Hh; discriminate Hh].
  destruct (nth_error markets 1) as [marketData|] eqn:Hk;
    [|rewrite <- Em in Hk; discriminate Hk].
  pose proof (registered_user_is_filled_on_own_accounts Mock.configurator
                Mock.in_turn Mock.usdc [Mock.sol; Mock.eth]
                Mock.initial Mock.initial Mock.initial markets
                Mock.alice Mock.alice handles (User.token_data Mock.bob)
                1 marketData 2 Hm Hh Hk) as H.
  exists markets, handles, marketData.
  split; [first [reflexivity | exact Hm]|].
  split; [first [reflexivity | exact Hh]|].
  split; [first [reflexivity | exact Hk]|].
  eapply Forall_impl; [|exact H]. cbv beta.
  intros tx (h & args & accs & H1 & H2 & H3 & _ & H5 & _).
  exists h, args, accs. auto.
Defined.

Lemma fillOrderBook_sells_after_all_buys_witness :
  exists tx args,
    let r := run (fillOrderBook Mock.configurator Mock.bob Mock.alice
                    Mock.sol_market (Z.of_nat 2)) Mock.initial in
    nth_error (submitted r) 3 = Some tx /\
    order_of tx = Some args /\
    PlaceOrder.side args = Side.ask /\
    (2 <= 3)%nat.
Proof.
  destruct (nth_error
              (submitted (run (fillOrderBook Mock.configurator Mock.bob Mock.alice
                                 Mock.sol_market (Z.of_nat 2)) Mock.initial)) 3)
    as [tx|] eqn:Hj; [|vm_compute in Hj; discriminate Hj].
  destruct (order_of tx) as [args|] eqn:Ha;
    [|vm_compute in Hj; inversion Hj; subst tx; discriminate Ha].
  assert (Hs : PlaceOrder.side args = Side.ask)
    by (vm_compute in Hj; inversion Hj; subst tx; inversion Ha; reflexivity).
  destruct (fillOrderBook_sells_after_all_buys Mock.configurator Mock.bob
              Mock.alice Mock.sol_market 2 Mock.initial 3 tx args Hj Ha Hs)
    as [Hle _].
  exists tx, args. cbv zeta. auto.
Defined.

Lemma fillOrderBook_book_stays_uncrossed_witness :
  exists tx buy,
    let r := run (fillOrderBook Mock.configurator Mock.bob Mock.alice
                    Mock.sol_market (Z.of_nat 2)) Mock.initial in
    nth_error (submitted r) 1 = Some tx /\ order_of tx = Some buy /\
    PlaceOrder.side buy = Side.bid /\
    1000 - Z.of_nat 2 <= PlaceOrder.priceLots buy < 1000.
Proof.
  destruct (nth_error
              (submitted (run (fillOrderBook Mock.configurator Mock.bob Mock.alice
                                 Mock.sol_market (Z.of_nat 2)) Mock.initial)) 1)
    as [tx|] eqn:Hi; [|vm_compute in Hi; discriminate Hi].
  destruct (order_of tx) as [buy|] eqn:Hb;
    [|vm_compute in Hi; inversion Hi; subst tx; discriminate Hb].
  assert (Hbs : PlaceOrder.side buy = Side.bid)
    by (vm_compute in Hi; inversion Hi; subst tx; inversion Hb; reflexivity).
  destruct (fillOrderBook_book_stays_uncrossed Mock.configurator Mock.bob
              Mock.alice Mock.sol_market 2 Mock.initial 1 tx buy Hi Hb)
    as [Hbuy _].
  exists tx, buy. cbv zeta. auto.
Defined.

Lemma fillOrderBook_client_ids_distinct_witness :
  exists tx a,
    let r := run (fillOrderBook Mock.configurator Mock.bob Mock.alice
                    Mock.sol_market (Z.of_nat 2)) Mock.initial in
    nth_error (submitted r) 2 = Some tx /\ order_of tx = Some a /\
    PlaceOrder.clientOrderId a <> Z.of_nat 2.
Proof.
  destruct (nth_error
              (submitted (run (fillOrderBook Mock.configurator Mock.bob Mock.alice
                                 Mock.sol_market (Z.of_nat 2)) Mock.initial)) 2)
    as [tx|] eqn:Hi; [|vm_compute in Hi; discriminate Hi].
  destruct (order_of tx) as [a|] eqn:Ha;
    [|vm_compute in Hi; inversion Hi; subst tx; discriminate Ha].
  destruct (fillOrderBook_client_ids_distinct Mock.configurator Mock.bob
              Mock.alice Mock.sol_market 2 Mock.initial 2 2 tx tx a a
              Hi Ha Hi Ha eq_refl) as (_ & Hne & _).
  exists tx, a. cbv zeta. auto.
Defined.

Lemma fillOrderBook_without_accounts_witness :
  at_index (User.open_orders Mock.carol)
           (Market.market_index Mock.sol_market) = None /\
  let r := run (fillOrderBook Mock.configurator Mock.carol Mock.alice
                  Mock.sol_market 3) Mock.initial in
  submitted r = [] /\ result r = Rejected TypeError.
Proof.
  assert (H : at_index (User.open_orders Mock.carol)
                (Market.market_index Mock.sol_market) = None) by reflexivity.
  split; [exact H|].
  destruct (fillOrderBook_without_accounts Mock.configurator Mock.carol
              Mock.alice Mock.sol_market 3 Mock.initial (or_introl H))
    as (Hs & _ & Hr & _).
  cbv zeta. split; [exact Hs|]. apply Hr. lia.
Defined.

Lemma configureOpenbookV2_quote_oracle_race_witness :
  OracleInitialisedOnce Mock.strict /\
  (exists markets,
     result (run_configureOpenbookV2 Mock.one_by_one Mock.configurator
               [Mock.usdc; Mock.sol; Mock.eth] Mock.initial_strict) =
       Some (Fulfilled markets)) /\
  exists schedule tx,
    result (run_configureOpenbookV2 schedule Mock.configurator
              [Mock.usdc; Mock.sol; Mock.eth] Mock.initial_strict) =
      Some (Rejected (SendTransactionError tx)).
Proof.
  split; [exact mock_strict_oracle_once|].
  split; [eexists; vm_compute; reflexivity|].
  assert (HB : @ledger_getAccountInfo Mock.strict (ledger Mock.initial_strict)
                 (oracle_address Mock.authority Mock.usdc Mock.openbook) = None)
    by reflexivity.
  assert (H1 : equals (oracle_address Mock.authority Mock.sol Mock.openbook)
                      (oracle_address Mock.authority Mock.usdc Mock.openbook) = false)
    by (vm_compute; reflexivity).
  assert (H2 : equals (oracle_address Mock.authority Mock.eth Mock.openbook)
                      (oracle_address Mock.authority Mock.usdc Mock.openbook) = false)
    by (vm_compute; reflexivity).
  destruct (configureOpenbookV2_quote_oracle_race Mock.configurator
              Mock.usdc Mock.sol Mock.eth [] Mock.initial_strict
              mock_strict_oracle_once HB H1 H2)
    as (schedule & tx & Hr & _).
  exists schedule, tx. exact Hr.
Defined.

(** On the strict ledger, with two calls resumed in turn, [Promise.all]
    is rejected after four submissions, and the call that was not
    rejected goes on to submit three more. *)
Lemma configureOpenbookV2_calls_go_on :
  let r := run_configureOpenbookV2 Mock.in_turn Mock.configurator
             [Mock.usdc; Mock.sol; Mock.eth] Mock.initial_strict in
  let calls := run_configureOpenbookV2_calls Mock.in_turn Mock.configurator
                 [Mock.usdc; Mock.sol; Mock.eth] Mock.initial_strict in
  (exists tx, result r = Some (Rejected (SendTransactionError tx))) /\
  List.length (submitted r) = 4%nat /\
  List.length (submitted calls) = 7%nat /\
  count is_create_market (submitted calls) = 1%nat.
Proof.
  cbv zeta. split; [eexists; vm_compute; reflexivity|].
  split; [vm_compute; reflexivity|]. split; vm_compute; reflexivity.
Qed.

(** ** Random integers of any range *)

(** The number of binary digits is fixed by the powers of two around. *)
Lemma Zdigits2_unique (z k : Z) :
  2 ^ (k - 1) <= z < 2 ^ k -> 0 < z -> Zdigits2 z = k.
Proof.
  intros Hk Hz.
  pose proof (Zdigits2_bounds z Hz) as Hd.
  assert (Hk0 : 0 < k).
  { destruct (Z.lt_ge_cases 0 k) as [|Hle]; [assumption|].
    destruct (Z.eq_dec k 0) as [->|]; [simpl in Hk; lia|].
    rewrite (Z.pow_neg_r 2 k) in Hk by lia. lia. }
  assert (Hd0 : 0 < Zdigits2 z) by (destruct z; simpl; lia).
  assert (H1 : Zdigits2 z - 1 < k) by (apply pow2_lt_inv; lia).
  assert (H2 : k - 1 < Zdigits2 z) by (apply pow2_lt_inv; lia).
  lia.
Qed.

Lemma Zdigits2_shift (z k : Z) :
  0 < z -> 0 <= k -> Zdigits2 (z * 2 ^ k) = Zdigits2 z + k.
Proof.
  intros Hz Hk.
  pose proof (Zdigits2_bounds z Hz) as Hd.
  assert (Hd0 : 0 < Zdigits2 z) by (destruct z; simpl; lia).
  assert (H2k : 0 < 2 ^ k) by (apply Z.pow_pos_nonneg; lia).
  apply Zdigits2_unique; [|nia].
  replace (Zdigits2 z + k - 1) with (Zdigits2 z - 1 + k) by lia.
  rewrite !Z.pow_add_r by lia. nia.
Qed.

(** Shifting out zeros only: nothing is rounded. *)
Lemma shr_1_iter_exact (Q : Z) (k : nat) :
  0 <= Q ->
  Nat.iter k shr_1 {| shr_m := Q * 2 ^ Z.of_nat k; shr_r := false; shr_s := false |} =
  {| shr_m := Q; shr_r := false; shr_s := false |}.
Proof.
  intros HQ. revert Q HQ. induction k as [|k IH]; intros Q HQ.
  - simpl. rewrite Z.mul_1_r. reflexivity.
  - rewrite Nat.iter_succ.
    rewrite Nat2Z.inj_succ, Z.pow_succ_r by lia.
    replace (Q * (2 * 2 ^ Z.of_nat k)) with ((Q * 2) * 2 ^ Z.of_nat k) by ring.
    rewrite IH by lia.
    destruct Q as [|q|q]; [reflexivity | | lia].
    rewrite Z.mul_comm. reflexivity.
Qed.

Lemma shr_exact (Q E n : Z) :
  0 <= Q -> 0 <= n ->
  shr {| shr_m := Q * 2 ^ n; shr_r := false; shr_s := false |} E n =
  ({| shr_m := Q; shr_r := false; shr_s := false |}, E + n).
Proof.
  intros HQ Hn. unfold shr. destruct n as [|p|p]; [| |lia].
  - rewrite Z.mul_1_r, Z.add_0_r. reflexivity.
  - rewrite iter_pos_nat. rewrite <- (positive_nat_Z p) at 1.
    rewrite shr_1_iter_exact by exact HQ. reflexivity.
Qed.

(** A mantissa of 53 digits in the exponent range is kept as it is. *)
Lemma binary_round_aux_canonical (s : bool) (m : positive) (e : Z) :
  Zdigits2 (Zpos m) = 53 -> -1074 <= e <= 971 ->
  binary_round_aux 53 1024 s (Zpos m) e loc_Exact = S754_finite s m e.
Proof.
  intros Hd He.
  unfold binary_round_aux, shr_fexp, fexp, emin. cbn [shr_record_of_loc].
  rewrite Hd.
  replace (Z.max (53 + e - 53) (3 - 1024 - 53) - e) with 0 by lia.
  cbn [shr shr_m loc_of_shr_record round_nearest_even].
  rewrite Hd.
  replace (Z.max (53 + e - 53) (3 - 1024 - 53) - e) with 0 by lia.
  cbn [shr shr_m].
  replace (e <=? 1024 - 53) with true by (symmetry; apply Z.leb_le; lia).
  reflexivity.
Qed.

(** The binary64 of the integer [c], given as [c * 2^k] with exponent
    [-k]. *)
Lemma binary_normalize_exact (c k : Z) :
  0 < c < 2 ^ 53 -> 0 <= k ->
  binary_normalize 53 1024 (c * 2 ^ k) (- k) false =
  S754_finite false (Z.to_pos (c * 2 ^ (53 - Zdigits2 c))) (Zdigits2 c - 53).
Proof.
  intros Hc Hk.
  pose proof (Zdigits2_bounds c ltac:(lia)) as Hd.
  assert (Hd0 : 0 < Zdigits2 c) by (destruct c; simpl; lia).
  assert (Hd53 : Zdigits2 c <= 53).
  { assert (Zdigits2 c - 1 < 53) by (apply pow2_lt_inv; lia). lia. }
  set (dc := Zdigits2 c) in *.
  assert (H2k : 0 < 2 ^ k) by (apply Z.pow_pos_nonneg; lia).
  assert (HS : 0 < c * 2 ^ k) by nia.
  assert (HdS : Zdigits2 (c * 2 ^ k) = dc + k) by (apply Zdigits2_shift; lia).
  destruct (c * 2 ^ k) as [|S|S] eqn:ES; try lia.
  unfold binary_normalize, binary_round.
  change (Z.pos (digits2_pos S)) with (Zdigits2 (Z.pos S)). rewrite HdS.
  unfold fexp, emin.
  replace (Z.max (dc + k + - k - 53) (3 - 1024 - 53)) with (dc - 53) by lia.
  assert (Hcanon : forall mz : positive,
             Zpos mz = c * 2 ^ (53 - dc) ->
             binary_round_aux 53 1024 false (Zpos mz) (dc - 53) loc_Exact =
             S754_finite false (Z.to_pos (c * 2 ^ (53 - dc))) (dc - 53)).
  { intros mz Hmz. rewrite <- Hmz. rewrite Pos2Z.id.
    apply binary_round_aux_canonical; [|lia].
    rewrite Hmz. unfold dc. rewrite Zdigits2_shift by lia. lia. }
  unfold shl_align.
  destruct (dc - 53 - - k) as [|g|g] eqn:Eg.
  - (* the mantissa has its 53 digits *)
    assert (k = 53 - dc) by lia. subst k.
    replace (- (53 - dc)) with (dc - 53) by lia.
    apply Hcanon. symmetry; exact ES.
  - (* more digits: the zeros are shifted out *)
    unfold binary_round_aux, shr_fexp, fexp, emin. cbn [shr_record_of_loc].
    rewrite HdS.
    replace (Z.max (dc + k + - k - 53) (3 - 1024 - 53) - - k) with (Z.pos g) by lia.
    assert (Hsplit : Z.pos S = (c * 2 ^ (53 - dc)) * 2 ^ Z.pos g).
    { rewrite <- ES. rewrite <- Z.mul_assoc, <- Z.pow_add_r by lia.
      f_equal. f_equal. lia. }
    rewrite Hsplit.
    rewrite shr_exact by (try apply Z.mul_nonneg_nonneg; try apply Z.pow_nonneg; lia).
    cbn [shr_m loc_of_shr_record round_nearest_even].
    replace (- k + Z.pos g) with (dc - 53) by lia.
    assert (Hpos : 0 < c * 2 ^ (53 - dc))
      by (apply Z.mul_pos_pos; [lia | apply Z.pow_pos_nonneg; lia]).
    destruct (c * 2 ^ (53 - dc)) as [|mz|mz] eqn:Emz; try lia.
    specialize (Hcanon mz eq_refl).
    unfold binary_round_aux, shr_fexp, fexp, emin in Hcanon.
    cbn [shr_record_of_loc] in Hcanon.
    assert (Hdm : Zdigits2 (Z.pos mz) = 53).
    { rewrite <- Emz. unfold dc. rewrite Zdigits2_shift by lia. lia. }
    rewrite Hdm in Hcanon |- *.
    replace (Z.max (53 + (dc - 53) - 53) (3 - 1024 - 53) - (dc - 53)) with 0 in Hcanon |- * by lia.
    cbn [shr shr_m loc_of_shr_record round_nearest_even] in Hcanon |- *.
    rewrite Hdm in Hcanon.
    replace (Z.max (53 + (dc - 53) - 53) (3 - 1024 - 53) - (dc - 53)) with 0 in Hcanon by lia.
    cbn [shr shr_m] in Hcanon. exact Hcanon.
  - (* fewer digits: zeros are shifted in *)
    apply Hcanon.
    change (Pos.iter xO S g) with (Zpower.shift_pos g S).
    rewrite Zpower.shift_pos_correct, Z.pow_pos_fold, <- ES.
    rewrite Z.mul_comm, <- Z.mul_assoc, <- Z.pow_add_r by lia.
    f_equal. f_equal. lia.
Qed.

Lemma of_Z_positive (z : Z) :
  0 < z < 2 ^ 53 ->
  JS.of_Z z =
  S754_finite false (Z.to_pos (z * 2 ^ (53 - Zdigits2 z))) (Zdigits2 z - 53).
Proof.
  intros Hz. unfold JS.of_Z, JS.prec, JS.emax.
  pose proof (binary_normalize_exact z 0 Hz ltac:(lia)) as H.
  rewrite Z.mul_1_r in H. exact H.
Qed.

Lemma shl_align_fst (mx : positive) (ex ez : Z) :
  ez <= ex -> Zpos (fst (shl_align mx ex ez)) = Zpos mx * 2 ^ (ex - ez).
Proof.
  intros H. unfold shl_align.
  destruct (ez - ex) as [|g|g] eqn:E; cbn [fst]; try lia.
  - replace (ex - ez) with 0 by lia. lia.
  - change (Pos.iter xO mx g) with (Zpower.shift_pos g mx).
    rewrite Zpower.shift_pos_correct, Z.pow_pos_fold.
    replace (ex - ez) with (Z.pos g) by lia. ring.
Qed.

(** Integers add exactly as long as the sum has at most 53 digits. *)
Lemma add_integers (a b : Z) :
  0 <= a -> 0 < b -> a + b < 2 ^ 53 ->
  JS.add (JS.of_Z a) (JS.of_Z b) = JS.of_Z (a + b).
Proof.
  intros Ha Hb Hab.
  destruct (Z.eq_dec a 0) as [->|Ha0].
  { rewrite Z.add_0_l. rewrite (of_Z_positive b) by lia. reflexivity. }
  rewrite (of_Z_positive (a + b)) by lia.
  rewrite (of_Z_positive a), (of_Z_positive b) by lia.
  pose proof (Zdigits2_bounds a ltac:(lia)) as Hda.
  pose proof (Zdigits2_bounds b ltac:(lia)) as Hdb.
  set (da := Zdigits2 a) in *. set (db := Zdigits2 b) in *.
  assert (Hda0 : 0 < da) by (unfold da; destruct a; simpl; lia).
  assert (Hdb0 : 0 < db) by (unfold db; destruct b; simpl; lia).
  assert (Hda53 : da <= 53).
  { assert (da - 1 < 53) by (apply pow2_lt_inv; lia). lia. }
  assert (Hdb53 : db <= 53).
  { assert (db - 1 < 53) by (apply pow2_lt_inv; lia). lia. }
  unfold JS.add, JS.prec, JS.emax, SFadd. cbv zeta. cbn [cond_Zopp].
  set (ez := Z.min (da - 53) (db - 53)).
  rewrite !shl_align_fst by (unfold ez; lia).
  assert (Hpa : 0 < a * 2 ^ (53 - da))
    by (apply Z.mul_pos_pos; [lia | apply Z.pow_pos_nonneg; lia]).
  assert (Hpb : 0 < b * 2 ^ (53 - db))
    by (apply Z.mul_pos_pos; [lia | apply Z.pow_pos_nonneg; lia]).
  rewrite !Z2Pos.id by assumption.
  rewrite <- !Z.mul_assoc, <- !Z.pow_add_r by (unfold ez; lia).
  replace (53 - da + (da - 53 - ez)) with (- ez) by lia.
  replace (53 - db + (db - 53 - ez)) with (- ez) by lia.
  rewrite <- Z.mul_add_distr_r.
  pose proof (binary_normalize_exact (a + b) (- ez) ltac:(lia) ltac:(unfold ez; lia))
    as H.
  rewrite Z.opp_involutive in H. exact H.
Qed.

Lemma round_up_below (M Y A B m1 m2 : Z) :
  1 <= M < 2 ^ 53 -> 2 ^ 52 <= Y < 2 ^ 53 -> 1 <= A -> 1 <= B -> M < A * B ->
  m1 = (M * Y) / A ->
  (B = 1 -> 2 ^ 52 <= m1) ->
  (m2 = m1 \/ (m2 = m1 + 1 /\ A <= 2 * ((M * Y) mod A))) ->
  m2 < Y * B.
Proof.
  intros HM HY HA HB HAB Hm1 Hnormal Hm2.
  change (2 ^ 53) with 9007199254740992 in *.
  change (2 ^ 52) with 4503599627370496 in *.
  set (P := M * Y) in *.
  pose proof (Z.div_mod P A ltac:(lia)) as Hdm.
  pose proof (Z.mod_pos_bound P A ltac:(lia)) as Hmod.
  rewrite <- Hm1 in Hdm.
  set (rem := P mod A) in *.
  assert (HP : P + Y <= A * B * Y).
  { assert (H : (M + 1) * Y <= (A * B) * Y)
      by (apply Z.mul_le_mono_nonneg_r; lia).
    unfold P. clear - H. lia. }
  assert (Hlt : m1 < Y * B).
  { apply (Z.mul_lt_mono_pos_l A); [lia|].
    replace (A * (Y * B)) with (A * B * Y) by ring. clear - Hdm Hmod HP HY. lia. }
  destruct Hm2 as [-> | [-> Hup]]; [exact Hlt|].
  destruct (Z.eq_dec m1 (Y * B - 1)) as [Heq|Hne]; [|lia].
  exfalso.
  assert (HAm : A * m1 = A * B * Y - A) by (rewrite Heq; ring).
  assert (H2Y : 2 * Y <= A) by (clear - Hdm HAm HP Hup; lia).
  assert (HPu : P < 2 * Y * Y).
  { unfold P. apply Z.mul_lt_mono_pos_r; lia. }
  assert (HPl : 2 * Y * m1 <= P).
  { assert (H : (2 * Y) * m1 <= A * m1)
      by (apply Z.mul_le_mono_nonneg_r; lia).
    clear - H Hdm Hmod. lia. }
  assert (Hm1Y : m1 < Y).
  { apply (Z.mul_lt_mono_pos_l (2 * Y)); [lia|]. clear - HPu HPl. lia. }
  assert (HB1 : B = 1).
  { destruct (Z.eq_dec B 1) as [|HB2]; [assumption|]. exfalso.
    assert (H : Y * 2 <= Y * B) by (apply Z.mul_le_mono_nonneg_l; lia).
    clear - H Heq Hm1Y HY. lia. }
  specialize (Hnormal HB1).
  assert (H : M * Y < (2 * m1) * Y) by (apply Z.mul_lt_mono_pos_r; lia).
  fold P in H. clear - H HPl. lia.
Qed.

(** The product of a binary64 below 1 with a positive integer is zero or
    a positive binary64 below that integer. *)
Lemma mul_below (m : positive) (e max : Z) :
  e <= -53 -> Zpos m < 2 ^ 53 -> 0 < max < 2 ^ 53 ->
  let x := SFmul 53 1024 (S754_finite false m e) (JS.of_Z max) in
  x = S754_zero false \/
  exists m' e', x = S754_finite false m' e' /\ e' <= 0 /\
                Zpos m' < max * 2 ^ (- e').
Proof.
  intros He Hm Hmax. cbv zeta.
  rewrite (of_Z_positive max Hmax).
  pose proof (Zdigits2_bounds max ltac:(lia)) as Hdmax.
  set (dmax := Zdigits2 max) in *.
  assert (Hdmax0 : 0 < dmax) by (unfold dmax; destruct max; simpl; lia).
  assert (Hdmax53 : dmax <= 53).
  { assert (dmax - 1 < 53) by (apply pow2_lt_inv; lia). lia. }
  set (Ey := dmax - 53).
  assert (HY : 2 ^ 52 <= max * 2 ^ (53 - dmax) < 2 ^ 53).
  { assert (E52 : 2 ^ 52 = 2 ^ (dmax - 1) * 2 ^ (53 - dmax))
      by (rewrite <- Z.pow_add_r by lia; f_equal; lia).
    assert (E53 : 2 ^ 53 = 2 ^ dmax * 2 ^ (53 - dmax))
      by (rewrite <- Z.pow_add_r by lia; f_equal; lia).
    rewrite E52, E53.
    assert (0 < 2 ^ (53 - dmax)) by (apply Z.pow_pos_nonneg; lia).
    split; [apply Z.mul_le_mono_nonneg_r; lia | apply Z.mul_lt_mono_pos_r; lia]. }
  set (Y := max * 2 ^ (53 - dmax)) in *.
  assert (HYp : Zpos (Z.to_pos Y) = Y) by (apply Z2Pos.id; lia).
  unfold SFmul, binary_round_aux, shr_fexp. cbn [xorb shr_record_of_loc].
  rewrite Pos2Z.inj_mul, HYp.
  set (P := Z.pos m * Y).
  set (E := e + Ey).
  assert (HP0 : 0 < P) by (unfold P; apply Z.mul_pos_pos; lia).
  assert (HPl : 2 ^ 52 <= P).
  { unfold P. replace (2 ^ 52) with (1 * 2 ^ 52) by ring.
    apply Z.mul_le_mono_nonneg; lia. }
  assert (Hpe : 2 ^ 53 <= 2 ^ (- e)) by (apply Z.pow_le_mono_r; lia).
  assert (HPu : P < 2 ^ (53 - e)).
  { replace (53 - e) with (- e + 53) by lia. rewrite Z.pow_add_r by lia.
    unfold P. apply Z.mul_lt_mono_nonneg; lia. }
  pose proof (Zdigits2_bounds P HP0) as Hd.
  set (d := Zdigits2 P) in *.
  assert (Hd53 : 53 <= d).
  { assert (52 < d); [|lia].
    apply pow2_lt_inv; [|lia].
    destruct (Z.le_gt_cases 0 d); [assumption|].
    rewrite (Z.pow_neg_r 2 d) in Hd by lia. lia. }
  assert (HdE : d + E <= 53 + Ey).
  { assert (d - 1 < 53 - e) by (apply pow2_lt_inv; lia). unfold E. lia. }
  unfold fexp, emin.
  set (t := Z.max (d + E - 53) (3 - 1024 - 53)).
  assert (Ht : E <= t <= Ey) by (unfold t, E, Ey; lia).
  pose proof (shr_spec P E (t - E) ltac:(lia)) as Hs1.
  destruct (shr {| shr_m := P; shr_r := false; shr_s := false |} E (t - E))
    as [mrs1 e1].
  destruct Hs1 as (Hm1 & He1 & Hr1).
  rewrite Z.max_l in Hm1, He1 by lia.
  replace (E + (t - E)) with t in He1 by lia. subst e1.
  pose proof (round_nearest_even_spec mrs1) as Hrne. cbv zeta in Hrne.
  set (m2 := round_nearest_even (shr_m mrs1) (loc_of_shr_record mrs1)) in *.
  set (n := t - E) in *. set (s := Ey - t).
  assert (Hn : 0 <= n) by (unfold n; lia).
  assert (Hs : 0 <= s) by (unfold s; lia).
  assert (HAB : 2 ^ (- e) = 2 ^ n * 2 ^ s).
  { rewrite <- Z.pow_add_r by lia. f_equal. unfold n, s, E. lia. }
  assert (HA : 1 <= 2 ^ n) by (pose proof (Z.pow_pos_nonneg 2 n); lia).
  assert (HB : 1 <= 2 ^ s) by (pose proof (Z.pow_pos_nonneg 2 s); lia).
  assert (Hnormal : 2 ^ s = 1 -> 2 ^ 52 <= shr_m mrs1).
  { intros Hs1.
    assert (s = 0).
    { destruct (Z.eq_dec s 0) as [|Hs0]; [assumption|]. exfalso.
      assert (2 ^ 1 <= 2 ^ s) by (apply Z.pow_le_mono_r; lia).
      change (2 ^ 1) with 2 in *. lia. }
    assert (Hn53 : n = d - 53) by (unfold n, t, s, E, Ey in *; lia).
    rewrite Hm1, Hn53.
    apply Z.div_le_lower_bound; [apply Z.pow_pos_nonneg; lia|].
    rewrite <- Z.pow_add_r by lia.
    replace (d - 53 + 52) with (d - 1) by lia. lia. }
  assert (Hm2 : m2 < Y * 2 ^ s).
  { apply (round_up_below (Z.pos m) Y (2 ^ n) (2 ^ s) (shr_m mrs1) m2);
      [lia | lia | lia | lia | lia | exact Hm1 | exact Hnormal |].
    destruct Hrne as [H|[H Hr]]; [left; exact H | right].
    split; [exact H|]. apply Hr1 in Hr. tauto. }
  assert (Hm20 : 0 <= m2).
  { assert (0 <= shr_m mrs1) by (rewrite Hm1; apply Z.div_pos; lia).
    destruct Hrne as [H0|[H0 _]]; lia. }
  assert (Hm2' : m2 < max * 2 ^ (- t)).
  { replace (- t) with (53 - dmax + s) by (unfold s, Ey; lia).
    rewrite Z.pow_add_r by lia. unfold Y in Hm2.
    rewrite Z.mul_assoc. exact Hm2. }
  pose proof (shr_spec m2 t (Z.max (Zdigits2 m2 + t - 53) (3 - 1024 - 53) - t) Hm20)
    as Hs2.
  destruct (shr {| shr_m := m2; shr_r := false; shr_s := false |} t
              (Z.max (Zdigits2 m2 + t - 53) (3 - 1024 - 53) - t))
    as [mrs2 e2].
  destruct Hs2 as (Hm3 & He2 & _).
  set (n2 := Z.max (Z.max (Zdigits2 m2 + t - 53) (3 - 1024 - 53) - t) 0) in *.
  assert (Hn2 : 0 <= n2) by (unfold n2; lia).
  assert (He2' : e2 <= Ey).
  { subst e2. unfold n2.
    destruct (Z.eq_dec m2 0) as [->|Hne]; [simpl; unfold Ey; lia|].
    pose proof (Zdigits2_bounds m2 ltac:(lia)) as Hd2.
    assert (2 ^ (Zdigits2 m2 - 1) < 2 ^ (dmax - t)).
    { replace (dmax - t) with (dmax + - t) by lia. rewrite Z.pow_add_r by lia.
      assert (0 < 2 ^ (- t)) by (apply Z.pow_pos_nonneg; lia).
      assert (max * 2 ^ (- t) < 2 ^ dmax * 2 ^ (- t))
        by (apply Z.mul_lt_mono_pos_r; lia).
      lia. }
    apply pow2_lt_inv in H; unfold Ey; lia. }
  assert (Hm3' : shr_m mrs2 < max * 2 ^ (- e2)).
  { rewrite Hm3. apply Z.div_lt_upper_bound; [apply Z.pow_pos_nonneg; lia|].
    replace (2 ^ n2 * (max * 2 ^ (- e2))) with (max * 2 ^ (- t)); [exact Hm2'|].
    replace (- t) with (n2 + - e2) by lia.
    rewrite Z.pow_add_r by (unfold Ey in *; lia). ring. }
  assert (Hm30 : 0 <= shr_m mrs2)
    by (rewrite Hm3; apply Z.div_pos; [lia|apply Z.pow_pos_nonneg; lia]).
  destruct (shr_m mrs2) as [|m3|m3]; [left; reflexivity | right | lia].
  replace (e2 <=? 1024 - 53) with true
    by (symmetry; apply Z.leb_le; unfold Ey in *; lia).
  exists m3, e2. split; [reflexivity|]. split; [unfold Ey in *; lia | exact Hm3'].
Qed.

Lemma Zfloor_mul_below (r : JS.number) (max : Z) :
  JS.unit_interval r = true ->
  0 < max < 2 ^ 53 ->
  0 <= JS.Zfloor (JS.mul r (JS.of_Z max)) < max /\
  JS.Math_floor (JS.mul r (JS.of_Z max)) =
    JS.of_Z (JS.Zfloor (JS.mul r (JS.of_Z max))).
Proof.
  intros H Hmax.
  destruct (unit_interval_inv r H) as [->|(m & e & -> & He & Hm)].
  - rewrite (of_Z_positive max Hmax).
    change (JS.mul (S754_zero false) (S754_finite false ?m ?e))
      with (S754_zero false).
    change (JS.Zfloor (S754_zero false)) with 0.
    split; [lia | reflexivity].
  - unfold JS.mul, JS.prec, JS.emax.
    destruct (mul_below m e max He Hm Hmax) as [->|(m' & e' & -> & He' & Hm')].
    + change (JS.Zfloor (S754_zero false)) with 0.
      split; [lia | reflexivity].
    + split; [|reflexivity].
      unfold JS.Zfloor. cbn [cond_Zopp].
      rewrite Z.shiftl_div_pow2 by lia.
      assert (0 < 2 ^ (- e')) by (apply Z.pow_pos_nonneg; lia).
      split; [apply Z.div_pos; lia|].
      apply Z.div_lt_upper_bound; [assumption|].
      rewrite Z.mul_comm. exact Hm'.
Qed.

Section RandomInt.
Context {web3 : Web3} {env : Env}.

(** X16.  For an integer [max] from 1 to [2^53 - 100] and every draw [r]
    of [Math.random()], a binary64 in [0, 1), [getRandomInt(max)] returns
    the integer [Math.floor(r * max) + 100] without rounding of the sum;
    the floor is at least 0 and less than [max], although the product is
    the rounded binary64 product, so the result lies between 100 and
    [max + 99]. *)
Theorem getRandomInt_range (max : Z) (w : World) :
  1 <= max <= 2 ^ 53 - 100 ->
  JS.unit_interval (fst (entropy_random (entropy w))) = true ->
  exists k : Z,
    0 <= k < max /\
    k = JS.Zfloor (JS.mul (fst (entropy_random (entropy w))) (JS.of_Z max)) /\
    result (run (getRandomInt (JS.of_Z max)) w) = Fulfilled (JS.of_Z (k + 100)).
Proof.
  intros Hmax Hr.
  assert (Hmax' : 0 < max < 2 ^ 53) by lia.
  destruct (Zfloor_mul_below _ max Hr Hmax') as [Hk Hfloor].
  set (k := JS.Zfloor _) in *.
  exists k. split; [exact Hk|]. split; [reflexivity|].
  unfold getRandomInt. simpl.
  destruct (entropy_random (entropy w)) as [r e]. simpl in *.
  rewrite Hfloor. f_equal.
  apply add_integers; lia.
Qed.

End RandomInt.

Lemma getRandomInt_range_witness :
  1 <= 7 <= 2 ^ 53 - 100 /\
  JS.unit_interval (fst (entropy_random (entropy Mock.initial))) = true /\
  exists k : Z,
    0 <= k < 7 /\
    k = JS.Zfloor (JS.mul (fst (entropy_random (entropy Mock.initial))) (JS.of_Z 7)) /\
    result (run (getRandomInt (JS.of_Z 7)) Mock.initial) = Fulfilled (JS.of_Z (k + 100)).
Proof.
  assert (Hmax : 1 <= 7 <= 2 ^ 53 - 100) by lia.
  assert (Hr : JS.unit_interval (fst (entropy_random (entropy Mock.initial))) = true)
    by (vm_compute; reflexivity).
  split; [exact Hmax|]. split; [exact Hr|].
  exact (getRandomInt_range (env := Mock.lenient) 7 Mock.initial Hmax Hr).
Defined.
